(** * FraudShield: the risk evaluation and decisioning pipeline

    A shallow embedding of the Evaluator service
    ([apps/evaluator/src/services/evaluationService.ts]) and of the Decisioner
    service ([apps/decisioner/src/services/decisionService.ts],
    [eventConsumer.ts], [redisService.ts], [eventProducer.ts], [config.ts]),
    followed by the properties of the pipeline that were checked against them.

    Conventions of the embedding:
    - a JavaScript [number] is a rational [Q]; numeric equality is [Qeq];
    - [undefined] is [None : option Json], every other runtime value that the
      services handle is JSON data ([Json]);
    - asynchronous methods are computations in a state-and-exception monad
      over the service's world (cache, producer, clock, identifiers);
    - calls to the logger are kept only at level [error], as a list of
      messages in the world. *)

From Stdlib Require Import QArith Qabs Lqa ZArith Lia List Bool Ascii String Sorted.
From stdpp Require Import base option list strings gmap pretty.

Set Warnings "-register-all".

Local Open Scope string_scope.
Local Open Scope Z_scope.

(** ** JavaScript values and the operations the services use on them *)

Module Js.

Inductive Json : Type :=
| JNull
| JBool (b : bool)
| JNum (q : Q)
| JStr (s : string)
| JArr (xs : list Json)
| JObj (fields : gmap string Json).

(** A runtime value: JSON data, or [undefined]. *)
Abbreviation Value := (option Json).
Abbreviation undefined := (@None Json).

(** The two conversions of the language that are not determined by the data
    model: how a number prints and how a string reads as a number
    ([None] is NaN). *)
Class Runtime := {
  number_to_string : Q -> string;
  string_to_number : string -> option Q
}.

Definition is_number (v : Value) : bool :=
  match v with Some (JNum _) => true | _ => false end.

Definition is_string (v : Value) : bool :=
  match v with Some (JStr _) => true | _ => false end.

Definition is_array (v : Value) : bool :=
  match v with Some (JArr _) => true | _ => false end.

(** [typeof v === 'object'] (true of [null], of arrays and of objects). *)
Definition typeof_object (v : Value) : bool :=
  match v with
  | Some JNull | Some (JArr _) | Some (JObj _) => true
  | _ => false
  end.

Definition is_nullish (v : Value) : bool :=
  match v with None | Some JNull => true | _ => false end.

(** [a === b].  Two arrays or two objects are equal only when they are the
    same reference; a condition value and a field value always come from two
    different [JSON.parse] calls (or a literal and a parse), so they never
    are. *)
Definition strict_equals (a b : Value) : bool :=
  match a, b with
  | None, None => true
  | Some JNull, Some JNull => true
  | Some (JBool x), Some (JBool y) => Bool.eqb x y
  | Some (JNum x), Some (JNum y) => Qeq_bool x y
  | Some (JStr x), Some (JStr y) => bool_decide (x = y)
  | _, _ => false
  end.

(** [xs.includes(v)] on an array (SameValueZero, which on JSON data is
    [===]). *)
Definition array_includes (xs : list Json) (v : Value) : bool :=
  existsb (fun x => strict_equals (Some x) v) xs.

Fixpoint join (sep : string) (l : list string) : string :=
  match l with
  | [] => ""
  | [s] => s
  | s :: rest => s +:+ sep +:+ join sep rest
  end.

Section WithRuntime.
Context `{Runtime}.

(** [String(v)] for JSON data. *)
Fixpoint ToString (v : Json) : string :=
  match v with
  | JNull => "null"
  | JBool true => "true"
  | JBool false => "false"
  | JNum q => number_to_string q
  | JStr s => s
  | JArr xs =>
      join "," (List.map (fun x => match x with JNull => "" | _ => ToString x end) xs)
  | JObj _ => "[object Object]"
  end.

(** [Number(v)] for JSON data; [None] is NaN. *)
Definition ToNumber (v : Json) : option Q :=
  match v with
  | JNull => Some 0%Q
  | JBool true => Some 1%Q
  | JBool false => Some 0%Q
  | JNum q => Some q
  | JStr s => string_to_number s
  | JArr _ => string_to_number (ToString v)
  | JObj _ => None
  end.

(** [x REL v] where [x] is a number: [v] is converted with [Number], and a
    NaN makes every comparison false. *)
Definition compare_number (rel : Q -> Q -> bool) (x : Q) (v : Json) : bool :=
  match ToNumber v with
  | Some y => rel x y
  | None => false
  end.

Definition Qgt_bool (x y : Q) : bool := negb (Qle_bool x y).
Definition Qge_bool (x y : Q) : bool := Qle_bool y x.
Definition Qlt_bool (x y : Q) : bool := negb (Qle_bool y x).

(** [hay.includes(needle)] on strings. *)
Fixpoint string_includes (hay needle : string) : bool :=
  String.prefix needle hay
  || match hay with
     | EmptyString => false
     | String _ rest => string_includes rest needle
     end.

End WithRuntime.

(** [s.split(sep)] for a separator of one character: never empty. *)
Fixpoint split_go (sep : ascii) (cur : string) (s : string) : list string :=
  match s with
  | EmptyString => [cur]
  | String c rest =>
      if Ascii.eqb c sep then cur :: split_go sep "" rest
      else split_go sep (cur +:+ String c "") rest
  end.

Definition split (sep : ascii) (s : string) : list string := split_go sep "" s.

(** [path.split('.')]. *)
Definition split_dot (s : string) : list string := split "."%char s.

(** Canonical array indices: "0", or digits not starting with '0'. *)
Definition digit_of (c : ascii) : option nat :=
  let n := Ascii.nat_of_ascii c in
  if (48 <=? n)%nat && (n <=? 57)%nat then Some (n - 48)%nat else None.

Fixpoint digits_value (acc : nat) (s : string) : option nat :=
  match s with
  | EmptyString => Some acc
  | String c rest =>
      match digit_of c with
      | Some d => digits_value (10 * acc + d)%nat rest
      | None => None
      end
  end.

Definition array_index (k : string) : option nat :=
  match k with
  | EmptyString => None
  | String "0" EmptyString => Some 0%nat
  | String "0" _ => None
  | _ => digits_value 0 k
  end.

Fixpoint char_at (s : string) (i : nat) : option string :=
  match s, i with
  | EmptyString, _ => None
  | String c _, O => Some (String c "")
  | String _ rest, S j => char_at rest j
  end.

(** [v[k]] for a value that is neither [null] nor [undefined]: own properties
    of objects, elements and [length] of arrays and strings.  Members
    inherited from the prototypes (methods) are not JSON data and are left
    out: they read as [undefined]. *)
Definition get_property (v : Json) (k : string) : Value :=
  match v with
  | JObj fields => fields !! k
  | JArr xs =>
      if bool_decide (k = "length") then Some (JNum (inject_Z (Z.of_nat (length xs))))
      else match array_index k with
           | Some i => xs !! i
           | None => None
           end
  | JStr s =>
      if bool_decide (k = "length") then Some (JNum (inject_Z (Z.of_nat (String.length s))))
      else match array_index k with
           | Some i => JStr <$> char_at s i
           | None => None
           end
  | _ => None
  end.

End Js.

(** ** Asynchronous methods: state and exceptions *)

Module Async.

Inductive Result (A : Type) : Type :=
| Ok (a : A)
| Throw (error : string).
Arguments Ok {A} a.
Arguments Throw {A} error.

(** A method run against the world [W]: it resolves to a value or rejects
    with an error, and leaves a new world. *)
Definition M (W A : Type) : Type := W -> Result A * W.

Definition ret {W A} (a : A) : M W A := fun w => (Ok a, w).

Definition throw {W A} (error : string) : M W A := fun w => (Throw error, w).

Definition bind {W A B} (c : M W A) (k : A -> M W B) : M W B :=
  fun w =>
    match c w with
    | (Ok a, w') => k a w'
    | (Throw e, w') => (Throw e, w')
    end.

(** [try { body } catch (error) { handler }]; the effects of [body] up to
    the exception stay. *)
Definition try_catch {W A} (body : M W A) (handler : string -> M W A) : M W A :=
  fun w =>
    match body w with
    | (Ok a, w') => (Ok a, w')
    | (Throw e, w') => handler e w'
    end.

Definition gets {W A} (f : W -> A) : M W A := fun w => (Ok (f w), w).

Definition modify {W} (f : W -> W) : M W unit := fun w => (Ok tt, f w).

Definition rejects {W A} (c : M W A) (w : W) : bool :=
  match c w with
  | (Throw _, _) => true
  | (Ok _, _) => false
  end.

(** [c] resolves from every world: it never rejects. *)
Definition resolves {W A} (c : M W A) : Prop :=
  forall w, exists a, fst (c w) = Ok a.

End Async.

Import Async.

Notation "'let*' x ':=' c 'in' k" := (bind c (fun x => k))
  (at level 10, x pattern, c at level 100, k at level 200).
Notation "c ';;' k" := (bind c (fun _ => k))
  (at level 100, k at level 200, right associativity).

(** ** The cache: a key-value store with expiry *)

Module Redis.
Section Store.
Context {V : Type}.

Record Entry : Type := {
  value : V;
  expires_at : option Z   (* absolute time in seconds; [None]: no expiry *)
}.

Definition live (now : Z) (e : Entry) : bool :=
  match expires_at e with
  | None => true
  | Some t => now <? t
  end.

(** What is stored under [k] at time [now]. *)
Definition GET (now : Z) (k : string) (db : gmap string Entry) : option V :=
  match db !! k with
  | Some e => if live now e then Some (value e) else None
  | None => None
  end.

(** The expiry of [k] at time [now], if [k] is present and has one. *)
Definition EXPIRETIME (now : Z) (k : string) (db : gmap string Entry) : option Z :=
  match db !! k with
  | Some e => if live now e then expires_at e else None
  | None => None
  end.

(** [SET k v]: any expiry of [k] is dropped. *)
Definition SET (k : string) (v : V) (db : gmap string Entry) : gmap string Entry :=
  <[k := {| value := v; expires_at := None |}]> db.

(** [SET k v EX ttl] and [SETEX k ttl v]. *)
Definition SETEX (now : Z) (k : string) (ttl : Z) (v : V) (db : gmap string Entry)
  : gmap string Entry :=
  <[k := {| value := v; expires_at := Some (now + ttl) |}]> db.

(** [INCR k]: a missing (or expired) key counts from 0 and gets no expiry,
    a present one keeps its expiry; a value that is not an integer is an
    error. *)
Definition INCR (as_int : V -> option Z) (of_int : Z -> V)
    (now : Z) (k : string) (db : gmap string Entry)
  : option (Z * gmap string Entry) :=
  match db !! k with
  | Some e =>
      if live now e then
        match as_int (value e) with
        | Some n => Some (n + 1, <[k := {| value := of_int (n + 1); expires_at := expires_at e |}]> db)
        | None => None
        end
      else Some (1, <[k := {| value := of_int 1; expires_at := None |}]> db)
  | None => Some (1, <[k := {| value := of_int 1; expires_at := None |}]> db)
  end.

End Store.
Arguments Entry V : clear implicits.
End Redis.

(** ** Rule conditions

    [RuleCondition] is declared with the same shape in the [types.ts] of both
    services. *)

Module Condition.
Import Js.

(** The operator of a condition; [OpOther] is any other string, which the
    [switch] sends to its [default] branch. *)
Inductive Operator : Type :=
| OpEq | OpNeq | OpGt | OpGte | OpLt | OpLte
| OpContains | OpNotContains | OpIn | OpNotIn
| OpOther (name : string).

Record RuleCondition : Type := {
  field : string;
  operator : Operator;
  value : Json      (* read from JSON, so never [undefined] *)
}.

End Condition.

(** ** The Decisioner service *)

Module Decisioner.
Import Js Condition.

(** *** Data model ([apps/decisioner/src/types.ts]) *)

Inductive Decision : Type := Approve | Review | Reject.

Inductive RiskLevel : Type := Low | Medium | High | Critical.

Record Rule : Type := {
  rule_id : string;
  rule_name : string;
  rule_description : option string;
  conditions : list RuleCondition;
  action : Decision;
  priority : Q;
  isEnabled : bool
}.

Record MerchantRules : Type := {
  mr_merchantId : string;
  riskThreshold : Q;
  highRiskThreshold : Q;
  automaticReject : bool;
  manualReviewThreshold : option Q;
  customRules : option (list Rule);
  updatedAt : Z
}.

Record RiskScore : Type := {
  rs_id : string;
  rs_evaluationId : string;
  rs_sessionId : string;
  rs_merchantId : string;
  rs_visitorId : string;
  score : Q;
  isFraud : bool;
  riskFactors : list string;
  rs_timestamp : Z
}.

Record TransactionDecision : Type := {
  td_id : string;
  td_evaluationId : string;
  td_merchantId : string;
  td_transactionId : option string;
  td_userId : option string;
  decision : Decision;
  riskScore : Q;
  riskLevel : RiskLevel;
  reasoning : list string;
  createdAt : Z;
  td_metadata : option Json
}.

Record DecisionPayload : Type := {
  dp_evaluationId : string;
  dp_merchantId : string;
  dp_transactionId : option string;
  dp_userId : option string;
  dp_amount : option Q;
  dp_currency : option string;
  dp_metadata : option Json
}.

Record DecisionResult : Type := {
  dr_decision : Decision;
  dr_decisionId : string;
  dr_evaluationId : string;
  dr_merchantId : string;
  dr_riskScore : Q;
  dr_riskLevel : RiskLevel;
  dr_reasoning : list string;
  dr_timestamp : Z
}.

(** The risk score as the object that the conditions inspect. *)
Definition RiskScore_object (r : RiskScore) : Json :=
  JObj (list_to_map
    [ ("id", JStr (rs_id r));
      ("evaluationId", JStr (rs_evaluationId r));
      ("sessionId", JStr (rs_sessionId r));
      ("merchantId", JStr (rs_merchantId r));
      ("visitorId", JStr (rs_visitorId r));
      ("score", JNum (score r));
      ("isFraud", JBool (isFraud r));
      ("riskFactors", JArr (JStr <$> riskFactors r));
      ("timestamp", JNum (inject_Z (rs_timestamp r))) ]).

(** *** Configuration ([apps/decisioner/src/config.ts]) *)

Record Env : Type := {
  DEFAULT_RISK_THRESHOLD : option Q;
  HIGH_RISK_THRESHOLD : option Q;
  KAFKA_CONSUMER_POLL_INTERVAL : option Z
}.

Record Config : Type := {
  defaultRiskThreshold : Q;
  config_highRiskThreshold : Q;
  consumerPollInterval : Z
}.

(** [parseFloat(process.env.X || '0.7')] and the like. *)
Definition config_of (env : Env) : Config := {|
  defaultRiskThreshold := default 0.7%Q (DEFAULT_RISK_THRESHOLD env);
  config_highRiskThreshold := default 0.9%Q (HIGH_RISK_THRESHOLD env);
  consumerPollInterval := default 100 (KAFKA_CONSUMER_POLL_INTERVAL env)
|}.

Definition empty_env : Env := {|
  DEFAULT_RISK_THRESHOLD := None;
  HIGH_RISK_THRESHOLD := None;
  KAFKA_CONSUMER_POLL_INTERVAL := None
|}.

(** *** The world of the service *)

(** What a cache key holds: the JSON text of a rules record or of a
    decision, or any other text.  Keys [merchant:ID:rules] and [decision:ID]
    are disjoint, and the service writes rules only under the former and
    decisions only under the latter. *)
Inductive Doc : Type :=
| DocRules (r : MerchantRules)
| DocDecision (d : TransactionDecision)
| DocText (s : string).

Inductive Payload : Type :=
| Parsed (r : RiskScore)       (* text that [JSON.parse] reads as a risk score *)
| Malformed (text : string).   (* text on which [JSON.parse] throws *)

Record KafkaMessage : Type := {
  msg_offset : nat;
  msg_value : Payload
}.

(** The consumer handle: the partition it reads, the position of the next
    fetch and the committed offset. *)
Record KafkaConsumer : Type := {
  partition_log : list KafkaMessage;
  position : nat;
  committed : nat
}.

Record World : Type := {
  redis_client : option (gmap string (Redis.Entry Doc));
  producer_connected : bool;
  published : list TransactionDecision;
  clock : Z;
  uuid_seed : nat;
  error_log : list string;
  consumer : option KafkaConsumer;
  isRunning : bool;
  pollInterval : option Z
}.

Definition set_redis (db : gmap string (Redis.Entry Doc)) (w : World) : World :=
  {| redis_client := Some db; producer_connected := producer_connected w;
     published := published w; clock := clock w; uuid_seed := uuid_seed w;
     error_log := error_log w; consumer := consumer w; isRunning := isRunning w;
     pollInterval := pollInterval w |}.

Definition set_published (l : list TransactionDecision) (w : World) : World :=
  {| redis_client := redis_client w; producer_connected := producer_connected w;
     published := l; clock := clock w; uuid_seed := uuid_seed w;
     error_log := error_log w; consumer := consumer w; isRunning := isRunning w;
     pollInterval := pollInterval w |}.

Definition set_uuid_seed (n : nat) (w : World) : World :=
  {| redis_client := redis_client w; producer_connected := producer_connected w;
     published := published w; clock := clock w; uuid_seed := n;
     error_log := error_log w; consumer := consumer w; isRunning := isRunning w;
     pollInterval := pollInterval w |}.

Definition set_error_log (l : list string) (w : World) : World :=
  {| redis_client := redis_client w; producer_connected := producer_connected w;
     published := published w; clock := clock w; uuid_seed := uuid_seed w;
     error_log := l; consumer := consumer w; isRunning := isRunning w;
     pollInterval := pollInterval w |}.

Definition set_consumer (c : option KafkaConsumer) (w : World) : World :=
  {| redis_client := redis_client w; producer_connected := producer_connected w;
     published := published w; clock := clock w; uuid_seed := uuid_seed w;
     error_log := error_log w; consumer := c; isRunning := isRunning w;
     pollInterval := pollInterval w |}.

Definition set_isRunning (b : bool) (w : World) : World :=
  {| redis_client := redis_client w; producer_connected := producer_connected w;
     published := published w; clock := clock w; uuid_seed := uuid_seed w;
     error_log := error_log w; consumer := consumer w; isRunning := b;
     pollInterval := pollInterval w |}.

Definition set_pollInterval (t : option Z) (w : World) : World :=
  {| redis_client := redis_client w; producer_connected := producer_connected w;
     published := published w; clock := clock w; uuid_seed := uuid_seed w;
     error_log := error_log w; consumer := consumer w; isRunning := isRunning w;
     pollInterval := t |}.

(** Time passes: the clock of the world is set by its environment. *)
Definition set_clock (t : Z) (w : World) : World :=
  {| redis_client := redis_client w; producer_connected := producer_connected w;
     published := published w; clock := t; uuid_seed := uuid_seed w;
     error_log := error_log w; consumer := consumer w; isRunning := isRunning w;
     pollInterval := pollInterval w |}.

(** The risk levels and the decisions in increasing order of severity. *)
Definition level_rank (l : RiskLevel) : nat :=
  match l with Low => 0 | Medium => 1 | High => 2 | Critical => 3 end.

Definition severity (d : Decision) : nat :=
  match d with Approve => 0 | Review => 1 | Reject => 2 end.

Definition logger_error (msg : string) : M World unit :=
  modify (fun w => set_error_log (error_log w ++ [msg])%list w).

Definition Date_now : M World Z := gets clock.

(** The clock is in milliseconds, the expiry of cache keys in whole seconds:
    a key set at second [s] with a life of [ttl] seconds is live at every
    instant of a second before [s + ttl].  Redis counts the life from the
    millisecond of the write, so a key that is live here is live there, and
    it expires there at most one second later than here; properties on
    expiry are stated for the instants on which the two agree. *)
Definition seconds (w : World) : Z := clock w / 1000.

(** [uuidv4()]: a fresh identifier at every call. *)
Definition uuidv4 : M World string :=
  fun w => (Ok ("uuid-" +:+ pretty (uuid_seed w)), set_uuid_seed (S (uuid_seed w)) w).

(** *** The cache client ([apps/decisioner/src/services/redisService.ts]) *)

Definition redisService_get (key : string) : M World (option Doc) :=
  fun w =>
    match redis_client w with
    | None => (Throw "Redis client not initialized", w)
    | Some db => (Ok (Redis.GET (seconds w) key db), w)
    end.

Definition redisService_set (key : string) (doc : Doc) (ttlSeconds : option Z)
  : M World unit :=
  fun w =>
    match redis_client w with
    | None => (Throw "Redis client not initialized", w)
    | Some db =>
        match ttlSeconds with
        | Some ttl =>
            if ttl =? 0 then (Ok tt, set_redis (Redis.SET key doc db) w)
            else (Ok tt, set_redis (Redis.SETEX (seconds w) key ttl doc db) w)
        | None => (Ok tt, set_redis (Redis.SET key doc db) w)
        end
    end.

Definition rules_key (merchantId : string) : string :=
  "merchant:" +:+ merchantId +:+ ":rules".

Definition decision_key (decisionId : string) : string :=
  "decision:" +:+ decisionId.

Definition storeMerchantRules (merchantId : string) (rules : MerchantRules)
  : M World unit :=
  redisService_set (rules_key merchantId) (DocRules rules) None.

(** [redisService.getMerchantRules]: [null] when the key is missing or its
    text is empty or does not parse; a text that is not a rules record is
    taken as one that does not parse. *)
Definition redisService_getMerchantRules (merchantId : string)
  : M World (option MerchantRules) :=
  let* rulesJson := redisService_get (rules_key merchantId) in
  match rulesJson with
  | None => ret None
  | Some (DocRules r) => ret (Some r)
  | Some (DocText "") => ret None
  | Some _ =>
      logger_error ("Error parsing merchant rules for " +:+ merchantId +:+ ":") ;;
      ret None
  end.

Definition storeDecision (decisionId : string) (d : TransactionDecision)
  : M World unit :=
  redisService_set (decision_key decisionId) (DocDecision d) (Some 86400).

(** [redisService.getDecision]: [null] when the key is missing or its text
    is empty or does not parse; a text that is not a decision is taken as one
    that does not parse. *)
Definition redisService_getDecision (decisionId : string)
  : M World (option TransactionDecision) :=
  let* decisionJson := redisService_get (decision_key decisionId) in
  match decisionJson with
  | None => ret None
  | Some (DocDecision d) => ret (Some d)
  | Some (DocText "") => ret None
  | Some _ =>
      logger_error ("Error parsing decision for " +:+ decisionId +:+ ":") ;;
      ret None
  end.

(** The handler of [GET /api/decisions/:decisionId]
    ([apps/decisioner/src/routes/decisions.ts]): the stored decision, or a
    404 reply. *)
Inductive Reply : Type :=
| Reply200 (d : TransactionDecision)
| Reply404 (message : string).

Definition getDecisionById (decisionId : string) : M World Reply :=
  let* decision := redisService_getDecision decisionId in
  match decision with
  | None => ret (Reply404 ("Decision with ID " +:+ decisionId +:+ " not found"))
  | Some d => ret (Reply200 d)
  end.

(** *** The producer ([apps/decisioner/src/services/eventProducer.ts]) *)

Definition publishDecision (d : TransactionDecision) : M World unit :=
  fun w =>
    if producer_connected w
    then (Ok tt, set_published (published w ++ [d])%list w)
    else (Throw "Kafka producer not connected", w).

(** *** The decision service
        ([apps/decisioner/src/services/decisionService.ts]) *)

(** [Array.prototype.sort(compare)]: a stable sort; [a] stays before [b]
    unless [compare a b > 0]. *)
Fixpoint sort_insert {A} (compare : A -> A -> Q) (a : A) (l : list A) : list A :=
  match l with
  | [] => [a]
  | b :: rest =>
      if Qle_bool (compare a b) 0 then a :: l
      else b :: sort_insert compare a rest
  end.

Fixpoint Array_sort {A} (compare : A -> A -> Q) (l : list A) : list A :=
  match l with
  | [] => []
  | a :: rest => sort_insert compare a (Array_sort compare rest)
  end.

Definition getRiskLevel (score : Q) : RiskLevel :=
  if Qle_bool 0.9 score then Critical
  else if Qle_bool 0.7 score then High
  else if Qle_bool 0.4 score then Medium
  else Low.

Definition createDecision (riskScore : RiskScore) (decisionId : string)
    (decision : Decision) (reasoning : string + list string)
  : M World TransactionDecision :=
  let reasoningArray :=
    match reasoning with
    | inl one => [one]
    | inr many => many
    end in
  let* now := Date_now in
  ret {| td_id := decisionId;
         td_evaluationId := rs_evaluationId riskScore;
         td_merchantId := rs_merchantId riskScore;
         td_transactionId := None;
         td_userId := None;
         decision := decision;
         riskScore := score riskScore;
         riskLevel := getRiskLevel (score riskScore);
         reasoning := reasoningArray;
         createdAt := now;
         td_metadata := None |}.

Section Service.
Context `{Runtime}.
Variable config : Config.

(** The loop of [getFieldValue] over the parts of the path. *)
Fixpoint getFieldValue_loop (value : Value) (parts : list string) : Value :=
  match parts with
  | [] => value
  | part :: rest =>
      match value with
      | Some v =>
          if is_nullish value || negb (typeof_object value) then None
          else getFieldValue_loop (get_property v part) rest
      | None => None
      end
  end.

Definition getFieldValue (riskScore : Json) (field : string) : Value :=
  getFieldValue_loop (Some riskScore) (split_dot field).

Definition matchesCondition (riskScore : Json) (condition : RuleCondition) : bool :=
  let fieldValue := getFieldValue riskScore (field condition) in
  match operator condition with
  | OpEq => strict_equals fieldValue (Some (value condition))
  | OpNeq => negb (strict_equals fieldValue (Some (value condition)))
  | OpGt =>
      match fieldValue with
      | Some (JNum x) => compare_number Qgt_bool x (value condition)
      | _ => false
      end
  | OpGte =>
      match fieldValue with
      | Some (JNum x) => compare_number Qge_bool x (value condition)
      | _ => false
      end
  | OpLt =>
      match fieldValue with
      | Some (JNum x) => compare_number Qlt_bool x (value condition)
      | _ => false
      end
  | OpLte =>
      match fieldValue with
      | Some (JNum x) => compare_number Qle_bool x (value condition)
      | _ => false
      end
  | OpContains =>
      match fieldValue with
      | Some (JArr xs) => array_includes xs (Some (value condition))
      | Some (JStr s) => string_includes s (ToString (value condition))
      | _ => false
      end
  | OpNotContains =>
      match fieldValue with
      | Some (JArr xs) => negb (array_includes xs (Some (value condition)))
      | Some (JStr s) => negb (string_includes s (ToString (value condition)))
      | _ => true
      end
  | OpIn =>
      match value condition with
      | JArr vs => array_includes vs fieldValue
      | _ => false
      end
  | OpNotIn =>
      match value condition with
      | JArr vs => negb (array_includes vs fieldValue)
      | _ => true
      end
  | OpOther _ => false
  end.

Definition matchesRule (riskScore : Json) (rule : Rule) : bool :=
  forallb (matchesCondition riskScore) (conditions rule).

(** The reason string of an applied rule:
    [`Rule '${rule.name}' applied: ${rule.description || rule.id}`]. *)
Definition rule_reason (rule : Rule) : string :=
  "Rule '" +:+ rule_name rule +:+ "' applied: " +:+
  match rule_description rule with
  | Some "" | None => rule_id rule
  | Some d => d
  end.

Definition applyCustomRules (riskScore : RiskScore) (merchantRules : MerchantRules)
  : option (Decision * string) :=
  match customRules merchantRules with
  | None | Some [] => None
  | Some rules =>
      let sortedRules :=
        Array_sort (fun a b => priority b - priority a)%Q
                   (List.filter isEnabled rules) in
      match List.find (matchesRule (RiskScore_object riskScore)) sortedRules with
      | Some rule => Some (action rule, rule_reason rule)
      | None => None
      end
  end.

Definition getMerchantRules (merchantId : string) : M World MerchantRules :=
  let* merchantRules := redisService_getMerchantRules merchantId in
  match merchantRules with
  | None =>
      let* defaultRules := redisService_getMerchantRules "default" in
      match defaultRules with
      | None =>
          let* now := Date_now in
          ret {| mr_merchantId := merchantId;
                 riskThreshold := defaultRiskThreshold config;
                 highRiskThreshold := config_highRiskThreshold config;
                 automaticReject := true;
                 manualReviewThreshold := None;
                 customRules := None;
                 updatedAt := now |}
      | Some d =>
          ret {| mr_merchantId := merchantId;
                 riskThreshold := riskThreshold d;
                 highRiskThreshold := highRiskThreshold d;
                 automaticReject := automaticReject d;
                 manualReviewThreshold := manualReviewThreshold d;
                 customRules := customRules d;
                 updatedAt := updatedAt d |}
      end
  | Some r => ret r
  end.

(** The threshold branch of [makeDecision]: the decision and the reasoning
    strings it pushes. *)
Definition threshold_decision (riskScore : RiskScore) (merchantRules : MerchantRules)
  : Decision * list string :=
  let '(decision, reasoning) :=
    if Qle_bool (highRiskThreshold merchantRules) (score riskScore) then
      (if automaticReject merchantRules then Reject else Review,
       ["Risk score " +:+ number_to_string (score riskScore) +:+
        " exceeds high risk threshold " +:+
        number_to_string (highRiskThreshold merchantRules)])
    else if Qle_bool (riskThreshold merchantRules) (score riskScore) then
      (Review,
       ["Risk score " +:+ number_to_string (score riskScore) +:+
        " exceeds risk threshold " +:+
        number_to_string (riskThreshold merchantRules)])
    else
      (Approve,
       ["Risk score " +:+ number_to_string (score riskScore) +:+
        " below risk threshold " +:+
        number_to_string (riskThreshold merchantRules)]) in
  match riskFactors riskScore with
  | [] => (decision, reasoning)
  | factors => (decision, (reasoning ++ ["Risk factors: " +:+ join ", " factors])%list)
  end.

(** [makeDecision] once the merchant rules are fetched. *)
Definition decide (riskScore : RiskScore) (merchantRules : MerchantRules)
    (decisionId : string) : M World TransactionDecision :=
  match applyCustomRules riskScore merchantRules with
  | Some (decision, reason) =>
      createDecision riskScore decisionId decision (inl reason)
  | None =>
      let '(decision, reasoning) := threshold_decision riskScore merchantRules in
      createDecision riskScore decisionId decision (inr reasoning)
  end.

(** The decision and the reasoning that [decide] puts in the record: the
    content that does not depend on the decision id or on the clock. *)
Definition decision_content (riskScore : RiskScore) (merchantRules : MerchantRules)
  : Decision * list string :=
  match applyCustomRules riskScore merchantRules with
  | Some (decision, reason) => (decision, [reason])
  | None => threshold_decision riskScore merchantRules
  end.

(** The rules that [getMerchantRules] settles on, from the record of the
    merchant and the record of ['default'] (each if the cache holds one). *)
Definition fallback_rules (merchantId : string) (now : Z)
    (own dflt : option MerchantRules) : MerchantRules :=
  match own with
  | Some r => r
  | None =>
      match dflt with
      | Some d =>
          {| mr_merchantId := merchantId;
             riskThreshold := riskThreshold d;
             highRiskThreshold := highRiskThreshold d;
             automaticReject := automaticReject d;
             manualReviewThreshold := manualReviewThreshold d;
             customRules := customRules d;
             updatedAt := updatedAt d |}
      | None =>
          {| mr_merchantId := merchantId;
             riskThreshold := defaultRiskThreshold config;
             highRiskThreshold := config_highRiskThreshold config;
             automaticReject := true;
             manualReviewThreshold := None;
             customRules := None;
             updatedAt := now |}
      end
  end.

Definition makeDecision (riskScore : RiskScore) (decisionId : string)
  : M World TransactionDecision :=
  let* merchantRules := getMerchantRules (rs_merchantId riskScore) in
  decide riskScore merchantRules decisionId.

Definition processRiskScore (riskScore : RiskScore) : M World unit :=
  try_catch
    (let* decisionId := uuidv4 in
     let* decision := makeDecision riskScore decisionId in
     storeDecision decisionId decision ;;
     publishDecision decision ;;
     ret tt)
    (fun error =>
       logger_error ("Error processing risk score for " +:+
                     rs_evaluationId riskScore +:+ ": " +:+ error)).

Definition setupDefaultMerchantRules : M World unit :=
  let* now := Date_now in
  let defaultRules :=
    {| mr_merchantId := "default";
       riskThreshold := defaultRiskThreshold config;
       highRiskThreshold := config_highRiskThreshold config;
       automaticReject := true;
       manualReviewThreshold := Some 0.8%Q;
       customRules :=
         Some [ {| rule_id := "high-risk-country";
                   rule_name := "High Risk Country";
                   rule_description :=
                     Some "Transactions from high-risk countries require manual review";
                   conditions :=
                     [ {| field := "riskFactors"; operator := OpContains;
                          value := JStr "high_risk_country" |} ];
                   action := Review;
                   priority := 100;
                   isEnabled := true |} ];
       updatedAt := now |} in
  storeMerchantRules "default" defaultRules.

Definition initialize : M World unit :=
  try_catch setupDefaultMerchantRules
    (fun error =>
       logger_error ("Failed to initialize decision service: " +:+ error) ;;
       throw error).

(** The stand-in of the source for the lookup of a stored risk score. *)
Definition getRiskScoreForEvaluation (evaluationId : string)
  : M World (option RiskScore) :=
  let* id := uuidv4 in
  let* now := Date_now in
  ret (Some {| rs_id := id;
               rs_evaluationId := evaluationId;
               rs_sessionId := "session-123";
               rs_merchantId := "merchant-123";
               rs_visitorId := "visitor-123";
               score := 0.65;
               isFraud := false;
               riskFactors := ["multiple_accounts"; "unusual_behavior"];
               rs_timestamp := now |}).

Definition makeDecisionFromRequest (payload : DecisionPayload) : M World DecisionResult :=
  try_catch
    (let* riskScore := getRiskScoreForEvaluation (dp_evaluationId payload) in
     match riskScore with
     | None =>
         throw ("Risk score not found for evaluation ID " +:+ dp_evaluationId payload)
     | Some riskScore =>
         let* decisionId := uuidv4 in
         let* decision := makeDecision riskScore decisionId in
         storeDecision decisionId
           {| td_id := td_id decision;
              td_evaluationId := td_evaluationId decision;
              td_merchantId := td_merchantId decision;
              td_transactionId := dp_transactionId payload;
              td_userId := dp_userId payload;
              decision := Decisioner.decision decision;
              riskScore := Decisioner.riskScore decision;
              riskLevel := riskLevel decision;
              reasoning := reasoning decision;
              createdAt := createdAt decision;
              td_metadata := dp_metadata payload |} ;;
         ret {| dr_decision := Decisioner.decision decision;
                dr_decisionId := decisionId;
                dr_evaluationId := dp_evaluationId payload;
                dr_merchantId := dp_merchantId payload;
                dr_riskScore := Decisioner.riskScore decision;
                dr_riskLevel := riskLevel decision;
                dr_reasoning := reasoning decision;
                dr_timestamp := createdAt decision |}
     end)
    (fun error =>
       logger_error ("Error making decision for evaluation " +:+
                     dp_evaluationId payload +:+ ": " +:+ error) ;;
       throw error).

(** *** The consumer ([apps/decisioner/src/services/eventConsumer.ts]) *)

Definition parseMessage (message : KafkaMessage) : M World (option RiskScore) :=
  match msg_value message with
  | Parsed riskScore =>
      if bool_decide (rs_id riskScore = "")
         || bool_decide (rs_evaluationId riskScore = "")
         || bool_decide (rs_merchantId riskScore = "")
      then ret None        (* logged at level [warn] *)
      else ret (Some riskScore)
  | Malformed _ => logger_error "Error parsing message:" ;; ret None
  end.

Fixpoint processMessages (messages : list KafkaMessage) : M World unit :=
  match messages with
  | [] => ret tt
  | message :: rest =>
      try_catch
        (let* riskScore := parseMessage message in
         match riskScore with
         | None => ret tt                        (* [continue] *)
         | Some riskScore => processRiskScore riskScore
         end)
        (fun error => logger_error ("Error processing message: " +:+ error)) ;;
      processMessages rest
  end.

(** What the broker does with one [consumer.consume(100, callback)]. *)
Inductive BrokerEvent : Type :=
| ConsumeThrows      (* the call itself throws *)
| ConsumeError       (* the callback gets [err] *)
| ConsumeDelivers.   (* the callback gets the next messages, possibly none *)

(** The next (at most [n]) messages of the partition; the position moves
    past them. *)
Definition consume (n : nat) (c : KafkaConsumer) : list KafkaMessage * KafkaConsumer :=
  let messages := take n (drop (position c) (partition_log c)) in
  (messages,
   {| partition_log := partition_log c;
      position := (position c + length messages)%nat;
      committed := committed c |}).

(** [consumer.commit()]: the offsets of everything consumed so far. *)
Definition commit : M World unit :=
  modify (fun w =>
    match consumer w with
    | Some c =>
        set_consumer (Some {| partition_log := partition_log c;
                              position := position c;
                              committed := position c |}) w
    | None => w
    end).

Definition setTimeout_poll (delay : Z) : M World unit :=
  modify (set_pollInterval (Some delay)).

Definition poll (broker : BrokerEvent) : M World unit :=
  fun w =>
    if negb (isRunning w) then (Ok tt, w)
    else
      match consumer w with
      | None => (Ok tt, w)
      | Some c =>
          match broker with
          | ConsumeThrows =>
              (logger_error "Error in poll loop:" ;; setTimeout_poll 5000) w
          | ConsumeError =>
              (logger_error "Error consuming messages:" ;; setTimeout_poll 5000) w
          | ConsumeDelivers =>
              let '(messages, c') := consume 100 c in
              (modify (set_consumer (Some c')) ;;
               match messages with
               | [] => ret tt
               | _ =>
                   try_catch
                     (processMessages messages ;; commit)
                     (fun error => logger_error ("Error processing messages: " +:+ error))
               end ;;
               setTimeout_poll (consumerPollInterval config)) w
          end
      end.

Definition startPolling (broker : BrokerEvent) : M World unit :=
  modify (set_isRunning true) ;; poll broker.

Definition stopPolling : M World unit :=
  modify (fun w => set_pollInterval None (set_isRunning false w)).

(** The loop: every pending timer fires and calls [poll]; without a pending
    timer nothing runs any more. *)
Fixpoint run_loop (brokers : list BrokerEvent) : M World unit :=
  match brokers with
  | [] => ret tt
  | broker :: rest =>
      fun w =>
        match pollInterval w with
        | Some _ => (poll broker ;; run_loop rest) w
        | None => (Ok tt, w)
        end
  end.

End Service.

(** *** What a lookup reads and what a message carries *)

(** The rules record that a live cache entry holds, if it holds one. *)
Definition rules_of (doc : option Doc) : option MerchantRules :=
  match doc with
  | Some (DocRules r) => Some r
  | _ => None
  end.

(** The risk score that [parseMessage] accepts from a message: its payload
    parses and carries an id, an evaluation id and a merchant id. *)
Definition accepted (message : KafkaMessage) : option RiskScore :=
  match msg_value message with
  | Parsed riskScore =>
      if bool_decide (rs_id riskScore = "")
         || bool_decide (rs_evaluationId riskScore = "")
         || bool_decide (rs_merchantId riskScore = "")
      then None
      else Some riskScore
  | Malformed _ => None
  end.

(** The broker events at which messages are handed over. *)
Definition delivers (broker : BrokerEvent) : bool :=
  match broker with
  | ConsumeDelivers => true
  | _ => false
  end.

(** *** What a handler leaves alone

    The consumer handle and the state of the polling. *)
Definition polling (w : World) : option KafkaConsumer * bool * option Z :=
  (consumer w, isRunning w, pollInterval w).

Definition keeps_polling {A} (c : M World A) : Prop :=
  forall w, polling (snd (c w)) = polling w.

(** *** The rule that wins, in the words of the specification

    Among the elements that qualify, the one of highest priority; among
    those of equal priority, the first of the list. *)
Fixpoint winner {A} (prio : A -> Q) (qualifies : A -> bool) (l : list A) : option A :=
  match l with
  | [] => None
  | a :: rest =>
      if qualifies a then
        match winner prio qualifies rest with
        | Some later => if Qlt_bool (prio a) (prio later) then Some later else Some a
        | None => Some a
        end
      else winner prio qualifies rest
  end.

End Decisioner.

(** ** The Evaluator service *)

Module Evaluator.
Import Js Condition.

(** *** Data model ([apps/evaluator/src/types.ts]) *)

Record DeviceData : Type := {
  visitorId : string;
  requestId : string;
  incognito : bool;
  browserName : string;
  deviceType : string;
  os : string;
  confidence : option Q;
  signals : option Json
}.

Record PageData : Type := {
  url : option string;
  referrer : option string
}.

Record GeoData : Type := {
  country : option string;
  city : option string;
  continent : option string;
  latitude : option Q;
  longitude : option Q;
  timezone : option string;
  postalCode : option string;
  isp : option string;
  asn : option string
}.

Record VelocityData : Type := {
  sessionCount24h : option Z;
  ipSessionCount24h : option Z;
  deviceSessionCount24h : option Z;
  lastSeenTimestamp : option Z
}.

Record EnrichedEvent : Type := {
  sessionId : string;
  merchantId : string;
  fingerprintData : DeviceData;
  pageData : option PageData;
  userAction : option string;
  timestamp : Q;
  ipAddress : string;
  anonymizedIp : option string;
  geoData : option GeoData;
  velocityData : option VelocityData;
  ev_riskFactors : option (list string);
  ev_riskScore : option Q;
  ev_isFraud : option bool;
  evaluationId : option string;
  requiresCaptcha : option bool
}.

Record RiskScore : Type := {
  rs_id : string;
  rs_evaluationId : string;
  rs_sessionId : string;
  rs_merchantId : string;
  rs_visitorId : string;
  score : Q;
  isFraud : bool;
  riskFactors : list string;
  rs_timestamp : Z
}.

Record MerchantSettings : Type := {
  riskThreshold : Q;
  enableCaptcha : bool;
  captchaThreshold : Q;
  ipAnonymization : bool;
  webhookUrl : option string;
  notificationEmail : option string
}.

Inductive RuleAction : Type := Flag | Block | Challenge.

Record Rule : Type := {
  rule_id : string;
  rule_merchantId : string;
  rule_name : string;
  rule_description : option string;
  conditions : list RuleCondition;
  action : RuleAction;
  riskScoreAdjustment : Q;
  isActive : bool
}.

Definition DEFAULT_MERCHANT_SETTINGS : MerchantSettings := {|
  riskThreshold := 70;
  enableCaptcha := true;
  captchaThreshold := 80;
  ipAnonymization := false;
  webhookUrl := None;
  notificationEmail := None
|}.

(** *** The event as the object that rule conditions inspect *)

(** An object from its properties; an absent optional property is left out. *)
Definition object_of (props : list (string * option Json)) : Json :=
  JObj (list_to_map (omap (fun p => pair (fst p) <$> snd p) props)).

Definition str (s : string) : option Json := Some (JStr s).
Definition num (q : Q) : option Json := Some (JNum q).
Definition int (n : Z) : option Json := Some (JNum (inject_Z n)).
Definition boolean (b : bool) : option Json := Some (JBool b).

Definition DeviceData_object (d : DeviceData) : Json :=
  object_of
    [ ("visitorId", str (visitorId d));
      ("requestId", str (requestId d));
      ("incognito", boolean (incognito d));
      ("browserName", str (browserName d));
      ("deviceType", str (deviceType d));
      ("os", str (os d));
      ("confidence", JNum <$> confidence d);
      ("signals", signals d) ].

Definition PageData_object (p : PageData) : Json :=
  object_of [ ("url", JStr <$> url p); ("referrer", JStr <$> referrer p) ].

Definition GeoData_object (g : GeoData) : Json :=
  object_of
    [ ("country", JStr <$> country g);
      ("city", JStr <$> city g);
      ("continent", JStr <$> continent g);
      ("latitude", JNum <$> latitude g);
      ("longitude", JNum <$> longitude g);
      ("timezone", JStr <$> timezone g);
      ("postalCode", JStr <$> postalCode g);
      ("isp", JStr <$> isp g);
      ("asn", JStr <$> asn g) ].

Definition VelocityData_object (v : VelocityData) : Json :=
  object_of
    [ ("sessionCount24h", sessionCount24h v ≫= int);
      ("ipSessionCount24h", ipSessionCount24h v ≫= int);
      ("deviceSessionCount24h", deviceSessionCount24h v ≫= int);
      ("lastSeenTimestamp", lastSeenTimestamp v ≫= int) ].

Definition EnrichedEvent_object (e : EnrichedEvent) : Json :=
  object_of
    [ ("sessionId", str (sessionId e));
      ("merchantId", str (merchantId e));
      ("fingerprintData", Some (DeviceData_object (fingerprintData e)));
      ("pageData", PageData_object <$> pageData e);
      ("userAction", JStr <$> userAction e);
      ("timestamp", num (timestamp e));
      ("ipAddress", str (ipAddress e));
      ("anonymizedIp", JStr <$> anonymizedIp e);
      ("geoData", GeoData_object <$> geoData e);
      ("velocityData", VelocityData_object <$> velocityData e);
      ("riskFactors", (fun l => JArr (JStr <$> l)) <$> ev_riskFactors e);
      ("riskScore", JNum <$> ev_riskScore e);
      ("isFraud", JBool <$> ev_isFraud e);
      ("evaluationId", JStr <$> evaluationId e);
      ("requiresCaptcha", JBool <$> requiresCaptcha e) ].

(** *** Configuration ([apps/evaluator/src/config.ts]) *)

Record Config : Type := {
  rawEventsTopic : string;
  riskScoresTopic : string
}.

Definition default_config : Config := {|
  rawEventsTopic := "raw_events";
  riskScoresTopic := "risk_scores"
|}.

(** *** The world of the service *)

(** What a cache key holds: a decimal integer, the JSON text of merchant
    settings or of a rule list, or any other text.  The service writes
    settings only under [merchant:ID:settings], rule lists only under
    [merchant:ID:rules] and integers only under [velocity:...]. *)
Inductive Cached : Type :=
| CInt (n : Z)
| CSettings (s : MerchantSettings)
| CRules (rs : list Rule)
| CText (s : string).

Record World : Type := {
  redisClient : option (gmap string (Redis.Entry Cached));
  geoIpReader : option (string -> option GeoData);
  producer_connected : bool;
  produced : list (string * RiskScore);
  clock : Z;
  uuid_seed : nat;
  error_log : list string
}.

Definition set_redis (db : gmap string (Redis.Entry Cached)) (w : World) : World :=
  {| redisClient := Some db; geoIpReader := geoIpReader w;
     producer_connected := producer_connected w; produced := produced w;
     clock := clock w; uuid_seed := uuid_seed w; error_log := error_log w |}.

Definition set_produced (l : list (string * RiskScore)) (w : World) : World :=
  {| redisClient := redisClient w; geoIpReader := geoIpReader w;
     producer_connected := producer_connected w; produced := l;
     clock := clock w; uuid_seed := uuid_seed w; error_log := error_log w |}.

Definition set_uuid_seed (n : nat) (w : World) : World :=
  {| redisClient := redisClient w; geoIpReader := geoIpReader w;
     producer_connected := producer_connected w; produced := produced w;
     clock := clock w; uuid_seed := n; error_log := error_log w |}.

Definition set_error_log (l : list string) (w : World) : World :=
  {| redisClient := redisClient w; geoIpReader := geoIpReader w;
     producer_connected := producer_connected w; produced := produced w;
     clock := clock w; uuid_seed := uuid_seed w; error_log := l |}.

(** Time passes: the clock of the world is set by its environment. *)
Definition set_clock (t : Z) (w : World) : World :=
  {| redisClient := redisClient w; geoIpReader := geoIpReader w;
     producer_connected := producer_connected w; produced := produced w;
     clock := t; uuid_seed := uuid_seed w; error_log := error_log w |}.

Definition logger_error (msg : string) : M World unit :=
  modify (fun w => set_error_log (error_log w ++ [msg])%list w).

Definition Date_now : M World Z := gets clock.

(** The clock is in milliseconds, the expiry of cache keys in whole seconds:
    a key set at second [s] with a life of [ttl] seconds is live at every
    instant of a second before [s + ttl].  Redis counts the life from the
    millisecond of the write, so a key that is live here is live there, and
    it expires there at most one second later than here; properties on
    expiry are stated for the instants on which the two agree. *)
Definition seconds (w : World) : Z := clock w / 1000.

Definition uuidv4 : M World string :=
  fun w => (Ok ("uuid-" +:+ pretty (uuid_seed w)), set_uuid_seed (S (uuid_seed w)) w).

(** *** The cache client ([apps/evaluator/src/services/redisService.ts]) *)

Definition getRedisClient : M World (gmap string (Redis.Entry Cached)) :=
  fun w =>
    match redisClient w with
    | None => (Throw "Redis client not initialized", w)
    | Some db => (Ok db, w)
    end.

Definition setRedisValue (key : string) (value : Cached) (expireSeconds : option Z)
  : M World unit :=
  let* redis := getRedisClient in
  let* now := gets seconds in
  match expireSeconds with
  | Some ttl =>
      if ttl =? 0 then modify (set_redis (Redis.SET key value redis))
      else modify (set_redis (Redis.SETEX now key ttl value redis))
  | None => modify (set_redis (Redis.SET key value redis))
  end.

Definition getRedisValue (key : string) : M World (option Cached) :=
  let* redis := getRedisClient in
  let* now := gets seconds in
  ret (Redis.GET now key redis).

(** [getRedisJson<T>]: [decode] reads the stored text as a [T]; [null] when
    the key is missing or its text is empty or is not a [T]. *)
Definition getRedisJson {T} (decode : Cached -> option T) (key : string)
  : M World (option T) :=
  let* redis := getRedisClient in
  let* now := gets seconds in
  match Redis.GET now key redis with
  | None | Some (CText "") => ret None
  | Some doc =>
      match decode doc with
      | Some t => ret (Some t)
      | None => logger_error "Error parsing Redis JSON value:" ;; ret None
      end
  end.

Definition as_settings (doc : Cached) : option MerchantSettings :=
  match doc with CSettings s => Some s | _ => None end.

Definition as_rules (doc : Cached) : option (list Rule) :=
  match doc with CRules rs => Some rs | _ => None end.

Definition as_int (doc : Cached) : option Z :=
  match doc with CInt n => Some n | _ => None end.

Definition incrRedisValue (key : string) : M World Z :=
  let* redis := getRedisClient in
  let* now := gets seconds in
  match Redis.INCR as_int CInt now key redis with
  | Some (n, redis') => modify (set_redis redis') ;; ret n
  | None => throw "ERR value is not an integer or out of range"
  end.

(** *** Geo lookup ([apps/evaluator/src/services/geoIpService.ts]) *)

Definition no_geo : GeoData := {|
  country := None; city := None; continent := None; latitude := None;
  longitude := None; timezone := None; postalCode := None; isp := None;
  asn := None
|}.

Definition lookupIp (ipAddress : string) : M World GeoData :=
  fun w =>
    match geoIpReader w with
    | None => (Ok no_geo, w)
    | Some reader =>
        match reader ipAddress with
        | Some result => (Ok result, w)
        | None => (Ok no_geo, w)
        end
    end.

Definition anonymizeIp (ipAddress : string) : string :=
  if string_includes ipAddress ":" then
    join ":" (take 3 (split ":"%char ipAddress)
              ++ ["0000"; "0000"; "0000"; "0000"; "0000"])%list
  else
    join "." (take 3 (split "."%char ipAddress) ++ ["0"])%list.

(** *** The producer ([apps/evaluator/src/services/eventProducer.ts]) *)

Definition produceEvent (topic : string) (event : RiskScore) : M World unit :=
  fun w =>
    if producer_connected w
    then (Ok tt, set_produced (produced w ++ [(topic, event)])%list w)
    else (Throw "Kafka producer not connected", w).

(** *** The evaluation service
        ([apps/evaluator/src/services/evaluationService.ts]) *)

Section Service.
Context `{Runtime}.
Variable config : Config.

Definition settings_key (merchantId : string) : string :=
  "merchant:" +:+ merchantId +:+ ":settings".

Definition rules_key (merchantId : string) : string :=
  "merchant:" +:+ merchantId +:+ ":rules".

Definition getMerchantSettings (merchantId : string) : M World MerchantSettings :=
  try_catch
    (let cacheKey := settings_key merchantId in
     let* cachedSettings := getRedisJson as_settings cacheKey in
     match cachedSettings with
     | Some settings => ret settings
     | None =>
         let settings := DEFAULT_MERCHANT_SETTINGS in
         setRedisValue cacheKey (CSettings settings) (Some 300) ;;
         ret settings
     end)
    (fun error =>
       logger_error ("Error getting merchant settings: " +:+ error) ;;
       ret DEFAULT_MERCHANT_SETTINGS).

Definition sample_rules (merchantId : string) : list Rule :=
  [ {| rule_id := "1";
       rule_merchantId := merchantId;
       rule_name := "High Risk Country";
       rule_description := Some "Flag transactions from high-risk countries";
       conditions :=
         [ {| field := "geoData.country"; operator := OpIn;
              value := JArr [JStr "RU"; JStr "NG"; JStr "BR"; JStr "VN"] |} ];
       action := Flag;
       riskScoreAdjustment := 30;
       isActive := true |};
    {| rule_id := "2";
       rule_merchantId := merchantId;
       rule_name := "Suspicious Device";
       rule_description :=
         Some "Block transactions from devices with suspicious characteristics";
       conditions :=
         [ {| field := "fingerprintData.incognito"; operator := OpEq;
              value := JBool true |} ];
       action := Block;
       riskScoreAdjustment := 50;
       isActive := true |} ].

Definition getMerchantRules (merchantId : string) : M World (list Rule) :=
  try_catch
    (let cacheKey := rules_key merchantId in
     let* cachedRules := getRedisJson as_rules cacheKey in
     match cachedRules with
     | Some rules => ret rules
     | None =>
         let rules := sample_rules merchantId in
         setRedisValue cacheKey (CRules rules) (Some 300) ;;
         ret rules
     end)
    (fun error =>
       logger_error ("Error getting merchant rules: " +:+ error) ;;
       ret []).

(** The loop of [getNestedValue] over the keys of the path. *)
Fixpoint getNestedValue_loop (value : Value) (keys : list string) : Value :=
  match keys with
  | [] => value
  | key :: rest =>
      match value with
      | None | Some JNull => None
      | Some v => getNestedValue_loop (get_property v key) rest
      end
  end.

Definition getNestedValue (obj : Json) (path : string) : Value :=
  getNestedValue_loop (Some obj) (split_dot path).

(** The callback that [evaluateRule] passes to [every]. *)
Definition evaluateCondition (event : Json) (condition : RuleCondition) : bool :=
  let fieldValue := getNestedValue event (field condition) in
  match operator condition with
  | OpEq => strict_equals fieldValue (Some (value condition))
  | OpNeq => negb (strict_equals fieldValue (Some (value condition)))
  | OpGt =>
      match fieldValue with
      | Some (JNum x) => compare_number Qgt_bool x (value condition)
      | _ => false
      end
  | OpGte =>
      match fieldValue with
      | Some (JNum x) => compare_number Qge_bool x (value condition)
      | _ => false
      end
  | OpLt =>
      match fieldValue with
      | Some (JNum x) => compare_number Qlt_bool x (value condition)
      | _ => false
      end
  | OpLte =>
      match fieldValue with
      | Some (JNum x) => compare_number Qle_bool x (value condition)
      | _ => false
      end
  | OpContains =>
      match fieldValue with
      | Some (JStr s) => string_includes s (ToString (value condition))
      | _ => false
      end
  | OpNotContains =>
      match fieldValue with
      | Some (JStr s) => negb (string_includes s (ToString (value condition)))
      | _ => false
      end
  | OpIn =>
      match value condition with
      | JArr vs => array_includes vs fieldValue
      | _ => false
      end
  | OpNotIn =>
      match value condition with
      | JArr vs => negb (array_includes vs fieldValue)
      | _ => false
      end
  | OpOther _ => false
  end.

(** Nothing in the callback throws on JSON data, so the [catch] of
    [evaluateRule] has nothing to catch. *)
Definition evaluateRule (rule : Rule) (event : EnrichedEvent) : bool :=
  forallb (evaluateCondition (EnrichedEvent_object event)) (conditions rule).

Definition empty_velocity : VelocityData := {|
  sessionCount24h := None; ipSessionCount24h := None;
  deviceSessionCount24h := None; lastSeenTimestamp := None
|}.

Definition merchantSessionKey (merchantId : string) : string :=
  "velocity:merchant:" +:+ merchantId +:+ ":sessions".

Definition ipSessionKey (ipAddress : string) : string :=
  "velocity:ip:" +:+ ipAddress +:+ ":sessions".

Definition deviceKey (visitorId : string) : string :=
  "velocity:device:" +:+ visitorId +:+ ":sessions".

Definition lastSeenKey (visitorId : string) : string :=
  "velocity:device:" +:+ visitorId +:+ ":lastSeen".

Definition getVelocityData (event : EnrichedEvent) : M World VelocityData :=
  try_catch
    (let ttl := 24 * 60 * 60 in
     (* Session count for merchant *)
     let merchantSessionKey := merchantSessionKey (merchantId event) in
     let* sessionCount24h := incrRedisValue merchantSessionKey in
     (if sessionCount24h =? 1
      then setRedisValue merchantSessionKey (CInt 1) (Some ttl)
      else ret tt) ;;
     (* IP session count *)
     let ipSessionKey := ipSessionKey (ipAddress event) in
     let* ipSessionCount24h := incrRedisValue ipSessionKey in
     (if ipSessionCount24h =? 1
      then setRedisValue ipSessionKey (CInt 1) (Some ttl)
      else ret tt) ;;
     (* Device fingerprint session count *)
     let deviceKey := deviceKey (visitorId (fingerprintData event)) in
     let* deviceSessionCount24h := incrRedisValue deviceKey in
     (if deviceSessionCount24h =? 1
      then setRedisValue deviceKey (CInt 1) (Some ttl)
      else ret tt) ;;
     (* Last seen timestamp for device; a text that is not a number reads
        as NaN, which is not kept apart from [undefined] here *)
     let lastSeenKey := lastSeenKey (visitorId (fingerprintData event)) in
     let* lastSeenStr := getRedisValue lastSeenKey in
     let lastSeenTimestamp := lastSeenStr ≫= as_int in
     let* now := Date_now in
     setRedisValue lastSeenKey (CInt now) (Some ttl) ;;
     ret {| sessionCount24h := Some sessionCount24h;
            ipSessionCount24h := Some ipSessionCount24h;
            deviceSessionCount24h := Some deviceSessionCount24h;
            lastSeenTimestamp := lastSeenTimestamp |})
    (fun error =>
       logger_error ("Error calculating velocity data: " +:+ error) ;;
       ret empty_velocity).

Definition with_anonymizedIp (ip : string) (e : EnrichedEvent) : EnrichedEvent :=
  {| sessionId := sessionId e; merchantId := merchantId e;
     fingerprintData := fingerprintData e; pageData := pageData e;
     userAction := userAction e; timestamp := timestamp e;
     ipAddress := ipAddress e; anonymizedIp := Some ip;
     geoData := geoData e; velocityData := velocityData e;
     ev_riskFactors := ev_riskFactors e; ev_riskScore := ev_riskScore e;
     ev_isFraud := ev_isFraud e; evaluationId := evaluationId e;
     requiresCaptcha := requiresCaptcha e |}.

Definition with_geoData (g : GeoData) (e : EnrichedEvent) : EnrichedEvent :=
  {| sessionId := sessionId e; merchantId := merchantId e;
     fingerprintData := fingerprintData e; pageData := pageData e;
     userAction := userAction e; timestamp := timestamp e;
     ipAddress := ipAddress e; anonymizedIp := anonymizedIp e;
     geoData := Some g; velocityData := velocityData e;
     ev_riskFactors := ev_riskFactors e; ev_riskScore := ev_riskScore e;
     ev_isFraud := ev_isFraud e; evaluationId := evaluationId e;
     requiresCaptcha := requiresCaptcha e |}.

Definition with_velocityData (v : VelocityData) (e : EnrichedEvent) : EnrichedEvent :=
  {| sessionId := sessionId e; merchantId := merchantId e;
     fingerprintData := fingerprintData e; pageData := pageData e;
     userAction := userAction e; timestamp := timestamp e;
     ipAddress := ipAddress e; anonymizedIp := anonymizedIp e;
     geoData := geoData e; velocityData := Some v;
     ev_riskFactors := ev_riskFactors e; ev_riskScore := ev_riskScore e;
     ev_isFraud := ev_isFraud e; evaluationId := evaluationId e;
     requiresCaptcha := requiresCaptcha e |}.

(** [enrichData] updates the event it is given; every call of its body has
    its own [catch], so the outer handler is never entered. *)
Definition enrichData (event : EnrichedEvent) : M World EnrichedEvent :=
  try_catch
    (let* merchantSettings := getMerchantSettings (merchantId event) in
     let event :=
       if ipAnonymization merchantSettings
       then with_anonymizedIp (anonymizeIp (ipAddress event)) event
       else event in
     let* geo := lookupIp (ipAddress event) in
     let event := with_geoData geo event in
     let* velocity := getVelocityData event in
     ret (with_velocityData velocity event))
    (fun error =>
       logger_error ("Error enriching event data: " +:+ error) ;;
       ret event).

Definition Math_max (a b : Q) : Q := if Qle_bool a b then b else a.

Definition Math_min (a b : Q) : Q := if Qle_bool a b then a else b.

Definition highRiskCountries : list string := ["RU"; "NG"; "BR"; "VN"].

(** The running [score] and [riskFactors] of [calculateRiskScore]. *)
Definition Tally : Type := Q * list string.

(** [score += points; riskFactors.push(factor)].  The sum is the exact one;
    [+=] on doubles gives it on integers of magnitude at most 2^53, which is
    where the properties of the sum are stated ([safe_adjustments]). *)
Definition add (points : Q) (factor : string) (t : Tally) : Tally :=
  ((fst t + points)%Q, (snd t ++ [factor])%list).

(** Steps 1 to 5 of [calculateRiskScore], before the score is clamped. *)
Definition tally (event : EnrichedEvent) (rules : list Rule) : Tally :=
  let t : Tally := (0%Q, []) in
  (* 1. Device fingerprint confidence *)
  let t :=
    match confidence (fingerprintData event) with
    | Some c =>
        if Qlt_bool c 0.3 then add 30 "low_device_confidence" t
        else if Qlt_bool c 0.7 then add 10 "medium_device_confidence" t
        else t
    | None => t
    end in
  (* 2. Incognito mode *)
  let t :=
    if incognito (fingerprintData event) then add 15 "incognito_mode" t else t in
  (* 3. Location risk assessment *)
  let t :=
    match geoData event ≫= country with
    | Some "" | None => t
    | Some c =>
        if bool_decide (c ∈ highRiskCountries) then add 20 "high_risk_country" t
        else t
    end in
  (* 4. Velocity checks *)
  let t :=
    match velocityData event with
    | Some v =>
        let t :=
          match sessionCount24h v with
          | Some n =>
              if negb (n =? 0) && (10 <? n) then add 25 "high_session_velocity" t
              else t
          | None => t
          end in
        match ipSessionCount24h v with
        | Some n =>
            if negb (n =? 0) && (20 <? n) then add 30 "high_ip_velocity" t
            else t
        | None => t
        end
    | None => t
    end in
  (* 5. Apply merchant rules *)
  fold_left
    (fun t rule =>
       if isActive rule && evaluateRule rule event
       then add (riskScoreAdjustment rule) ("rule_" +:+ rule_id rule) t
       else t)
    rules t.

(** [event.evaluationId || uuidv4()]. *)
Definition evaluationId_or_fresh (event : EnrichedEvent) : M World string :=
  match evaluationId event with
  | Some "" | None => uuidv4
  | Some e => ret e
  end.

(** The [try] block of [calculateRiskScore]. *)
Definition calculateRiskScore_try (event : EnrichedEvent) : M World RiskScore :=
  let* merchantSettings := getMerchantSettings (merchantId event) in
  let* rules := getMerchantRules (merchantId event) in
  let '(score, riskFactors) := tally event rules in
  let score := Math_max 0 (Math_min 100 score) in
  let isFraud := Qle_bool (riskThreshold merchantSettings) score in
  let* id := uuidv4 in
  let* evaluationId := evaluationId_or_fresh event in
  let* now := Date_now in
  let riskScore :=
    {| rs_id := id;
       rs_evaluationId := evaluationId;
       rs_sessionId := sessionId event;
       rs_merchantId := merchantId event;
       rs_visitorId := visitorId (fingerprintData event);
       score := score;
       isFraud := isFraud;
       riskFactors := riskFactors;
       rs_timestamp := now |} in
  produceEvent (riskScoresTopic config) riskScore ;;
  ret riskScore.

(** The [catch] block of [calculateRiskScore]. *)
Definition calculateRiskScore_catch (event : EnrichedEvent) (error : string)
  : M World RiskScore :=
  logger_error ("Error calculating risk score: " +:+ error) ;;
  let* id := uuidv4 in
  let* evaluationId := evaluationId_or_fresh event in
  let* now := Date_now in
  ret {| rs_id := id;
         rs_evaluationId := evaluationId;
         rs_sessionId := sessionId event;
         rs_merchantId := merchantId event;
         rs_visitorId := visitorId (fingerprintData event);
         score := 0;
         isFraud := false;
         riskFactors := ["calculation_error"];
         rs_timestamp := now |}.

Definition calculateRiskScore (event : EnrichedEvent) : M World RiskScore :=
  try_catch (calculateRiskScore_try event) (calculateRiskScore_catch event).

(** *** The additive model, as the specification words it *)

(** One signal: its points and its risk-factor tag when it applies. *)
Definition contribution (applies : bool) (points : Q) (factor : string)
  : list (Q * string) :=
  if applies then [(points, factor)] else [].

Definition confidence_in (event : EnrichedEvent) (lo hi : option Q) : bool :=
  match confidence (fingerprintData event) with
  | Some c =>
      match lo with Some l => Qle_bool l c | None => true end
      && match hi with Some h => Qlt_bool c h | None => true end
  | None => false
  end.

Definition country_is_high_risk (event : EnrichedEvent) : bool :=
  match geoData event ≫= country with
  | Some c => bool_decide (c ∈ highRiskCountries)
  | None => false
  end.

Definition session_velocity_above (event : EnrichedEvent) (n : Z) : bool :=
  match velocityData event ≫= sessionCount24h with
  | Some k => n <? k
  | None => false
  end.

Definition ip_velocity_above (event : EnrichedEvent) (n : Z) : bool :=
  match velocityData event ≫= ipSessionCount24h with
  | Some k => n <? k
  | None => false
  end.

Definition contributions (event : EnrichedEvent) (rules : list Rule)
  : list (Q * string) :=
  (contribution (confidence_in event None (Some 0.3%Q)) 30 "low_device_confidence"
   ++ contribution (confidence_in event (Some 0.3%Q) (Some 0.7%Q)) 10
        "medium_device_confidence"
   ++ contribution (incognito (fingerprintData event)) 15 "incognito_mode"
   ++ contribution (country_is_high_risk event) 20 "high_risk_country"
   ++ contribution (session_velocity_above event 10) 25 "high_session_velocity"
   ++ contribution (ip_velocity_above event 20) 30 "high_ip_velocity"
   ++ flat_map
        (fun rule =>
           contribution (isActive rule && evaluateRule rule event)
             (riskScoreAdjustment rule) ("rule_" +:+ rule_id rule))
        rules)%list.

Definition total (l : list (Q * string)) : Q :=
  fold_right (fun c acc => (fst c + acc)%Q) 0%Q l.

End Service.

(** *** Where the sums are exact

    [score += points] adds IEEE doubles, the tally adds exact numbers.  The
    two agree when every operand and every partial sum is an integer of
    magnitude at most 2^53.  The built-in points are integers, 130 in all;
    the adjustments of the rules are integers by the schema of the rules
    table ([risk_score_adjustment integer]). *)
Definition integer (q : Q) : Prop := exists n : Z, (q == inject_Z n)%Q.

Definition safe_adjustments (rules : list Rule) : Prop :=
  Forall (fun rule => integer (riskScoreAdjustment rule)) rules
  /\ (130 + fold_right (fun rule acc => Qabs (riskScoreAdjustment rule) + acc) 0 rules
      <= inject_Z (2 ^ 53))%Q.

(** *** Counters and frames *)

(** The count that a counter key holds at time [now]: 0 when the key is
    missing or expired. *)
Definition count (now : Z) (key : string) (db : gmap string (Redis.Entry Cached)) : Z :=
  match Redis.GET now key db with
  | Some (CInt n) => n
  | _ => 0
  end.

(** The key is missing, expired, or holds an integer. *)
Definition is_counter (now : Z) (key : string) (db : gmap string (Redis.Entry Cached))
  : bool :=
  match Redis.GET now key db with
  | Some (CInt _) | None => true
  | Some _ => false
  end.

(** The store after [INCR key] followed, when the new count is 1, by
    [SETEX key 86400 1]: what [getVelocityData] does to one counter. *)
Definition after_increment (now : Z) (key : string)
    (db : gmap string (Redis.Entry Cached)) : gmap string (Redis.Entry Cached) :=
  match Redis.INCR as_int CInt now key db with
  | Some (n, db') =>
      if n =? 1 then Redis.SETEX now key (24 * 60 * 60) (CInt 1) db' else db'
  | None => db
  end.

(** A method leaves the producer connection and the clock alone. *)
Definition keeps_producer {A} (c : M World A) : Prop :=
  forall w, producer_connected (snd (c w)) = producer_connected w
            /\ clock (snd (c w)) = clock w.

End Evaluator.

(** ** The topic between the two services *)

Module Pipeline.

(** A risk score as the Decisioner finds it on the topic [risk_scores]: the
    producer of the Evaluator writes [JSON.stringify(riskScore)], the
    consumer of the Decisioner reads it back with [JSON.parse]; the two
    services declare the same fields for it. *)
Definition risk_score_message (offset : nat) (r : Evaluator.RiskScore)
  : Decisioner.KafkaMessage :=
  {| Decisioner.msg_offset := offset;
     Decisioner.msg_value :=
       Decisioner.Parsed
         {| Decisioner.rs_id := Evaluator.rs_id r;
            Decisioner.rs_evaluationId := Evaluator.rs_evaluationId r;
            Decisioner.rs_sessionId := Evaluator.rs_sessionId r;
            Decisioner.rs_merchantId := Evaluator.rs_merchantId r;
            Decisioner.rs_visitorId := Evaluator.rs_visitorId r;
            Decisioner.score := Evaluator.score r;
            Decisioner.isFraud := Evaluator.isFraud r;
            Decisioner.riskFactors := Evaluator.riskFactors r;
            Decisioner.rs_timestamp := Evaluator.rs_timestamp r |} |}.

End Pipeline.

(** ** Sample inputs *)

Module Samples.
Import Js Condition.

(** A runtime for the examples: integers print in decimal, other numbers as
    a fraction; no string reads as a number. *)
Definition sample_runtime : Runtime := {|
  number_to_string q :=
    if bool_decide (Qden q = 1%positive) then pretty (Qnum q)
    else pretty (Qnum q) +:+ "/" +:+ pretty (Zpos (Qden q));
  string_to_number _ := None
|}.

Definition risk_score (s : Q) (factors : list string) : Decisioner.RiskScore := {|
  Decisioner.rs_id := "risk-123";
  Decisioner.rs_evaluationId := "eval-123";
  Decisioner.rs_sessionId := "session-123";
  Decisioner.rs_merchantId := "merchant-123";
  Decisioner.rs_visitorId := "visitor-123";
  Decisioner.score := s;
  Decisioner.isFraud := false;
  Decisioner.riskFactors := factors;
  Decisioner.rs_timestamp := 1700000000000
|}.

(** A Decisioner with an empty cache and a connected producer. *)
Definition decisioner_world : Decisioner.World := {|
  Decisioner.redis_client := Some ∅;
  Decisioner.producer_connected := true;
  Decisioner.published := [];
  Decisioner.clock := 1700000000000;
  Decisioner.uuid_seed := 0;
  Decisioner.error_log := [];
  Decisioner.consumer := None;
  Decisioner.isRunning := false;
  Decisioner.pollInterval := None
|}.

Definition default_decisioner_config : Decisioner.Config :=
  Decisioner.config_of Decisioner.empty_env.

Definition merchant_rules (risk high : Q) (reject : bool)
    (rules : option (list Decisioner.Rule)) : Decisioner.MerchantRules := {|
  Decisioner.mr_merchantId := "merchant-123";
  Decisioner.riskThreshold := risk;
  Decisioner.highRiskThreshold := high;
  Decisioner.automaticReject := reject;
  Decisioner.manualReviewThreshold := None;
  Decisioner.customRules := rules;
  Decisioner.updatedAt := 0
|}.

Definition rule_on_factor (id : string) (factor : string) (act : Decisioner.Decision)
    (prio : Q) (enabled : bool) : Decisioner.Rule := {|
  Decisioner.rule_id := id;
  Decisioner.rule_name := id;
  Decisioner.rule_description := None;
  Decisioner.conditions :=
    [ {| field := "riskFactors"; operator := OpContains; value := JStr factor |} ];
  Decisioner.action := act;
  Decisioner.priority := prio;
  Decisioner.isEnabled := enabled
|}.

(** A running consumer at the start of a partition that holds one
    well-formed risk score, in a service whose cache client is not
    initialised. *)
Definition consumer_world_without_cache : Decisioner.World := {|
  Decisioner.redis_client := None;
  Decisioner.producer_connected := true;
  Decisioner.published := [];
  Decisioner.clock := 1700000000000;
  Decisioner.uuid_seed := 0;
  Decisioner.error_log := [];
  Decisioner.consumer :=
    Some {| Decisioner.partition_log :=
              [ {| Decisioner.msg_offset := 0;
                   Decisioner.msg_value :=
                     Decisioner.Parsed (risk_score 0.95 ["unusual_behavior"]) |} ];
            Decisioner.position := 0;
            Decisioner.committed := 0 |};
  Decisioner.isRunning := true;
  Decisioner.pollInterval := Some 100
|}.

Definition device (visitor : string) (conf : option Q) (private : bool)
  : Evaluator.DeviceData := {|
  Evaluator.visitorId := visitor;
  Evaluator.requestId := "request-1";
  Evaluator.incognito := private;
  Evaluator.browserName := "Firefox";
  Evaluator.deviceType := "desktop";
  Evaluator.os := "Linux";
  Evaluator.confidence := conf;
  Evaluator.signals := None
|}.

Definition geo (c : string) : Evaluator.GeoData := {|
  Evaluator.country := Some c; Evaluator.city := None;
  Evaluator.continent := None; Evaluator.latitude := None;
  Evaluator.longitude := None; Evaluator.timezone := None;
  Evaluator.postalCode := None; Evaluator.isp := None; Evaluator.asn := None
|}.

Definition event (merchant session ip : string) (d : Evaluator.DeviceData)
    (g : option Evaluator.GeoData) (v : option Evaluator.VelocityData)
  : Evaluator.EnrichedEvent := {|
  Evaluator.sessionId := session;
  Evaluator.merchantId := merchant;
  Evaluator.fingerprintData := d;
  Evaluator.pageData := None;
  Evaluator.userAction := None;
  Evaluator.timestamp := 1700000000000;
  Evaluator.ipAddress := ip;
  Evaluator.anonymizedIp := None;
  Evaluator.geoData := g;
  Evaluator.velocityData := v;
  Evaluator.ev_riskFactors := None;
  Evaluator.ev_riskScore := None;
  Evaluator.ev_isFraud := None;
  Evaluator.evaluationId := None;
  Evaluator.requiresCaptcha := None
|}.

(** An Evaluator with an empty cache, no geo database and a producer that
    is connected or not. *)
Definition evaluator_world (connected : bool) : Evaluator.World := {|
  Evaluator.redisClient := Some ∅;
  Evaluator.geoIpReader := None;
  Evaluator.producer_connected := connected;
  Evaluator.produced := [];
  Evaluator.clock := 1700000000000;
  Evaluator.uuid_seed := 0;
  Evaluator.error_log := []
|}.

End Samples.

(** * Properties *)

(** ** The Decisioner *)

Module DecisionerProperties.
Import Js Condition Decisioner.

Local Open Scope Q_scope.

Lemma Qle_bool_true (x y : Q) : Qle_bool x y = true <-> x <= y.
Proof. apply Qle_bool_iff. Qed.

Lemma Qle_bool_false (x y : Q) : Qle_bool x y = false <-> y < x.
Proof.
  split; intros Hxy.
  - apply Qnot_le_lt. intros Hle. apply Qle_bool_iff in Hle. congruence.
  - destruct (Qle_bool x y) eqn:E; [|reflexivity].
    apply Qle_bool_iff in E. lra.
Qed.

Ltac Qcases :=
  repeat match goal with
  | |- context [Qle_bool ?x ?y] =>
      let E := fresh "E" in
      destruct (Qle_bool x y) eqn:E;
      [apply Qle_bool_true in E | apply Qle_bool_false in E]
  | H : context [Qle_bool ?x ?y] |- _ =>
      let E := fresh "E" in
      destruct (Qle_bool x y) eqn:E;
      [apply Qle_bool_true in E | apply Qle_bool_false in E]
  end.

Lemma getRiskLevel_critical s : getRiskLevel s = Critical <-> 0.9 <= s.
Proof. unfold getRiskLevel. Qcases; split; intros; try discriminate; try reflexivity; lra. Qed.

Lemma getRiskLevel_high s : getRiskLevel s = High <-> 0.7 <= s /\ s < 0.9.
Proof. unfold getRiskLevel. Qcases; split; intros; try discriminate; try reflexivity; lra. Qed.

Lemma getRiskLevel_medium s : getRiskLevel s = Medium <-> 0.4 <= s /\ s < 0.7.
Proof. unfold getRiskLevel. Qcases; split; intros; try discriminate; try reflexivity; lra. Qed.

Lemma getRiskLevel_low s : getRiskLevel s = Low <-> s < 0.4.
Proof. unfold getRiskLevel. Qcases; split; intros; try discriminate; try reflexivity; lra. Qed.

(** *** Risk levels *)

(** C1 (as amended).  Every decision that [createDecision] builds, and so
    every decision that [makeDecision] returns, carries the score of the risk
    score it was built from, and its [riskLevel] follows that score by the
    bands of [getRiskLevel], which read the score on a scale from 0 to 1:
    critical iff the score is at least 0.9, high iff it is in [0.7, 0.9),
    medium iff it is in [0.4, 0.7), low iff it is below 0.4.  At the
    boundaries: 0.89 is high, 0.9 critical, 0.39 low, 0.4 medium, 0.69 medium
    and 0.7 high. *)
Theorem createDecision_riskLevel_bands `{Runtime}
    (config : Config) (rs : RiskScore) (decisionId : string) (d : Decision)
    (reasoning : string + list string) (w : World) :
  (exists td,
      createDecision rs decisionId d reasoning w = (Ok td, w)
      /\ riskScore td = score rs
      /\ (riskLevel td = Critical <-> 0.9 <= riskScore td)
      /\ (riskLevel td = High <-> 0.7 <= riskScore td /\ riskScore td < 0.9)
      /\ (riskLevel td = Medium <-> 0.4 <= riskScore td /\ riskScore td < 0.7)
      /\ (riskLevel td = Low <-> riskScore td < 0.4))
  /\ (forall td w',
        makeDecision config rs decisionId w = (Ok td, w') ->
        riskScore td = score rs /\ riskLevel td = getRiskLevel (riskScore td))
  /\ getRiskLevel 0.89 = High /\ getRiskLevel 0.9 = Critical
  /\ getRiskLevel 0.39 = Low /\ getRiskLevel 0.4 = Medium
  /\ getRiskLevel 0.69 = Medium /\ getRiskLevel 0.7 = High.
Proof.
  split.
  { eexists. split; [reflexivity|]. cbn [riskScore riskLevel].
    split; [reflexivity|].
    split; [apply getRiskLevel_critical|].
    split; [apply getRiskLevel_high|].
    split; [apply getRiskLevel_medium|].
    apply getRiskLevel_low. }
  split; [|repeat split; reflexivity].
  intros td w'. unfold makeDecision, bind.
  destruct (getMerchantRules config (rs_merchantId rs) w) as [[rules|e] w1];
    [|discriminate].
  unfold decide.
  destruct (applyCustomRules rs rules) as [[d' reason]|];
    [|destruct (threshold_decision rs rules) as [d' reasons]];
    cbn; intros [= <- _]; split; reflexivity.
Qed.

(** C1, as stated, fails: an integer score of 89 on the scale from 0 to 100
    makes a decision whose level is critical, not high (and 39, 40, 69 and 70
    are critical as well). *)
Lemma score_89_is_critical_not_high :
  exists td,
    createDecision (Samples.risk_score 89 []) "decision-1" Review (inr [])
                   Samples.decisioner_world
    = (Ok td, Samples.decisioner_world)
    /\ riskScore td = 89
    /\ riskLevel td = Critical
    /\ riskLevel td <> High
    /\ getRiskLevel 39 = Critical /\ getRiskLevel 40 = Critical
    /\ getRiskLevel 69 = Critical /\ getRiskLevel 70 = Critical.
Proof.
  eexists. split; [reflexivity|]. cbn.
  repeat split; try reflexivity. discriminate.
Qed.

(** *** The merchant rules and their fallbacks *)

Lemma redisService_getMerchantRules_missing merchantId w db :
  redis_client w = Some db ->
  Redis.GET (seconds w) (rules_key merchantId) db = None ->
  redisService_getMerchantRules merchantId w = (Ok None, w).
Proof.
  intros Hdb Hget.
  unfold redisService_getMerchantRules, bind, redisService_get.
  rewrite Hdb, Hget. reflexivity.
Qed.

(** C2 (as amended).  When the cache holds neither a rules record of the
    merchant nor one of the ['default'] tenant, [getMerchantRules] returns
    the baseline: the merchant's id, [riskThreshold] and [highRiskThreshold]
    taken from the configuration (0.7 and 0.9 unless the environment sets
    them), [automaticReject = true] and no custom rules. *)
Theorem getMerchantRules_baseline
    (config : Config) (merchantId : string) (w : World)
    (db : gmap string (Redis.Entry Doc))
    (Hclient : redis_client w = Some db)
    (Hmerchant : Redis.GET (seconds w) (rules_key merchantId) db = None)
    (Hdefault : Redis.GET (seconds w) (rules_key "default") db = None) :
  exists rules,
    getMerchantRules config merchantId w = (Ok rules, w)
    /\ mr_merchantId rules = merchantId
    /\ riskThreshold rules = defaultRiskThreshold config
    /\ highRiskThreshold rules = config_highRiskThreshold config
    /\ automaticReject rules = true
    /\ customRules rules = None
    /\ defaultRiskThreshold (config_of empty_env) = 0.7
    /\ config_highRiskThreshold (config_of empty_env) = 0.9.
Proof.
  eexists. split.
  - unfold getMerchantRules, bind.
    rewrite (redisService_getMerchantRules_missing _ _ _ Hclient Hmerchant).
    rewrite (redisService_getMerchantRules_missing _ _ _ Hclient Hdefault).
    reflexivity.
  - cbn. repeat split; reflexivity.
Qed.

Lemma getMerchantRules_baseline_witness :
  exists rules,
    getMerchantRules Samples.default_decisioner_config "merchant-123"
                     Samples.decisioner_world
    = (Ok rules, Samples.decisioner_world)
    /\ riskThreshold rules = 0.7 /\ highRiskThreshold rules = 0.9
    /\ automaticReject rules = true.
Proof.
  destruct (getMerchantRules_baseline Samples.default_decisioner_config
              "merchant-123" Samples.decisioner_world ∅)
    as (rules & Hrun & _ & Hrisk & Hhigh & Hrej & _);
    [reflexivity | reflexivity | reflexivity |].
  exists rules. rewrite Hrisk, Hhigh, Hrej, Hrun. repeat split; reflexivity.
Defined.

(** C2, as stated, fails: with an empty cache and the default configuration
    the baseline thresholds are 0.7 and 0.9, not 70 and 90. *)
Lemma baseline_thresholds_are_not_70_90 :
  exists rules,
    getMerchantRules Samples.default_decisioner_config "merchant-123"
                     Samples.decisioner_world
    = (Ok rules, Samples.decisioner_world)
    /\ riskThreshold rules = 0.7 /\ highRiskThreshold rules = 0.9
    /\ ~ riskThreshold rules == 70 /\ ~ highRiskThreshold rules == 90.
Proof.
  eexists. split; [reflexivity|]. cbn.
  repeat split; try reflexivity; intros Heq; vm_compute in Heq; discriminate.
Qed.

(** *** Sorting by descending priority *)

Section Sorting.
Context {A : Type} (prio : A -> Q).

Local Abbreviation by_priority := (fun a b : A => prio b - prio a).
Local Abbreviation desc := (fun a b : A => prio b <= prio a).

Lemma sort_insert_elem a l x :
  x ∈ sort_insert by_priority a l <-> x = a \/ x ∈ l.
Proof.
  induction l as [|b rest IH]; cbn.
  - rewrite list_elem_of_singleton, elem_of_nil. tauto.
  - destruct (Qle_bool (prio b - prio a) 0).
    + rewrite elem_of_cons. tauto.
    + rewrite !elem_of_cons, IH. tauto.
Qed.

Lemma sort_insert_sorted a l :
  StronglySorted desc l -> StronglySorted desc (sort_insert by_priority a l).
Proof.
  induction 1 as [|b rest Hsorted IH Hall]; cbn.
  - repeat constructor.
  - destruct (Qle_bool (prio b - prio a) 0) eqn:E.
    + apply Qle_bool_true in E.
      constructor; [constructor; assumption|].
      constructor; [lra|].
      eapply Forall_impl; [exact Hall|]. cbn. intros y Hy. lra.
    + apply Qle_bool_false in E.
      constructor; [assumption|].
      apply Forall_forall. intros y Hy.
      apply sort_insert_elem in Hy as [->|Hy]; [lra|].
      rewrite Forall_forall in Hall. auto.
Qed.

Lemma Array_sort_sorted l : StronglySorted desc (Array_sort by_priority l).
Proof.
  induction l as [|a rest IH]; cbn; [constructor|].
  apply sort_insert_sorted, IH.
Qed.

Lemma find_elem (p : A -> bool) l x : List.find p l = Some x -> x ∈ l /\ p x = true.
Proof.
  induction l as [|a rest IH]; cbn; [discriminate|].
  destruct (p a) eqn:E.
  - intros [= ->]. split; [left|assumption].
  - intros Hx. destruct (IH Hx). split; [right|]; assumption.
Qed.

(** Where the first qualifying element is after an insertion. *)
Lemma find_sort_insert (p : A -> bool) a l :
  StronglySorted desc l ->
  List.find p (sort_insert by_priority a l) =
    if p a then
      match List.find p l with
      | Some later => if Qlt_bool (prio a) (prio later) then Some later else Some a
      | None => Some a
      end
    else List.find p l.
Proof.
  induction 1 as [|b rest Hsorted IH Hall]; cbn.
  - destruct (p a); reflexivity.
  - destruct (Qle_bool (prio b - prio a) 0) eqn:E; cbn.
    + apply Qle_bool_true in E.
      destruct (p a) eqn:Ea; [|reflexivity].
      destruct (p b) eqn:Eb.
      * unfold Qlt_bool. destruct (Qle_bool (prio b) (prio a)) eqn:E'; [reflexivity|].
        apply Qle_bool_false in E'. lra.
      * destruct (List.find p rest) as [later|] eqn:Ef; [|reflexivity].
        apply find_elem in Ef as [Hin _].
        rewrite Forall_forall in Hall. specialize (Hall _ Hin). cbn in Hall.
        unfold Qlt_bool. destruct (Qle_bool (prio later) (prio a)) eqn:E'; [reflexivity|].
        apply Qle_bool_false in E'. lra.
    + apply Qle_bool_false in E.
      destruct (p b) eqn:Eb.
      * destruct (p a); [|reflexivity].
        unfold Qlt_bool. destruct (Qle_bool (prio b) (prio a)) eqn:E'; [|reflexivity].
        apply Qle_bool_true in E'. lra.
      * exact IH.
Qed.

(** The first qualifying element of the sorted list is the winner of the
    original list. *)
Lemma find_Array_sort (p : A -> bool) l :
  List.find p (Array_sort by_priority l) = winner prio p l.
Proof.
  induction l as [|a rest IH]; cbn; [reflexivity|].
  rewrite find_sort_insert by apply Array_sort_sorted.
  rewrite IH. reflexivity.
Qed.

Lemma winner_filter (keep p : A -> bool) l :
  winner prio p (List.filter keep l) = winner prio (fun a => keep a && p a) l.
Proof.
  induction l as [|a rest IH]; cbn; [reflexivity|].
  destruct (keep a); cbn; rewrite IH; reflexivity.
Qed.

Lemma winner_None (p : A -> bool) l :
  winner prio p l = None <-> forall a, a ∈ l -> p a = false.
Proof.
  induction l as [|a rest IH]; cbn.
  - split; [|reflexivity]. intros _ a Ha. inversion Ha.
  - destruct (p a) eqn:Ea.
    + split.
      * destruct (winner prio p rest) as [later|]; [|discriminate].
        destruct (Qlt_bool (prio a) (prio later)); discriminate.
      * intros Hall. rewrite Hall in Ea by left. discriminate.
    + rewrite IH. split.
      * intros Hall x Hx. apply elem_of_cons in Hx as [->|Hx]; auto.
      * intros Hall x Hx. apply Hall. right. exact Hx.
Qed.

(** The winner qualifies, and every other qualifying element has a lower
    priority, or the same priority and a later place in the list. *)
Lemma winner_Some (p : A -> bool) l r :
  winner prio p l = Some r ->
  exists i, l !! i = Some r /\ p r = true
    /\ forall j r', l !! j = Some r' -> p r' = true ->
         prio r' < prio r \/ (prio r' == prio r /\ (i <= j)%nat).
Proof.
  revert r. induction l as [|a rest IH]; cbn; [discriminate|].
  intros r. destruct (p a) eqn:Ea.
  - destruct (winner prio p rest) as [later|] eqn:Ew.
    + destruct (IH later eq_refl) as (i & Hi & Hp & Htop).
      unfold Qlt_bool. destruct (Qle_bool (prio later) (prio a)) eqn:E; cbn.
      * apply Qle_bool_true in E. intros [= <-].
        exists 0%nat. split; [reflexivity|]. split; [assumption|].
        intros [|j] r' Hj Hr'; cbn in Hj.
        -- injection Hj as <-. right. split; [reflexivity|lia].
        -- destruct (Htop j r' Hj Hr') as [Hlt|[Heq _]];
             destruct (Qlt_le_dec (prio r') (prio a)) as [Hlt'|Hle'];
             try (left; assumption); right; (split; [lra|lia]).
      * apply Qle_bool_false in E. intros [= <-].
        exists (S i). split; [exact Hi|]. split; [assumption|].
        intros [|j] r' Hj Hr'; cbn in Hj.
        -- injection Hj as <-. left. assumption.
        -- destruct (Htop j r' Hj Hr') as [Hlt|[Heq Hij]];
             [left; assumption | right; split; [assumption|lia]].
    + intros [= <-].
      exists 0%nat. split; [reflexivity|]. split; [assumption|].
      intros [|j] r' Hj Hr'; cbn in Hj.
      * injection Hj as <-. right. split; [reflexivity|lia].
      * rewrite winner_None in Ew.
        rewrite Ew in Hr' by (eapply list_elem_of_lookup_2; eassumption).
        discriminate.
  - intros Hw. destruct (IH r Hw) as (i & Hi & Hp & Htop).
    exists (S i). split; [exact Hi|]. split; [assumption|].
    intros [|j] r' Hj Hr'; cbn in Hj.
    + injection Hj as <-. congruence.
    + destruct (Htop j r' Hj Hr') as [Hlt|[Heq Hij]];
        [left; assumption | right; split; [assumption|lia]].
Qed.

End Sorting.

(** *** Custom rules *)

Lemma applyCustomRules_winner `{Runtime} (riskScore : RiskScore) (merchantRules : MerchantRules) :
  applyCustomRules riskScore merchantRules =
    (fun rule => (action rule, rule_reason rule)) <$>
    winner priority
      (fun rule => isEnabled rule && matchesRule (RiskScore_object riskScore) rule)
      (default [] (customRules merchantRules)).
Proof.
  unfold applyCustomRules.
  destruct (customRules merchantRules) as [[|rule rest]|]; try reflexivity.
  rewrite (find_Array_sort priority), winner_filter. cbn [default].
  destruct (winner _ _ _); reflexivity.
Qed.

Lemma applyCustomRules_None `{Runtime} (riskScore : RiskScore) (merchantRules : MerchantRules) :
  applyCustomRules riskScore merchantRules = None <->
  forall rule, rule ∈ default [] (customRules merchantRules) ->
    isEnabled rule && matchesRule (RiskScore_object riskScore) rule = false.
Proof.
  rewrite applyCustomRules_winner, <- (winner_None priority).
  destruct (winner _ _ _); cbn; split; intros Heq; (discriminate || reflexivity).
Qed.

(** C4.  The custom-rule step looks only at the rules that qualify: the
    enabled rules all of whose conditions match the risk score
    ([matchesCondition] holds of every condition of the rule; a rule without
    conditions matches).  If there is none it yields nothing.  Otherwise it
    yields the action of the one that comes first when the enabled rules are
    put in descending priority with ties in list order: every other rule that
    qualifies has a lower priority, or the same priority and a later place in
    the list.  The decision is then that action, and its reasoning is the
    reason string of that rule alone: no threshold string is added. *)
Theorem custom_rule_short_circuit `{Runtime}
    (riskScore : RiskScore) (merchantRules : MerchantRules)
    (decisionId : string) (w : World) :
  let rules := default [] (customRules merchantRules) in
  let qualifies rule :=
    isEnabled rule
    && forallb (matchesCondition (RiskScore_object riskScore)) (conditions rule) in
  match applyCustomRules riskScore merchantRules with
  | None => forall rule, rule ∈ rules -> qualifies rule = false
  | Some (d, reason) =>
      (exists i rule,
          rules !! i = Some rule /\ qualifies rule = true
          /\ d = action rule /\ reason = rule_reason rule
          /\ forall j rule', rules !! j = Some rule' -> qualifies rule' = true ->
               priority rule' < priority rule
               \/ (priority rule' == priority rule /\ (i <= j)%nat))
      /\ exists td,
          decide riskScore merchantRules decisionId w = (Ok td, w)
          /\ decision td = d /\ reasoning td = [reason]
  end.
Proof.
  cbv zeta.
  destruct (applyCustomRules riskScore merchantRules) as [[d reason]|] eqn:E.
  - split.
    + rewrite applyCustomRules_winner in E.
      destruct (winner _ _ _) as [rule|] eqn:Ew; [|discriminate].
      cbn in E. injection E as <- <-.
      apply winner_Some in Ew as (i & Hi & Hq & Htop).
      unfold matchesRule in Hq, Htop.
      exists i, rule. repeat split; assumption.
    + unfold decide. rewrite E. eexists. split; [reflexivity|].
      split; reflexivity.
  - pose proof (proj1 (applyCustomRules_None riskScore merchantRules) E) as Hnone.
    unfold matchesRule in Hnone. exact Hnone.
Qed.

(** *** Thresholds *)

Lemma no_rule_qualifies `{Runtime} (riskScore : RiskScore) (merchantRules : MerchantRules) :
  forallb (fun rule => negb (isEnabled rule
                               && matchesRule (RiskScore_object riskScore) rule))
          (default [] (customRules merchantRules)) = true ->
  applyCustomRules riskScore merchantRules = None.
Proof.
  intros Hall. apply applyCustomRules_None. intros rule Hin.
  rewrite forallb_forall in Hall.
  apply list_elem_of_In, Hall in Hin.
  apply negb_true_iff in Hin. exact Hin.
Qed.

(** C5 (as amended).  When no enabled custom rule fully matches, the decision
    follows the thresholds in this order: a score of at least
    [highRiskThreshold] is rejected if [automaticReject] holds and reviewed
    otherwise; below that, a score of at least [riskThreshold] is reviewed;
    a score below both thresholds is approved. *)
Theorem threshold_fallback `{Runtime}
    (riskScore : RiskScore) (merchantRules : MerchantRules)
    (decisionId : string) (w : World)
    (Hnone : forallb (fun rule => negb (isEnabled rule
                               && matchesRule (RiskScore_object riskScore) rule))
                     (default [] (customRules merchantRules)) = true) :
  exists td,
    decide riskScore merchantRules decisionId w = (Ok td, w)
    /\ (highRiskThreshold merchantRules <= score riskScore ->
        automaticReject merchantRules = true -> decision td = Reject)
    /\ (highRiskThreshold merchantRules <= score riskScore ->
        automaticReject merchantRules = false -> decision td = Review)
    /\ (riskThreshold merchantRules <= score riskScore ->
        score riskScore < highRiskThreshold merchantRules -> decision td = Review)
    /\ (score riskScore < riskThreshold merchantRules ->
        score riskScore < highRiskThreshold merchantRules -> decision td = Approve).
Proof.
  unfold decide. rewrite (no_rule_qualifies _ _ Hnone).
  destruct (threshold_decision riskScore merchantRules) as [d reasoning] eqn:E.
  eexists. split; [reflexivity|]. cbn [decision].
  unfold threshold_decision in E.
  assert (d =
    if Qle_bool (highRiskThreshold merchantRules) (score riskScore)
    then (if automaticReject merchantRules then Reject else Review)
    else if Qle_bool (riskThreshold merchantRules) (score riskScore)
         then Review else Approve) as ->.
  { destruct (Qle_bool (highRiskThreshold merchantRules) (score riskScore));
      [|destruct (Qle_bool (riskThreshold merchantRules) (score riskScore))];
      destruct (riskFactors riskScore); congruence. }
  clear E.
  destruct (Qle_bool (highRiskThreshold merchantRules) (score riskScore)) eqn:Eh;
    [apply Qle_bool_true in Eh | apply Qle_bool_false in Eh];
    (destruct (Qle_bool (riskThreshold merchantRules) (score riskScore)) eqn:Er;
      [apply Qle_bool_true in Er | apply Qle_bool_false in Er]);
    repeat split; intros; try reflexivity; try lra;
    match goal with Ha : automaticReject _ = _ |- _ => rewrite Ha; reflexivity end.
Qed.

Lemma threshold_fallback_witness :
  exists td,
    decide (H := Samples.sample_runtime)
      (Samples.risk_score 0.95 ["unusual_behavior"])
      (Samples.merchant_rules 0.7 0.9 true
         (Some [Samples.rule_on_factor "high-risk-country" "high_risk_country"
                  Review 100 true]))
      "decision-1" Samples.decisioner_world
    = (Ok td, Samples.decisioner_world)
    /\ decision td = Reject.
Proof.
  destruct (threshold_fallback (H := Samples.sample_runtime)
              (Samples.risk_score 0.95 ["unusual_behavior"])
              (Samples.merchant_rules 0.7 0.9 true
                 (Some [Samples.rule_on_factor "high-risk-country" "high_risk_country"
                          Review 100 true]))
              "decision-1" Samples.decisioner_world)
    as (td & Hrun & Hreject & _); [vm_compute; reflexivity|].
  exists td. split; [exact Hrun|].
  apply Hreject; [cbn; lra | reflexivity].
Defined.

(** C5, as stated, fails where [highRiskThreshold] is below [riskThreshold]:
    a score of 0.5 is below the risk threshold 0.7, yet with a high-risk
    threshold of 0.3 the decision is a rejection, not an approval. *)
Lemma score_below_riskThreshold_rejected :
  exists td,
    decide (H := Samples.sample_runtime)
      (Samples.risk_score 0.5 []) (Samples.merchant_rules 0.7 0.3 true None)
      "decision-1" Samples.decisioner_world
    = (Ok td, Samples.decisioner_world)
    /\ score (Samples.risk_score 0.5 [])
       < riskThreshold (Samples.merchant_rules 0.7 0.3 true None)
    /\ decision td = Reject
    /\ decision td <> Approve.
Proof.
  eexists. split; [reflexivity|]. cbn.
  split; [lra|]. split; [reflexivity|discriminate].
Qed.

(** *** Conditions on a field that is [undefined] *)

Lemma strict_equals_undefined (v : Json) : strict_equals None (Some v) = false.
Proof. reflexivity. Qed.

Lemma array_includes_undefined (vs : list Json) : array_includes vs None = false.
Proof.
  unfold array_includes. induction vs as [|v rest IH]; cbn [existsb]; [reflexivity|].
  rewrite IH. destruct v; reflexivity.
Qed.

(** C6 (as amended).  When the dot path of a condition leads to [undefined],
    [matchesCondition] is false for [eq], [gt], [gte], [lt], [lte],
    [contains] and [in], and true for [neq], [not_contains] and [not_in]. *)
Theorem matchesCondition_undefined_field `{Runtime}
    (record : Json) (condition : RuleCondition)
    (Hundefined : getFieldValue record (field condition) = None) :
  matchesCondition record condition =
    match operator condition with
    | OpEq | OpGt | OpGte | OpLt | OpLte | OpContains | OpIn => false
    | OpNeq | OpNotContains | OpNotIn => true
    | OpOther _ => false
    end.
Proof.
  unfold matchesCondition. rewrite Hundefined.
  destruct (operator condition); try reflexivity;
    destruct (value condition); try reflexivity;
    rewrite array_includes_undefined; reflexivity.
Qed.

Lemma matchesCondition_undefined_field_witness :
  getFieldValue (RiskScore_object (Samples.risk_score 0.5 [])) "device.os" = None
  /\ matchesCondition (H := Samples.sample_runtime)
       (RiskScore_object (Samples.risk_score 0.5 []))
       {| field := "device.os"; operator := OpNotIn; value := JArr [JStr "linux"] |}
     = true
  /\ matchesCondition (H := Samples.sample_runtime)
       (RiskScore_object (Samples.risk_score 0.5 []))
       {| field := "device.os"; operator := OpIn; value := JArr [JStr "linux"] |}
     = false.
Proof.
  split; [vm_compute; reflexivity|]. split.
  - apply (matchesCondition_undefined_field (H := Samples.sample_runtime)
             (RiskScore_object (Samples.risk_score 0.5 []))
             {| field := "device.os"; operator := OpNotIn;
                value := JArr [JStr "linux"] |}).
    vm_compute; reflexivity.
  - apply (matchesCondition_undefined_field (H := Samples.sample_runtime)
             (RiskScore_object (Samples.risk_score 0.5 []))
             {| field := "device.os"; operator := OpIn;
                value := JArr [JStr "linux"] |}).
    vm_compute; reflexivity.
Defined.

(** C6, as stated, fails for [neq]: on a field that is [undefined] the
    condition [device.os neq "linux"] is true, not false. *)
Lemma neq_on_undefined_field_is_true :
  getFieldValue (RiskScore_object (Samples.risk_score 0.5 [])) "device.os" = None
  /\ matchesCondition (H := Samples.sample_runtime)
       (RiskScore_object (Samples.risk_score 0.5 []))
       {| field := "device.os"; operator := OpNeq; value := JStr "linux" |}
     = true.
Proof. split; vm_compute; reflexivity. Qed.

(** *** The consumer loop *)

Section Consumer.
Context `{Runtime}.
Variable config : Config.

Lemma resolves_ret {W A} (a : A) : resolves (W := W) (ret a).
Proof. intros w. exists a. reflexivity. Qed.

Lemma resolves_bind {W A B} (c : M W A) (k : A -> M W B) :
  resolves c -> (forall a, resolves (k a)) -> resolves (bind c k).
Proof.
  intros Hc Hk w. unfold bind.
  destruct (Hc w) as [a Ha]. destruct (c w) as [[a'|e] w1]; cbn in Ha; [|discriminate].
  apply Hk.
Qed.

Lemma resolves_try_catch {W A} (body : M W A) (handler : string -> M W A) :
  (forall e, resolves (handler e)) -> resolves (try_catch body handler).
Proof.
  intros Hh w. unfold try_catch.
  destruct (body w) as [[a|e] w1]; [exists a; reflexivity|apply Hh].
Qed.

Lemma resolves_modify {W} (f : W -> W) : resolves (modify f).
Proof. intros w. exists tt. reflexivity. Qed.

Lemma resolves_logger_error msg : resolves (logger_error msg).
Proof. apply resolves_modify. Qed.

Lemma resolves_processRiskScore riskScore : resolves (processRiskScore config riskScore).
Proof. apply resolves_try_catch. intros e. apply resolves_logger_error. Qed.

Lemma resolves_processMessages messages : resolves (processMessages config messages).
Proof.
  induction messages as [|message rest IH]; cbn [processMessages].
  - apply resolves_ret.
  - apply resolves_bind; [|intros _; exact IH].
    apply resolves_try_catch. intros e. apply resolves_logger_error.
Qed.

Lemma keeps_ret {A} (a : A) : keeps_polling (ret a).
Proof. intros w. reflexivity. Qed.

Lemma keeps_throw {A} e : keeps_polling (throw (A := A) e).
Proof. intros w. reflexivity. Qed.

Lemma keeps_bind {A B} (c : M World A) (k : A -> M World B) :
  keeps_polling c -> (forall a, keeps_polling (k a)) -> keeps_polling (bind c k).
Proof.
  intros Hc Hk w. unfold bind. specialize (Hc w).
  destruct (c w) as [[a|e] w1]; cbn in Hc |- *; [|exact Hc].
  rewrite Hk. exact Hc.
Qed.

Lemma keeps_try_catch {A} (body : M World A) (handler : string -> M World A) :
  keeps_polling body -> (forall e, keeps_polling (handler e)) ->
  keeps_polling (try_catch body handler).
Proof.
  intros Hb Hh w. unfold try_catch. specialize (Hb w).
  destruct (body w) as [[a|e] w1]; cbn in Hb |- *; [exact Hb|].
  rewrite Hh. exact Hb.
Qed.

Lemma keeps_logger_error msg : keeps_polling (logger_error msg).
Proof. intros w. reflexivity. Qed.

Lemma keeps_uuidv4 : keeps_polling uuidv4.
Proof. intros w. reflexivity. Qed.

Lemma keeps_Date_now : keeps_polling Date_now.
Proof. intros w. reflexivity. Qed.

Lemma keeps_redisService_get key : keeps_polling (redisService_get key).
Proof. intros w. unfold redisService_get. destruct (redis_client w); reflexivity. Qed.

Lemma keeps_redisService_set key doc ttl : keeps_polling (redisService_set key doc ttl).
Proof.
  intros w. unfold redisService_set.
  destruct (redis_client w); [|reflexivity].
  destruct ttl as [ttl|]; [destruct (ttl =? 0)%Z|]; reflexivity.
Qed.

Lemma keeps_publishDecision d : keeps_polling (publishDecision d).
Proof. intros w. unfold publishDecision. destruct (producer_connected w); reflexivity. Qed.

Lemma keeps_redisService_getMerchantRules merchantId :
  keeps_polling (redisService_getMerchantRules merchantId).
Proof.
  apply keeps_bind; [apply keeps_redisService_get|].
  intros [[r|d|[|c s]]|]; try apply keeps_ret;
    (apply keeps_bind; [apply keeps_logger_error | intros _; apply keeps_ret]).
Qed.

Lemma keeps_getMerchantRules merchantId : keeps_polling (getMerchantRules config merchantId).
Proof.
  apply keeps_bind; [apply keeps_redisService_getMerchantRules|].
  intros [r|]; [apply keeps_ret|].
  apply keeps_bind; [apply keeps_redisService_getMerchantRules|].
  intros [d|]; [apply keeps_ret|].
  apply keeps_bind; [apply keeps_Date_now | intros now; apply keeps_ret].
Qed.

Lemma keeps_createDecision riskScore decisionId d reasoning :
  keeps_polling (createDecision riskScore decisionId d reasoning).
Proof. apply keeps_bind; [apply keeps_Date_now | intros now; apply keeps_ret]. Qed.

Lemma keeps_decide riskScore merchantRules decisionId :
  keeps_polling (decide riskScore merchantRules decisionId).
Proof.
  unfold decide.
  destruct (applyCustomRules riskScore merchantRules) as [[d reason]|].
  - apply keeps_createDecision.
  - destruct (threshold_decision riskScore merchantRules). apply keeps_createDecision.
Qed.

Lemma keeps_processRiskScore riskScore : keeps_polling (processRiskScore config riskScore).
Proof.
  apply keeps_try_catch; [|intros e; apply keeps_logger_error].
  apply keeps_bind; [apply keeps_uuidv4|]. intros decisionId.
  apply keeps_bind.
  { apply keeps_bind; [apply keeps_getMerchantRules | intros r; apply keeps_decide]. }
  intros decision.
  apply keeps_bind; [apply keeps_redisService_set|]. intros _.
  apply keeps_bind; [apply keeps_publishDecision | intros _; apply keeps_ret].
Qed.

Lemma keeps_parseMessage message : keeps_polling (parseMessage message).
Proof.
  unfold parseMessage. destruct (msg_value message) as [riskScore|text].
  - destruct (_ || _); apply keeps_ret.
  - apply keeps_bind; [apply keeps_logger_error | intros _; apply keeps_ret].
Qed.

Lemma keeps_processMessages messages : keeps_polling (processMessages config messages).
Proof.
  induction messages as [|message rest IH]; cbn [processMessages].
  - apply keeps_ret.
  - apply keeps_bind; [|intros _; exact IH].
    apply keeps_try_catch; [|intros e; apply keeps_logger_error].
    apply keeps_bind; [apply keeps_parseMessage|].
    intros [riskScore|]; [apply keeps_processRiskScore | apply keeps_ret].
Qed.

(** The handler of a batch always resolves and leaves the consumer alone. *)
Lemma processMessages_runs messages w :
  exists w', processMessages config messages w = (Ok tt, w')
             /\ polling w' = polling w.
Proof.
  destruct (resolves_processMessages messages w) as [[] Hok].
  pose proof (keeps_processMessages messages w) as Hkeep.
  destruct (processMessages config messages w) as [r w']. cbn in Hok, Hkeep.
  subst r. exists w'. split; [reflexivity|exact Hkeep].
Qed.

End Consumer.

Section Loop.
Context `{Runtime}.
Variable config : Config.

(** A poll that is handed the next messages: the handler runs, and the
    position past these messages is committed. *)
Lemma poll_delivers w c :
  isRunning w = true ->
  consumer w = Some c ->
  committed c = position c ->
  let batch := take 100 (drop (position c) (partition_log c)) in
  exists w',
    poll config ConsumeDelivers w = (Ok tt, w')
    /\ consumer w' =
         Some {| partition_log := partition_log c;
                 position := (position c + length batch)%nat;
                 committed := (position c + length batch)%nat |}
    /\ isRunning w' = true
    /\ pollInterval w' = Some (consumerPollInterval config).
Proof.
  intros Hrun Hc Hcommitted batch.
  unfold poll. rewrite Hrun, Hc. cbn [negb consume]. fold batch.
  unfold bind at 1. cbn [modify].
  destruct batch as [|message rest] eqn:Ebatch.
  - unfold bind, ret, setTimeout_poll, modify. eexists. split; [reflexivity|].
    cbn. rewrite Hcommitted, Hrun. repeat split. do 2 f_equal; lia.
  - destruct (processMessages_runs config (message :: rest)
                (set_consumer
                   (Some {| partition_log := partition_log c;
                            position := (position c + length (message :: rest))%nat;
                            committed := committed c |}) w))
      as (w2 & Hrun2 & Hkeep).
    unfold bind at 1. unfold try_catch, bind at 1. rewrite Hrun2.
    unfold polling in Hkeep. cbn in Hkeep. injection Hkeep as Hc2 Hr2 Hp2.
    unfold commit, bind, modify, setTimeout_poll. rewrite Hc2. cbn.
    eexists. split; [reflexivity|]. cbn. rewrite Hr2, Hrun. repeat split.
Qed.

(** One poll, whatever the broker does: it resolves, nothing consumed stays
    uncommitted, and a running consumer has its next poll scheduled. *)
Lemma poll_step broker w c :
  consumer w = Some c ->
  committed c = position c ->
  exists w' c',
    poll config broker w = (Ok tt, w')
    /\ consumer w' = Some c'
    /\ committed c' = position c'
    /\ partition_log c' = partition_log c
    /\ isRunning w' = isRunning w
    /\ (isRunning w = true -> pollInterval w' <> None)
    /\ (isRunning w = false -> pollInterval w' = pollInterval w).
Proof.
  intros Hc Hcommitted.
  destruct (isRunning w) eqn:Hrun.
  - destruct broker.
    + unfold poll. rewrite Hrun, Hc. cbn.
      eexists _, c. split; [reflexivity|]. cbn. rewrite Hc.
      repeat split; try assumption; discriminate.
    + unfold poll. rewrite Hrun, Hc. cbn.
      eexists _, c. split; [reflexivity|]. cbn. rewrite Hc.
      repeat split; try assumption; discriminate.
    + destruct (poll_delivers w c Hrun Hc Hcommitted) as (w' & Hpoll & Hc' & Hr' & Hp').
      eexists w', _. split; [exact Hpoll|]. split; [exact Hc'|]. cbn.
      rewrite Hr', Hp'. repeat split; discriminate.
  - unfold poll. rewrite Hrun. cbn.
    exists w, c. repeat split; try assumption. discriminate.
Qed.

(** C9 (as amended).  The handler of a batch absorbs every error, so a poll
    that is handed a batch always commits the position past it, whether or
    not the processing of some message failed: in every state that the loop
    reaches, everything consumed is committed, and a message whose processing
    failed is not delivered again.  The loop does not crash: every poll
    resolves, and a running consumer always has its next poll scheduled. *)
Theorem consumer_loop_commits_every_batch
    (w : World) (c : KafkaConsumer)
    (Hconsumer : consumer w = Some c)
    (Hcommitted : committed c = position c)
    (Hrunning : isRunning w = true)
    (Hscheduled : pollInterval w <> None) :
  let batch := take 100 (drop (position c) (partition_log c)) in
  (exists w1,
      poll config ConsumeDelivers w = (Ok tt, w1)
      /\ consumer w1 =
           Some {| partition_log := partition_log c;
                   position := (position c + length batch)%nat;
                   committed := (position c + length batch)%nat |}
      /\ pollInterval w1 = Some (consumerPollInterval config))
  /\ forall brokers,
      exists w' c',
        run_loop config brokers w = (Ok tt, w')
        /\ consumer w' = Some c'
        /\ committed c' = position c'
        /\ partition_log c' = partition_log c
        /\ isRunning w' = true
        /\ pollInterval w' <> None.
Proof.
  cbv zeta. split.
  - destruct (poll_delivers w c Hrunning Hconsumer Hcommitted) as (w1 & ? & ? & ? & ?).
    exists w1. repeat split; assumption.
  - intros brokers. revert w c Hconsumer Hcommitted Hrunning Hscheduled.
    induction brokers as [|broker rest IH]; intros w c Hc Hcommitted Hrun Hsched.
    + exists w, c. repeat split; assumption.
    + cbn [run_loop]. destruct (pollInterval w) as [t|] eqn:Ht; [|congruence].
      destruct (poll_step broker w c Hc Hcommitted)
        as (w1 & c1 & Hpoll & Hc1 & Hcm1 & Hlog1 & Hr1 & Hs1 & _).
      unfold bind. rewrite Hpoll.
      destruct (IH w1 c1 Hc1 Hcm1) as (w' & c' & Hloop & Hc' & Hcm' & Hlog' & Hr' & Hs').
      { rewrite Hr1. exact Hrun. }
      { apply Hs1. exact Hrun. }
      exists w', c'. repeat split; try assumption. congruence.
Qed.

End Loop.

Lemma consumer_loop_commits_every_batch_witness :
  exists w1,
    poll (H := Samples.sample_runtime) Samples.default_decisioner_config
         ConsumeDelivers Samples.consumer_world_without_cache
    = (Ok tt, w1)
    /\ committed <$> consumer w1 = Some 1%nat
    /\ pollInterval w1 = Some 100%Z.
Proof.
  destruct (consumer_loop_commits_every_batch (H := Samples.sample_runtime)
              Samples.default_decisioner_config
              Samples.consumer_world_without_cache
              {| partition_log :=
                   [ {| msg_offset := 0;
                        msg_value := Parsed (Samples.risk_score 0.95 ["unusual_behavior"]) |} ];
                 position := 0; committed := 0 |}
              eq_refl eq_refl eq_refl ltac:(discriminate))
    as [(w1 & Hpoll & Hc & Ht) _].
  exists w1. split; [exact Hpoll|]. rewrite Hc, Ht. split; reflexivity.
Defined.

(** C9, as stated, fails: with the cache client down, the processing of the
    only message of the batch fails (the error is logged, no decision is
    stored or published), and the poll still commits the offset past that
    message and schedules the next poll. *)
Lemma failed_message_is_committed :
  exists w',
    poll (H := Samples.sample_runtime) Samples.default_decisioner_config
         ConsumeDelivers Samples.consumer_world_without_cache
    = (Ok tt, w')
    /\ error_log w' =
         ["Error processing risk score for eval-123: Redis client not initialized"]
    /\ published w' = []
    /\ redis_client w' = None
    /\ position <$> consumer w' = Some 1%nat
    /\ committed <$> consumer w' = Some 1%nat
    /\ pollInterval w' = Some 100%Z.
Proof. eexists. split; [vm_compute; reflexivity|]. repeat split. Qed.

End DecisionerProperties.

(** ** The Evaluator *)

Module EvaluatorProperties.
Import Js Condition Evaluator.
Import DecisionerProperties.

Local Open Scope Q_scope.

(** *** The two condition checks *)

(** Where the Decisioner's extraction finds a value, the Evaluator's finds
    the same one.  (The converse fails on a path through a string: the
    Evaluator reads its length and characters, the Decisioner stops.) *)
Lemma getFieldValue_loop_defined (value : Value) (parts : list string) (v : Json) :
  Decisioner.getFieldValue_loop value parts = Some v ->
  getNestedValue_loop value parts = Some v.
Proof.
  revert value. induction parts as [|part rest IH]; intros value; cbn.
  - trivial.
  - destruct value as [[| b | q | s | xs | fields]|]; cbn; try discriminate; apply IH.
Qed.

Lemma extractions_agree (record : Json) (path : string) :
  (Decisioner.getFieldValue record path = None -> getNestedValue record path = None) ->
  getNestedValue record path = Decisioner.getFieldValue record path.
Proof.
  intros Hnone.
  destruct (Decisioner.getFieldValue record path) as [v|] eqn:E.
  - apply getFieldValue_loop_defined. exact E.
  - apply Hnone. reflexivity.
Qed.

(** C10 (as amended).  On a record and a path for which the Evaluator's
    extraction is [undefined] whenever the Decisioner's is, the Evaluator's
    check of a condition and the Decisioner's [matchesCondition] agree for
    [eq], [neq], [gt], [gte], [lt], [lte] and [in]; for [contains] they agree
    exactly when the field is not an array that includes the value; for
    [not_contains] exactly when the field is a string, or an array that
    includes the value; for [not_in] exactly when the condition value is an
    array. *)
Theorem condition_checks_agree `{Runtime}
    (record : Json) (condition : RuleCondition)
    (Hpath : Decisioner.getFieldValue record (field condition) = None ->
             getNestedValue record (field condition) = None) :
  let fieldValue := Decisioner.getFieldValue record (field condition) in
  let agree :=
    evaluateCondition record condition = Decisioner.matchesCondition record condition in
  match operator condition with
  | OpContains =>
      agree <->
      forall xs, fieldValue = Some (JArr xs) ->
                 array_includes xs (Some (value condition)) = false
  | OpNotContains =>
      agree <->
      is_string fieldValue = true
      \/ exists xs, fieldValue = Some (JArr xs)
                    /\ array_includes xs (Some (value condition)) = true
  | OpNotIn => agree <-> is_array (Some (value condition)) = true
  | _ => agree
  end.
Proof.
  cbv zeta. unfold evaluateCondition, Decisioner.matchesCondition.
  rewrite (extractions_agree _ _ Hpath).
  destruct (operator condition); try reflexivity.
  - (* contains *)
    destruct (Decisioner.getFieldValue record (field condition))
      as [[| b | q | s | xs | fields]|]; cbn;
      try (split; [intros _ xs' Hxs; discriminate | reflexivity]).
    split.
    + intros Hagree xs' [= <-]. symmetry. exact Hagree.
    + intros Hxs. symmetry. apply Hxs. reflexivity.
  - (* not_contains *)
    destruct (Decisioner.getFieldValue record (field condition))
      as [[| b | q | s | xs | fields]|]; cbn;
      try (split; [discriminate | intros [Hs|(xs' & Hxs & _)]; discriminate]).
    + split; [left; reflexivity | reflexivity].
    + destruct (array_includes xs (Some (value condition))) eqn:E; cbn.
      * split; [|reflexivity]. intros _. right. exists xs. split; [reflexivity|exact E].
      * split; [discriminate|].
        intros [Hs|(xs' & [= <-] & Hin)]; [discriminate|congruence].
  - (* not_in *)
    destruct (value condition); cbn; split; try discriminate; reflexivity.
Qed.

Lemma condition_checks_agree_witness :
  evaluateCondition (H := Samples.sample_runtime)
    (Decisioner.RiskScore_object (Samples.risk_score 0.95 ["unusual_behavior"]))
    {| field := "score"; operator := OpGt; value := JNum 0.5 |}
  = Decisioner.matchesCondition (H := Samples.sample_runtime)
      (Decisioner.RiskScore_object (Samples.risk_score 0.95 ["unusual_behavior"]))
      {| field := "score"; operator := OpGt; value := JNum 0.5 |}.
Proof.
  apply (condition_checks_agree (H := Samples.sample_runtime)
           (Decisioner.RiskScore_object (Samples.risk_score 0.95 ["unusual_behavior"]))
           {| field := "score"; operator := OpGt; value := JNum 0.5 |}).
  vm_compute. intros Hnone. discriminate Hnone.
Defined.

(** C10, as stated, fails: on the array-valued field [riskFactors] the
    condition [contains "high_risk_country"] holds for the Decisioner and not
    for the Evaluator; on a field that is [undefined], [not_contains] holds
    for the Decisioner and not for the Evaluator. *)
Lemma checks_differ_on_arrays_and_undefined :
  Decisioner.matchesCondition (H := Samples.sample_runtime)
    (Decisioner.RiskScore_object (Samples.risk_score 0.5 ["high_risk_country"]))
    {| field := "riskFactors"; operator := OpContains;
       value := JStr "high_risk_country" |} = true
  /\ evaluateCondition (H := Samples.sample_runtime)
       (Decisioner.RiskScore_object (Samples.risk_score 0.5 ["high_risk_country"]))
       {| field := "riskFactors"; operator := OpContains;
          value := JStr "high_risk_country" |} = false
  /\ Decisioner.getFieldValue
       (Decisioner.RiskScore_object (Samples.risk_score 0.5 ["high_risk_country"]))
       "device.os" = None
  /\ getNestedValue
       (Decisioner.RiskScore_object (Samples.risk_score 0.5 ["high_risk_country"]))
       "device.os" = None
  /\ Decisioner.matchesCondition (H := Samples.sample_runtime)
       (Decisioner.RiskScore_object (Samples.risk_score 0.5 ["high_risk_country"]))
       {| field := "device.os"; operator := OpNotContains; value := JStr "linux" |}
     = true
  /\ evaluateCondition (H := Samples.sample_runtime)
       (Decisioner.RiskScore_object (Samples.risk_score 0.5 ["high_risk_country"]))
       {| field := "device.os"; operator := OpNotContains; value := JStr "linux" |}
     = false.
Proof. repeat split; vm_compute; reflexivity. Qed.

(** *** What the cache helpers leave alone *)

Section Frames.
Context `{Runtime}.
Variable config : Config.

Lemma producer_kept_ret {A} (a : A) : keeps_producer (ret a).
Proof. intros w. split; reflexivity. Qed.

Lemma producer_kept_throw {A} e : keeps_producer (throw (A := A) e).
Proof. intros w. split; reflexivity. Qed.

Lemma producer_kept_bind {A B} (c : M World A) (k : A -> M World B) :
  keeps_producer c -> (forall a, keeps_producer (k a)) -> keeps_producer (bind c k).
Proof.
  intros Hc Hk w. unfold bind. specialize (Hc w).
  destruct (c w) as [[a|e] w1]; cbn in Hc |- *; [|exact Hc].
  destruct (Hk a w1) as [-> ->]. exact Hc.
Qed.

Lemma producer_kept_try_catch {A} (body : M World A) (handler : string -> M World A) :
  keeps_producer body -> (forall e, keeps_producer (handler e)) ->
  keeps_producer (try_catch body handler).
Proof.
  intros Hb Hh w. unfold try_catch. specialize (Hb w).
  destruct (body w) as [[a|e] w1]; cbn in Hb |- *; [exact Hb|].
  destruct (Hh e w1) as [-> ->]. exact Hb.
Qed.

Lemma producer_kept_gets {A} (f : World -> A) : keeps_producer (gets f).
Proof. intros w. split; reflexivity. Qed.

Lemma producer_kept_set_redis db : keeps_producer (modify (set_redis db)).
Proof. intros w. split; reflexivity. Qed.

Lemma producer_kept_logger_error msg : keeps_producer (logger_error msg).
Proof. intros w. split; reflexivity. Qed.

Lemma producer_kept_uuidv4 : keeps_producer uuidv4.
Proof. intros w. split; reflexivity. Qed.

Lemma producer_kept_getRedisClient : keeps_producer getRedisClient.
Proof. intros w. unfold getRedisClient. destruct (redisClient w); split; reflexivity. Qed.

Lemma producer_kept_setRedisValue key value ttl :
  keeps_producer (setRedisValue key value ttl).
Proof.
  apply producer_kept_bind; [apply producer_kept_getRedisClient|]. intros redis.
  apply producer_kept_bind; [apply producer_kept_gets|]. intros now.
  destruct ttl as [ttl|]; [destruct (ttl =? 0)%Z|]; apply producer_kept_set_redis.
Qed.

Lemma producer_kept_getRedisJson {T} (decode : Cached -> option T) key :
  keeps_producer (getRedisJson decode key).
Proof.
  apply producer_kept_bind; [apply producer_kept_getRedisClient|]. intros redis.
  apply producer_kept_bind; [apply producer_kept_gets|]. intros now.
  destruct (Redis.GET now key redis) as [doc|]; [|apply producer_kept_ret].
  assert (keeps_producer
            (match decode doc with
             | Some t => ret (Some t)
             | None => logger_error "Error parsing Redis JSON value:" ;; ret None
             end)) as Hdecode.
  { destruct (decode doc); [apply producer_kept_ret|].
    apply producer_kept_bind; [apply producer_kept_logger_error|].
    intros _. apply producer_kept_ret. }
  destruct doc as [n|s|rs|[|c s]]; try exact Hdecode. apply producer_kept_ret.
Qed.

Lemma producer_kept_getMerchantSettings merchantId :
  keeps_producer (getMerchantSettings merchantId).
Proof.
  apply producer_kept_try_catch.
  - apply producer_kept_bind; [apply producer_kept_getRedisJson|].
    intros [settings|]; [apply producer_kept_ret|].
    apply producer_kept_bind; [apply producer_kept_setRedisValue|].
    intros _. apply producer_kept_ret.
  - intros e. apply producer_kept_bind; [apply producer_kept_logger_error|].
    intros _. apply producer_kept_ret.
Qed.

Lemma producer_kept_getMerchantRules merchantId :
  keeps_producer (getMerchantRules merchantId).
Proof.
  apply producer_kept_try_catch.
  - apply producer_kept_bind; [apply producer_kept_getRedisJson|].
    intros [rules|]; [apply producer_kept_ret|].
    apply producer_kept_bind; [apply producer_kept_setRedisValue|].
    intros _. apply producer_kept_ret.
  - intros e. apply producer_kept_bind; [apply producer_kept_logger_error|].
    intros _. apply producer_kept_ret.
Qed.

Lemma resolves_getMerchantSettings merchantId : resolves (getMerchantSettings merchantId).
Proof.
  apply resolves_try_catch. intros e.
  apply resolves_bind; [apply resolves_modify | intros _; apply resolves_ret].
Qed.

Lemma resolves_getMerchantRules merchantId : resolves (getMerchantRules merchantId).
Proof.
  apply resolves_try_catch. intros e.
  apply resolves_bind; [apply resolves_modify | intros _; apply resolves_ret].
Qed.

Lemma getMerchantSettings_runs merchantId w :
  exists settings w1,
    getMerchantSettings merchantId w = (Ok settings, w1)
    /\ producer_connected w1 = producer_connected w
    /\ clock w1 = clock w.
Proof.
  destruct (resolves_getMerchantSettings merchantId w) as [settings Hok].
  destruct (producer_kept_getMerchantSettings merchantId w) as [Hp Hc].
  destruct (getMerchantSettings merchantId w) as [r w1]. cbn in Hok, Hp, Hc. subst r.
  exists settings, w1. repeat split; assumption.
Qed.

Lemma getMerchantRules_runs merchantId w :
  exists rules w1,
    getMerchantRules merchantId w = (Ok rules, w1)
    /\ producer_connected w1 = producer_connected w
    /\ clock w1 = clock w.
Proof.
  destruct (resolves_getMerchantRules merchantId w) as [rules Hok].
  destruct (producer_kept_getMerchantRules merchantId w) as [Hp Hc].
  destruct (getMerchantRules merchantId w) as [r w1]. cbn in Hok, Hp, Hc. subst r.
  exists rules, w1. repeat split; assumption.
Qed.

Lemma evaluationId_or_fresh_runs event w :
  exists evaluationId w1,
    evaluationId_or_fresh event w = (Ok evaluationId, w1)
    /\ producer_connected w1 = producer_connected w
    /\ clock w1 = clock w.
Proof.
  unfold evaluationId_or_fresh.
  destruct (evaluationId event) as [[|c s]|]; eexists _, _; repeat split.
Qed.

(** What the [try] block of [calculateRiskScore] does: it gets the settings
    and the rules, builds the risk score, and publishes it; only the
    publication can fail. *)
Lemma calculateRiskScore_try_runs event w :
  exists settings w1 rules w2 w3 id evaluationId,
    getMerchantSettings (merchantId event) w = (Ok settings, w1)
    /\ getMerchantRules (merchantId event) w1 = (Ok rules, w2)
    /\ producer_connected w3 = producer_connected w
    /\ let riskScore :=
         {| rs_id := id;
            rs_evaluationId := evaluationId;
            rs_sessionId := sessionId event;
            rs_merchantId := merchantId event;
            rs_visitorId := visitorId (fingerprintData event);
            score := Math_max 0 (Math_min 100 (fst (tally event rules)));
            isFraud :=
              Qle_bool (riskThreshold settings)
                       (Math_max 0 (Math_min 100 (fst (tally event rules))));
            riskFactors := snd (tally event rules);
            rs_timestamp := clock w3 |} in
       calculateRiskScore_try config event w =
         if producer_connected w
         then (Ok riskScore,
               set_produced (produced w3 ++ [(riskScoresTopic config, riskScore)])%list w3)
         else (Throw "Kafka producer not connected", w3).
Proof.
  destruct (getMerchantSettings_runs (merchantId event) w)
    as (settings & w1 & Hs & Hp1 & _).
  destruct (getMerchantRules_runs (merchantId event) w1)
    as (rules & w2 & Hr & Hp2 & _).
  destruct (evaluationId_or_fresh_runs event (set_uuid_seed (S (uuid_seed w2)) w2))
    as (evaluationId & w3 & He & Hp3 & _).
  exists settings, w1, rules, w2, w3, ("uuid-" +:+ pretty (uuid_seed w2)), evaluationId.
  split; [exact Hs|]. split; [exact Hr|].
  split; [rewrite Hp3; cbn; congruence|].
  cbv zeta. unfold calculateRiskScore_try.
  unfold bind at 1. rewrite Hs. unfold bind at 1. rewrite Hr.
  destruct (tally event rules) as [total factors]. cbn [fst snd].
  unfold bind at 1. unfold uuidv4 at 1.
  unfold bind at 1. rewrite He.
  unfold bind, Date_now, gets, produceEvent, ret.
  rewrite Hp3. cbn [producer_connected set_uuid_seed]. rewrite Hp2, Hp1.
  destruct (producer_connected w); reflexivity.
Qed.

End Frames.

(** *** Failure of the calculation *)

(** C7.  [calculateRiskScore] never rejects: whenever its [try] block
    fails, it returns a risk score with score 0, the single risk factor
    [calculation_error] and [isFraud = false].  The block does fail when the
    producer is not connected. *)
Theorem calculateRiskScore_fail_safe `{Runtime}
    (config : Config) (event : EnrichedEvent) (w : World) :
  exists riskScore w',
    calculateRiskScore config event w = (Ok riskScore, w')
    /\ (rejects (calculateRiskScore_try config event) w = true ->
        score riskScore = 0
        /\ riskFactors riskScore = ["calculation_error"]
        /\ isFraud riskScore = false)
    /\ (producer_connected w = false ->
        rejects (calculateRiskScore_try config event) w = true).
Proof.
  destruct (calculateRiskScore_try_runs config event w)
    as (settings & w1 & rules & w2 & w3 & id & evaluationId & _ & _ & _ & Htry).
  cbv zeta in Htry.
  unfold calculateRiskScore, try_catch, rejects.
  destruct (calculateRiskScore_try config event w) as [[riskScore|e] wt] eqn:E.
  - exists riskScore, wt. split; [reflexivity|]. split; [discriminate|].
    intros Hoff. rewrite Hoff in Htry. discriminate.
  - unfold calculateRiskScore_catch.
    unfold bind at 1. cbn [logger_error modify].
    unfold bind at 1. unfold uuidv4 at 1.
    match goal with
    | |- context [bind (evaluationId_or_fresh event) ?k ?w0] =>
        destruct (evaluationId_or_fresh_runs event w0) as (ev & w4 & He & _);
        unfold bind at 1; rewrite He
    end.
    unfold bind, Date_now, gets, ret.
    eexists _, _. split; [reflexivity|]. cbn.
    split; [intros _; repeat split|reflexivity].
Qed.

(** *** The additive model *)

Section Additive.
Context `{Runtime}.

Local Abbreviation tallies t cs :=
  (snd t = List.map snd cs /\ fst t == total cs).

Local Abbreviation bump b points factor t :=
  (if b then add points factor t else t).

Lemma total_app (a b : list (Q * string)) : total (a ++ b) == total a + total b.
Proof.
  unfold total. induction a as [|[p f] rest IH]; cbn.
  - lra.
  - rewrite IH. lra.
Qed.

Lemma tallies_bump (b : bool) points factor (t : Tally) cs :
  tallies t cs ->
  tallies (bump b points factor t) (cs ++ contribution b points factor).
Proof.
  intros [Hfactors Htotal]. destruct b; cbn.
  - rewrite List.map_app, total_app, Hfactors, Htotal. cbn. split; [reflexivity|lra].
  - rewrite app_nil_r. split; assumption.
Qed.

Lemma tallies_rules (event : EnrichedEvent) (rules : list Rule) (t : Tally) cs :
  tallies t cs ->
  tallies
    (fold_left
       (fun t rule =>
          if isActive rule && evaluateRule rule event
          then add (riskScoreAdjustment rule) ("rule_" +:+ rule_id rule) t
          else t)
       rules t)
    (cs ++ flat_map
             (fun rule =>
                contribution (isActive rule && evaluateRule rule event)
                  (riskScoreAdjustment rule) ("rule_" +:+ rule_id rule))
             rules).
Proof.
  revert t cs. induction rules as [|rule rest IH]; intros t cs Ht; cbn [fold_left flat_map].
  - rewrite app_nil_r. exact Ht.
  - rewrite app_assoc. apply IH. apply tallies_bump. exact Ht.
Qed.

(** The six signals of [tally], each as one guarded addition. *)
Lemma tally_signals (event : EnrichedEvent) (rules : list Rule) :
  tally event rules =
    fold_left
      (fun t rule =>
         if isActive rule && evaluateRule rule event
         then add (riskScoreAdjustment rule) ("rule_" +:+ rule_id rule) t
         else t)
      rules
      (bump (ip_velocity_above event 20) 30 "high_ip_velocity"
      (bump (session_velocity_above event 10) 25 "high_session_velocity"
      (bump (country_is_high_risk event) 20 "high_risk_country"
      (bump (incognito (fingerprintData event)) 15 "incognito_mode"
      (bump (confidence_in event (Some 0.3) (Some 0.7)) 10 "medium_device_confidence"
      (bump (confidence_in event None (Some 0.3)) 30 "low_device_confidence"
         (0, []))))))).
Proof.
  unfold tally. f_equal.
  unfold ip_velocity_above, session_velocity_above, country_is_high_risk,
    confidence_in, Qlt_bool.
  destruct (confidence (fingerprintData event)) as [c|];
    [destruct (Qle_bool 0.3 c), (Qle_bool 0.7 c)|];
    destruct (incognito (fingerprintData event));
    (destruct (geoData event ≫= country) as [[|a s]|];
       [| destruct (bool_decide (String a s ∈ highRiskCountries)) |]);
    (destruct (velocityData event) as [[[n|] [m|] ? ?]|]; cbn [mbind option_bind sessionCount24h ipSessionCount24h negb andb];
       try (destruct (Z.eqb_spec n 0), (Z.ltb_spec 10 n); try lia);
       try (destruct (Z.eqb_spec m 0), (Z.ltb_spec 20 m); try lia));
    reflexivity.
Qed.

Lemma tally_contributions (event : EnrichedEvent) (rules : list Rule) :
  tallies (tally event rules) (contributions event rules).
Proof.
  rewrite tally_signals. unfold contributions.
  rewrite !app_assoc. apply tallies_rules.
  do 5 apply tallies_bump. apply (tallies_bump _ _ _ (0, []) []).
  split; [reflexivity|]. cbn. lra.
Qed.

End Additive.

Lemma clamp_bounds (x : Q) :
  0 <= Math_max 0 (Math_min 100 x) <= 100
  /\ (0 <= x <= 100 -> Math_max 0 (Math_min 100 x) == x)
  /\ (x < 0 -> Math_max 0 (Math_min 100 x) == 0)
  /\ (100 < x -> Math_max 0 (Math_min 100 x) == 100).
Proof.
  unfold Math_max, Math_min.
  destruct (Qle_bool 100 x) eqn:E1;
    [apply Qle_bool_true in E1 | apply Qle_bool_false in E1].
  - destruct (Qle_bool 0 100) eqn:E2;
      [apply Qle_bool_true in E2 | apply Qle_bool_false in E2];
      repeat split; intros; lra.
  - destruct (Qle_bool 0 x) eqn:E2;
      [apply Qle_bool_true in E2 | apply Qle_bool_false in E2];
      repeat split; intros; lra.
Qed.

(** *** Integer adjustments

    With integer adjustments every contribution is an integer, and so is the
    sum; its magnitude is at most 130 plus the magnitudes of the
    adjustments. *)

Lemma integer_plus (a b : Q) : integer a -> integer b -> integer (a + b).
Proof.
  intros [n Hn] [m Hm]. exists (n + m)%Z. rewrite inject_Z_plus, Hn, Hm. reflexivity.
Qed.

Lemma integer_total (l : list (Q * string)) :
  Forall (fun c => integer (fst c)) l -> integer (total l).
Proof.
  induction 1 as [|c rest Hc _ IH]; unfold total; cbn.
  - exists 0%Z. reflexivity.
  - apply integer_plus; assumption.
Qed.

Lemma integer_contribution (b : bool) (points : Q) (factor : string) :
  integer points -> Forall (fun c => integer (fst c)) (contribution b points factor).
Proof. intros Hp. destruct b; repeat constructor. exact Hp. Qed.

Lemma integer_contributions `{Runtime} (event : EnrichedEvent) (rules : list Rule) :
  Forall (fun rule => integer (riskScoreAdjustment rule)) rules ->
  Forall (fun c => integer (fst c)) (contributions event rules).
Proof.
  intros Hrules. unfold contributions.
  repeat (apply Forall_app; split);
    try (apply integer_contribution; eexists; apply (eq_refl : inject_Z _ == inject_Z _)).
  induction Hrules as [|rule rest Hrule _ IH]; cbn [flat_map]; [constructor|].
  apply Forall_app. split; [apply integer_contribution; exact Hrule | exact IH].
Qed.

Lemma integer_clamp (x : Q) : integer x -> integer (Math_max 0 (Math_min 100 x)).
Proof.
  intros Hx. unfold Math_max, Math_min.
  destruct (Qle_bool 100 x).
  - destruct (Qle_bool 0 100); [exists 100%Z | exists 0%Z]; reflexivity.
  - destruct (Qle_bool 0 x); [exact Hx | exists 0%Z; reflexivity].
Qed.

Lemma total_abs (l : list (Q * string)) :
  Qabs (total l) <= fold_right (fun c acc => Qabs (fst c) + acc) 0 l.
Proof.
  induction l as [|c rest IH]; unfold total in *; cbn.
  - apply Qle_refl.
  - eapply Qle_trans; [apply Qabs_triangle|]. apply Qplus_le_r. exact IH.
Qed.

Lemma abs_app (a b : list (Q * string)) :
  fold_right (fun c acc => Qabs (fst c) + acc) 0 (a ++ b)
  == fold_right (fun c acc => Qabs (fst c) + acc) 0 a
     + fold_right (fun c acc => Qabs (fst c) + acc) 0 b.
Proof.
  induction a as [|c rest IH]; cbn.
  - lra.
  - rewrite IH. lra.
Qed.

Lemma abs_contribution (b : bool) (points : Q) (factor : string) :
  fold_right (fun c acc => Qabs (fst c) + acc) 0 (contribution b points factor)
  <= Qabs points.
Proof.
  destruct b; cbn; [lra|apply Qabs_nonneg].
Qed.

Lemma abs_contributions `{Runtime} (event : EnrichedEvent) (rules : list Rule) :
  fold_right (fun c acc => Qabs (fst c) + acc) 0 (contributions event rules)
  <= 130 + fold_right (fun rule acc => Qabs (riskScoreAdjustment rule) + acc) 0 rules.
Proof.
  unfold contributions. rewrite !abs_app.
  pose proof (abs_contribution (confidence_in event None (Some 0.3)) 30
                "low_device_confidence") as B1.
  pose proof (abs_contribution (confidence_in event (Some 0.3) (Some 0.7)) 10
                "medium_device_confidence") as B2.
  pose proof (abs_contribution (incognito (fingerprintData event)) 15 "incognito_mode")
    as B3.
  pose proof (abs_contribution (country_is_high_risk event) 20 "high_risk_country") as B4.
  pose proof (abs_contribution (session_velocity_above event 10) 25
                "high_session_velocity") as B5.
  pose proof (abs_contribution (ip_velocity_above event 20) 30 "high_ip_velocity") as B6.
  change (Qabs 30) with 30 in B1, B6. change (Qabs 10) with 10 in B2.
  change (Qabs 15) with 15 in B3. change (Qabs 20) with 20 in B4.
  change (Qabs 25) with 25 in B5.
  assert (fold_right (fun c acc => Qabs (fst c) + acc) 0
            (flat_map
               (fun rule =>
                  contribution (isActive rule && evaluateRule rule event)
                    (riskScoreAdjustment rule) ("rule_" +:+ rule_id rule))
               rules)
          <= fold_right (fun rule acc => Qabs (riskScoreAdjustment rule) + acc) 0 rules)
    as Brules.
  { induction rules as [|rule rest IH]; cbn [flat_map fold_right]; [apply Qle_refl|].
    rewrite abs_app.
    pose proof (abs_contribution (isActive rule && evaluateRule rule event)
                  (riskScoreAdjustment rule) ("rule_" +:+ rule_id rule)) as Brule.
    lra. }
  lra.
Qed.

(** C3.  When the risk score is computed and published (the producer is
    connected), its risk factors are the tags of the contributions that
    apply, in the order of the model: +30 [low_device_confidence] for a
    confidence below 0.3, +10 [medium_device_confidence] for one in
    [0.3, 0.7), +15 [incognito_mode], +20 [high_risk_country], +25
    [high_session_velocity] for more than 10 sessions, +30 [high_ip_velocity]
    for more than 20, and the [riskScoreAdjustment] of every active rule that
    matches, tagged [rule_ID].  When the adjustments of the merchant's rules
    are integers, as the integer score of the specification and the rules
    table have them, and small enough for the additions to be exact
    ([safe_adjustments]), the sum of these contributions is an integer of
    magnitude at most 2^53, the score is that sum clamped to [0, 100], an
    integer, and [isFraud] says whether the score reaches the merchant's
    [riskThreshold]. *)
Theorem calculateRiskScore_additive `{Runtime}
    (config : Config) (event : EnrichedEvent) (w : World)
    (Hconnected : producer_connected w = true) :
  exists settings w1 rules w2 riskScore w',
    getMerchantSettings (merchantId event) w = (Ok settings, w1)
    /\ getMerchantRules (merchantId event) w1 = (Ok rules, w2)
    /\ calculateRiskScore config event w = (Ok riskScore, w')
    /\ riskFactors riskScore = List.map snd (contributions event rules)
    /\ (safe_adjustments rules ->
        integer (total (contributions event rules))
        /\ Qabs (total (contributions event rules)) <= inject_Z (2 ^ 53)
        /\ integer (score riskScore)
        /\ 0 <= score riskScore <= 100
        /\ (0 <= total (contributions event rules) <= 100 ->
            score riskScore == total (contributions event rules))
        /\ (total (contributions event rules) < 0 -> score riskScore == 0)
        /\ (100 < total (contributions event rules) -> score riskScore == 100)
        /\ (isFraud riskScore = true <-> riskThreshold settings <= score riskScore)).
Proof.
  destruct (calculateRiskScore_try_runs config event w)
    as (settings & w1 & rules & w2 & w3 & id & evaluationId & Hs & Hr & _ & Htry).
  cbv zeta in Htry. rewrite Hconnected in Htry.
  exists settings, w1, rules, w2.
  unfold calculateRiskScore, try_catch. rewrite Htry.
  eexists _, _. split; [exact Hs|]. split; [exact Hr|]. split; [reflexivity|].
  cbn [riskFactors score isFraud].
  destruct (tally_contributions event rules) as [Hfactors Htotal].
  split; [exact Hfactors|].
  intros [Hintegers Hbound].
  pose proof (integer_total _ (integer_contributions event rules Hintegers)) as Hint.
  destruct (clamp_bounds (fst (tally event rules))) as (Hrange & Hin & Hlow & Hhigh).
  split; [exact Hint|].
  split.
  { eapply Qle_trans; [apply total_abs|].
    eapply Qle_trans; [apply abs_contributions|exact Hbound]. }
  split.
  { apply integer_clamp. destruct Hint as [n Hn]. exists n. rewrite Htotal. exact Hn. }
  split; [exact Hrange|].
  rewrite <- Htotal.
  split; [exact Hin|]. split; [exact Hlow|]. split; [exact Hhigh|].
  apply Qle_bool_iff.
Qed.

Lemma calculateRiskScore_additive_witness :
  exists riskScore w',
    calculateRiskScore (H := Samples.sample_runtime) default_config
      (Samples.event "merchant-123" "session-123" "203.0.113.7"
         (Samples.device "visitor-123" (Some 0.2) true)
         (Some (Samples.geo "RU")) None)
      (Samples.evaluator_world true)
    = (Ok riskScore, w')
    /\ 0 <= score riskScore <= 100.
Proof.
  destruct (calculateRiskScore_additive (H := Samples.sample_runtime) default_config
              (Samples.event "merchant-123" "session-123" "203.0.113.7"
                 (Samples.device "visitor-123" (Some 0.2) true)
                 (Some (Samples.geo "RU")) None)
              (Samples.evaluator_world true) eq_refl)
    as (settings & w1 & rules & w2 & riskScore & w' & Hs & Hr & Hrun & _ & Hsafe).
  exists riskScore, w'. split; [exact Hrun|].
  vm_compute in Hs. injection Hs as <- <-.
  vm_compute in Hr. injection Hr as <- _.
  apply Hsafe. split.
  - repeat constructor; [exists 30%Z | exists 50%Z]; reflexivity.
  - vm_compute. discriminate.
Defined.

(** The same evaluation, computed: on a first evaluation the cache holds no
    rules, the two sample rules apply, and the sum 30 + 15 + 20 + 30 + 50 is
    clamped to 100. *)
Example calculateRiskScore_sample :
  exists riskScore w',
    calculateRiskScore (H := Samples.sample_runtime) default_config
      (Samples.event "merchant-123" "session-123" "203.0.113.7"
         (Samples.device "visitor-123" (Some 0.2) true)
         (Some (Samples.geo "RU")) None)
      (Samples.evaluator_world true)
    = (Ok riskScore, w')
    /\ score riskScore = 100
    /\ isFraud riskScore = true
    /\ riskFactors riskScore =
         ["low_device_confidence"; "incognito_mode"; "high_risk_country";
          "rule_1"; "rule_2"].
Proof. eexists _, _. split; [vm_compute; reflexivity|]. repeat split. Qed.

(** *** Velocity counters *)

Local Open Scope Z_scope.

Lemma append_same_length_inj (a b x y : string) :
  String.length a = String.length b -> a +:+ x = b +:+ y -> x = y.
Proof.
  revert b. induction a as [|c a IH]; intros [|d b]; cbn; try discriminate.
  - trivial.
  - intros [= Hlen] [= _ Heq]. eapply IH; eassumption.
Qed.

Lemma length_append (a b : string) :
  String.length (a +:+ b) = (String.length a + String.length b)%nat.
Proof.
  induction a as [|c a IH]; [reflexivity|].
  change (S (String.length (a +:+ b)) = S (String.length a + String.length b)).
  f_equal. exact IH.
Qed.

Lemma deviceKey_not_lastSeenKey (v v' : string) : deviceKey v <> lastSeenKey v'.
Proof.
  unfold deviceKey, lastSeenKey. intros Heq.
  apply (inj (String.append "velocity:device:")) in Heq as Hsuffix.
  assert (String.length v = String.length v') as Hlen.
  { apply (f_equal String.length) in Hsuffix. rewrite !length_append in Hsuffix.
    cbn in Hsuffix. lia. }
  apply (append_same_length_inj _ _ _ _ Hlen) in Hsuffix. discriminate.
Qed.

Lemma velocity_keys_distinct (m ip v : string) :
  merchantSessionKey m <> ipSessionKey ip
  /\ merchantSessionKey m <> deviceKey v
  /\ ipSessionKey ip <> deviceKey v
  /\ merchantSessionKey m <> lastSeenKey v
  /\ ipSessionKey ip <> lastSeenKey v
  /\ deviceKey v <> lastSeenKey v.
Proof.
  repeat split;
    try apply deviceKey_not_lastSeenKey;
    unfold merchantSessionKey, ipSessionKey, deviceKey, lastSeenKey;
    intros Heq; vm_compute in Heq; discriminate Heq.
Qed.

Lemma settings_key_not_velocity (m m' ip v : string) :
  settings_key m <> merchantSessionKey m'
  /\ settings_key m <> ipSessionKey ip
  /\ settings_key m <> deviceKey v
  /\ settings_key m <> lastSeenKey v.
Proof.
  repeat split;
    unfold settings_key, merchantSessionKey, ipSessionKey, deviceKey, lastSeenKey;
    intros Heq; vm_compute in Heq; discriminate Heq.
Qed.

Lemma live_after_setex (now ttl : Z) (v : Cached) :
  0 < ttl ->
  Redis.live now {| Redis.value := v; Redis.expires_at := Some (now + ttl) |} = true.
Proof. intros Httl. unfold Redis.live. cbn. apply Z.ltb_lt. lia. Qed.

Lemma after_increment_other (now : Z) (key k : string)
    (db : gmap string (Redis.Entry Cached)) :
  k <> key -> after_increment now key db !! k = db !! k.
Proof.
  intros Hne. unfold after_increment, Redis.INCR, Redis.SETEX.
  repeat case_match; simplify_eq; rewrite ?lookup_insert_ne by congruence; reflexivity.
Qed.

Lemma after_increment_GET (now : Z) (key : string)
    (db : gmap string (Redis.Entry Cached)) :
  is_counter now key db = true ->
  Redis.GET now key (after_increment now key db) = Some (CInt (count now key db + 1)).
Proof.
  unfold is_counter, count, after_increment, Redis.INCR, Redis.GET, Redis.SETEX.
  intros Hcounter.
  destruct (db !! key) as [[v e]|] eqn:Hkey; cbn in *.
  - destruct (Redis.live now {| Redis.value := v; Redis.expires_at := e |}) eqn:Hlive.
    + destruct v as [n| | |]; try discriminate. cbn.
      destruct (n + 1 =? 1) eqn:E.
      * rewrite lookup_insert_eq, live_after_setex by lia.
        apply Z.eqb_eq in E. cbn. do 2 f_equal. lia.
      * rewrite lookup_insert_eq. cbn.
        unfold Redis.live in Hlive |- *. cbn in Hlive |- *. rewrite Hlive. reflexivity.
    + cbn. rewrite lookup_insert_eq, live_after_setex by lia. reflexivity.
  - cbn. rewrite lookup_insert_eq, live_after_setex by lia. reflexivity.
Qed.

Lemma after_increment_TTL (now : Z) (key : string)
    (db : gmap string (Redis.Entry Cached)) :
  is_counter now key db = true ->
  Redis.EXPIRETIME now key (after_increment now key db) =
    if count now key db + 1 =? 1 then Some (now + 24 * 60 * 60)
    else Redis.EXPIRETIME now key db.
Proof.
  unfold is_counter, count, after_increment, Redis.INCR, Redis.GET, Redis.EXPIRETIME,
    Redis.SETEX.
  intros Hcounter.
  destruct (db !! key) as [[v e]|] eqn:Hkey; cbn in *.
  - destruct (Redis.live now {| Redis.value := v; Redis.expires_at := e |}) eqn:Hlive.
    + destruct v as [n| | |]; try discriminate. cbn.
      destruct (n + 1 =? 1) eqn:E.
      * rewrite lookup_insert_eq, live_after_setex by lia. reflexivity.
      * rewrite lookup_insert_eq. cbn.
        unfold Redis.live in Hlive |- *. cbn in Hlive |- *. rewrite Hlive. reflexivity.
    + cbn. rewrite lookup_insert_eq, live_after_setex by lia. reflexivity.
  - cbn. rewrite lookup_insert_eq, live_after_setex by lia. reflexivity.
Qed.

Lemma GET_other (now : Z) (key k : string) (db : gmap string (Redis.Entry Cached)) :
  k <> key ->
  Redis.GET now k (after_increment now key db) = Redis.GET now k db
  /\ Redis.EXPIRETIME now k (after_increment now key db) = Redis.EXPIRETIME now k db
  /\ is_counter now k (after_increment now key db) = is_counter now k db
  /\ count now k (after_increment now key db) = count now k db.
Proof.
  intros Hne. unfold is_counter, count, Redis.GET, Redis.EXPIRETIME.
  rewrite after_increment_other by exact Hne. repeat split.
Qed.

Lemma same_entry (now : Z) (k : string) (db db' : gmap string (Redis.Entry Cached)) :
  db' !! k = db !! k ->
  Redis.GET now k db' = Redis.GET now k db
  /\ Redis.EXPIRETIME now k db' = Redis.EXPIRETIME now k db
  /\ is_counter now k db' = is_counter now k db
  /\ count now k db' = count now k db.
Proof.
  intros Heq. unfold is_counter, count, Redis.GET, Redis.EXPIRETIME. rewrite Heq.
  repeat split.
Qed.

(** One counter of [getVelocityData]: the increment, and the expiry when the
    new count is 1. *)
Lemma counter_step {A} (key : string) (rest : Z -> M World A)
    (w : World) (db : gmap string (Redis.Entry Cached)) :
  redisClient w = Some db ->
  is_counter (seconds w) key db = true ->
  (let* n := incrRedisValue key in
   (if n =? 1 then setRedisValue key (CInt 1) (Some (24 * 60 * 60)) else ret tt) ;;
   rest n) w
  = rest (count (seconds w) key db + 1)
         (set_redis (after_increment (seconds w) key db) w).
Proof.
  intros Hdb Hcounter.
  unfold is_counter, count, Redis.GET in *.
  unfold after_increment, incrRedisValue, bind at 1.
  unfold bind at 1. unfold getRedisClient at 1. rewrite Hdb.
  unfold bind at 1. cbn [gets].
  unfold Redis.INCR.
  destruct (db !! key) as [[v e]|] eqn:Hkey; cbn [Redis.value Redis.expires_at] in *.
  - destruct (Redis.live (seconds w) {| Redis.value := v; Redis.expires_at := e |}).
    + destruct v as [n| | |]; try discriminate. cbn [as_int].
      unfold bind at 1. cbn [modify]. cbn [ret].
      destruct (n + 1 =? 1); reflexivity.
    + unfold bind at 1. cbn [modify ret]. reflexivity.
  - unfold bind at 1. cbn [modify ret]. reflexivity.
Qed.

(** [getVelocityData] on a cache that is reachable and whose three counters
    are well-formed. *)
Lemma getVelocityData_counts (event : EnrichedEvent) (w : World)
    (db : gmap string (Redis.Entry Cached)) :
  let now := seconds w in
  let k1 := merchantSessionKey (merchantId event) in
  let k2 := ipSessionKey (ipAddress event) in
  let k3 := deviceKey (visitorId (fingerprintData event)) in
  let seen := lastSeenKey (visitorId (fingerprintData event)) in
  let db3 := after_increment now k3 (after_increment now k2 (after_increment now k1 db)) in
  redisClient w = Some db ->
  is_counter now k1 db = true ->
  is_counter now k2 db = true ->
  is_counter now k3 db = true ->
  getVelocityData event w =
    (Ok {| sessionCount24h := Some (count now k1 db + 1);
           ipSessionCount24h := Some (count now k2 db + 1);
           deviceSessionCount24h := Some (count now k3 db + 1);
           lastSeenTimestamp := Redis.GET now seen db3 ≫= as_int |},
     set_redis (Redis.SETEX now seen (24 * 60 * 60) (CInt (clock w)) db3) w).
Proof.
  intros now k1 k2 k3 seen db3 Hdb H1 H2 H3.
  destruct (velocity_keys_distinct (merchantId event) (ipAddress event)
              (visitorId (fingerprintData event)))
    as (H12 & H13 & H23 & _).
  fold k1 k2 k3 in H12, H13, H23.
  assert (is_counter now k2 (after_increment now k1 db) = true
          /\ count now k2 (after_increment now k1 db) = count now k2 db) as [H2' C2].
  { destruct (GET_other now k1 k2 db) as (_ & _ & -> & ->); [congruence|]. auto. }
  assert (is_counter now k3 (after_increment now k2 (after_increment now k1 db)) = true
          /\ count now k3 (after_increment now k2 (after_increment now k1 db))
             = count now k3 db) as [H3' C3].
  { destruct (GET_other now k2 k3 (after_increment now k1 db)) as (_ & _ & -> & ->);
      [congruence|].
    destruct (GET_other now k1 k3 db) as (_ & _ & -> & ->); [congruence|]. auto. }
  unfold getVelocityData, try_catch. cbv zeta.
  rewrite (counter_step _ _ w db Hdb H1).
  rewrite (counter_step _ _ (set_redis (after_increment now k1 db) w)
             (after_increment now k1 db) eq_refl H2').
  rewrite (counter_step _ _
             (set_redis (after_increment now k2 (after_increment now k1 db))
                (set_redis (after_increment now k1 db) w))
             (after_increment now k2 (after_increment now k1 db)) eq_refl H3').
  change (seconds (set_redis (after_increment now k2 (after_increment now k1 db))
                     (set_redis (after_increment now k1 db) w))) with now.
  change (seconds (set_redis (after_increment now k1 db) w)) with now.
  rewrite C2, C3. fold db3.
  reflexivity.
Qed.

(** [getMerchantSettings] on a reachable cache: it can only write the
    settings key of the merchant. *)
Lemma getMerchantSettings_cache (merchant : string) (w : World)
    (db : gmap string (Redis.Entry Cached)) :
  redisClient w = Some db ->
  exists settings w1 db1,
    getMerchantSettings merchant w = (Ok settings, w1)
    /\ redisClient w1 = Some db1
    /\ clock w1 = clock w
    /\ geoIpReader w1 = geoIpReader w
    /\ forall k, k <> settings_key merchant -> db1 !! k = db !! k.
Proof.
  intros Hdb.
  unfold getMerchantSettings, try_catch, getRedisJson, setRedisValue, bind,
    getRedisClient, gets, logger_error, modify, ret.
  rewrite Hdb.
  destruct (Redis.GET (seconds w) (settings_key merchant) db) as [[n|s|rs|[|c t]]|];
    cbn; rewrite ?Hdb; cbn;
    eexists _, _, _; (split; [reflexivity|]); cbn;
    (split; [first [reflexivity | eassumption]|]);
    (split; [reflexivity|]); (split; [reflexivity|]);
    intros k Hk; unfold Redis.SETEX; rewrite ?lookup_insert_ne by congruence;
    reflexivity.
Qed.

Lemma lookupIp_runs (ip : string) (w : World) : exists geo, lookupIp ip w = (Ok geo, w).
Proof.
  unfold lookupIp. destruct (geoIpReader w) as [reader|]; [|eexists; reflexivity].
  destruct (reader ip); eexists; reflexivity.
Qed.

(** What an increment does to its key depends on that key alone. *)
Lemma after_increment_congr (now : Z) (key : string)
    (db db' : gmap string (Redis.Entry Cached)) :
  db' !! key = db !! key ->
  after_increment now key db' !! key = after_increment now key db !! key.
Proof.
  intros Heq. unfold after_increment, Redis.INCR, Redis.SETEX. rewrite Heq.
  repeat case_match; simplify_eq; try congruence;
    rewrite ?lookup_insert_eq; try reflexivity; assumption.
Qed.

Lemma counter_after (now : Z) (key : string)
    (db before final : gmap string (Redis.Entry Cached)) :
  is_counter now key db = true ->
  before !! key = db !! key ->
  final !! key = after_increment now key before !! key ->
  Redis.GET now key final = Some (CInt (count now key db + 1))
  /\ Redis.EXPIRETIME now key final =
       if count now key db + 1 =? 1 then Some (now + 24 * 60 * 60)
       else Redis.EXPIRETIME now key db.
Proof.
  intros Hcounter Hbefore Hfinal.
  rewrite (after_increment_congr now key db before Hbefore) in Hfinal.
  destruct (same_entry now key _ _ Hfinal) as (-> & -> & _).
  split; [apply after_increment_GET | apply after_increment_TTL]; exact Hcounter.
Qed.

(** C8 (as amended).  When the cache is reachable and its counters are
    well-formed, the enrichment of an evaluation increments exactly three
    counters, each once: the one of the merchant
    ([velocity:merchant:ID:sessions], which does not depend on the session),
    the one of the source ip and the one of the device.  The counts it
    reports are the new values.  A counter gets its 24-hour expiry exactly
    when its new count is 1, and keeps the expiry it had otherwise.  Besides
    these three keys only the last-seen key of the device and the settings
    key of the merchant can change. *)
Theorem enrichData_velocity_counters
    (event : EnrichedEvent) (w : World) (db : gmap string (Redis.Entry Cached))
    (Hclient : redisClient w = Some db)
    (Hsession :
       is_counter (seconds w) (merchantSessionKey (merchantId event)) db = true)
    (Hip : is_counter (seconds w) (ipSessionKey (ipAddress event)) db = true)
    (Hdevice :
       is_counter (seconds w) (deviceKey (visitorId (fingerprintData event))) db
       = true) :
  let now := seconds w in
  let k1 := merchantSessionKey (merchantId event) in
  let k2 := ipSessionKey (ipAddress event) in
  let k3 := deviceKey (visitorId (fingerprintData event)) in
  let seen := lastSeenKey (visitorId (fingerprintData event)) in
  k1 = "velocity:merchant:" +:+ merchantId event +:+ ":sessions"
  /\ k2 = "velocity:ip:" +:+ ipAddress event +:+ ":sessions"
  /\ k3 = "velocity:device:" +:+ visitorId (fingerprintData event) +:+ ":sessions"
  /\ exists event' w' db' v,
      enrichData event w = (Ok event', w')
      /\ redisClient w' = Some db'
      /\ velocityData event' = Some v
      /\ sessionCount24h v = Some (count now k1 db + 1)
      /\ ipSessionCount24h v = Some (count now k2 db + 1)
      /\ deviceSessionCount24h v = Some (count now k3 db + 1)
      /\ (forall k, k ∈ [k1; k2; k3] ->
            Redis.GET now k db' = Some (CInt (count now k db + 1))
            /\ Redis.EXPIRETIME now k db' =
                 if count now k db + 1 =? 1 then Some (now + 24 * 60 * 60)
                 else Redis.EXPIRETIME now k db)
      /\ (forall k, k ∉ [k1; k2; k3; seen; settings_key (merchantId event)] ->
            db' !! k = db !! k).
Proof.
  intros now k1 k2 k3 seen.
  split; [reflexivity|]. split; [reflexivity|]. split; [reflexivity|].
  destruct (velocity_keys_distinct (merchantId event) (ipAddress event)
              (visitorId (fingerprintData event)))
    as (H12 & H13 & H23 & H1s & H2s & H3s).
  destruct (settings_key_not_velocity (merchantId event) (merchantId event)
              (ipAddress event) (visitorId (fingerprintData event)))
    as (Hc1 & Hc2 & Hc3 & _).
  fold k1 k2 k3 seen in H12, H13, H23, H1s, H2s, H3s, Hc1, Hc2, Hc3.
  destruct (getMerchantSettings_cache (merchantId event) w db Hclient)
    as (settings & w1 & db1 & Hsettings & Hdb1 & Hclock & _ & Hsame).
  assert (seconds w1 = now) as Hnow by (unfold now, seconds; rewrite Hclock; reflexivity).
  pose proof (Hsame k1 (not_eq_sym Hc1)) as E1.
  pose proof (Hsame k2 (not_eq_sym Hc2)) as E2.
  pose proof (Hsame k3 (not_eq_sym Hc3)) as E3.
  destruct (lookupIp_runs (ipAddress event) w1) as [geo Hgeo].
  pose (event1 := if ipAnonymization settings
                  then with_anonymizedIp (anonymizeIp (ipAddress event)) event
                  else event).
  pose (event2 := with_geoData geo event1).
  assert (merchantId event2 = merchantId event
          /\ ipAddress event2 = ipAddress event
          /\ fingerprintData event2 = fingerprintData event) as (Em & Ei & Ef).
  { unfold event2, event1. destruct (ipAnonymization settings); repeat split. }
  pose proof (getVelocityData_counts event2 w1 db1) as Hv.
  cbv zeta in Hv. rewrite Em, Ei, Ef, Hnow in Hv. fold k1 k2 k3 seen in Hv.
  specialize (Hv Hdb1).
  destruct (same_entry now k1 db db1 E1) as (_ & _ & I1 & C1).
  destruct (same_entry now k2 db db1 E2) as (_ & _ & I2 & C2).
  destruct (same_entry now k3 db db1 E3) as (_ & _ & I3 & C3).
  rewrite I1, I2, I3, C1, C2, C3 in Hv.
  specialize (Hv Hsession Hip Hdevice).
  unfold enrichData, try_catch.
  unfold bind at 1. rewrite Hsettings. fold event1.
  assert (ipAddress event1 = ipAddress event) as ->
    by (unfold event1; destruct (ipAnonymization settings); reflexivity).
  unfold bind at 1. rewrite Hgeo. fold event2.
  unfold bind at 1. rewrite Hv. cbn [ret].
  eexists _, _, _, _. split; [reflexivity|].
  split; [reflexivity|]. split; [reflexivity|]. cbn [sessionCount24h ipSessionCount24h deviceSessionCount24h].
  split; [reflexivity|]. split; [reflexivity|]. split; [reflexivity|].
  split.
  - intros k Hk. rewrite !elem_of_cons, elem_of_nil in Hk.
    destruct Hk as [->|[->|[->|[]]]].
    + apply (counter_after now k1 db db1); [exact Hsession | exact E1 |].
      unfold Redis.SETEX. rewrite lookup_insert_ne by congruence.
      rewrite !after_increment_other by congruence. reflexivity.
    + apply (counter_after now k2 db (after_increment now k1 db1));
        [exact Hip | rewrite after_increment_other by congruence; exact E2 |].
      unfold Redis.SETEX. rewrite lookup_insert_ne by congruence.
      rewrite (after_increment_other now k3 k2) by congruence. reflexivity.
    + apply (counter_after now k3 db
               (after_increment now k2 (after_increment now k1 db1)));
        [exact Hdevice | rewrite !after_increment_other by congruence; exact E3 |].
      unfold Redis.SETEX. rewrite lookup_insert_ne by congruence. reflexivity.
  - intros k Hk. rewrite !not_elem_of_cons in Hk.
    destruct Hk as (N1 & N2 & N3 & Ns & Nc & _).
    unfold Redis.SETEX. rewrite lookup_insert_ne by congruence.
    rewrite !after_increment_other by congruence.
    apply Hsame. exact Nc.
Qed.

Lemma enrichData_velocity_counters_witness :
  exists event' w',
    enrichData
      (Samples.event "merchant-123" "session-1" "203.0.113.7"
         (Samples.device "visitor-1" (Some 0.9%Q) false) None None)
      (Samples.evaluator_world true)
    = (Ok event', w')
    /\ velocityData event' ≫= sessionCount24h = Some 1.
Proof.
  destruct (enrichData_velocity_counters
              (Samples.event "merchant-123" "session-1" "203.0.113.7"
                 (Samples.device "visitor-1" (Some 0.9%Q) false) None None)
              (Samples.evaluator_world true) ∅ eq_refl)
    as (_ & _ & _ & event' & w' & db' & v & Hrun & _ & Hv & Hcount & _);
    [vm_compute; reflexivity | vm_compute; reflexivity | vm_compute; reflexivity |].
  exists event', w'. split; [exact Hrun|].
  rewrite Hv. cbn [mbind option_bind]. rewrite Hcount. reflexivity.
Defined.

(** C8, as stated, fails: the first counter is keyed by the merchant alone.
    Two evaluations of the same merchant with different sessions, ips and
    devices hit the same session counter, so the second one reads 2 there
    (and 1 on its ip and device counters). *)
Lemma session_counter_ignores_session :
  exists event1 w1 event2 w2,
    enrichData
      (Samples.event "merchant-123" "session-1" "203.0.113.7"
         (Samples.device "visitor-1" (Some 0.9%Q) false) None None)
      (Samples.evaluator_world true)
    = (Ok event1, w1)
    /\ enrichData
         (Samples.event "merchant-123" "session-2" "198.51.100.9"
            (Samples.device "visitor-2" (Some 0.9%Q) false) None None)
         w1
       = (Ok event2, w2)
    /\ sessionId event1 <> sessionId event2
    /\ velocityData event1 ≫= sessionCount24h = Some 1
    /\ velocityData event2 ≫= sessionCount24h = Some 2
    /\ velocityData event2 ≫= ipSessionCount24h = Some 1
    /\ velocityData event2 ≫= deviceSessionCount24h = Some 1.
Proof.
  eexists _, _, _, _.
  split; [vm_compute; reflexivity|].
  split; [vm_compute; reflexivity|].
  split; [discriminate|]. repeat split.
Qed.

End EvaluatorProperties.

(** * Further properties of the Decisioner *)

Module DecisionerExtras.
Import Js Condition Decisioner.
Import DecisionerProperties.

Local Open Scope Q_scope.

(** *** Monotonicity *)

(** X1.  The risk level never decreases when the score increases. *)
Theorem getRiskLevel_monotone (s s' : Q) (Hle : s <= s') :
  (level_rank (getRiskLevel s) <= level_rank (getRiskLevel s'))%nat.
Proof.
  unfold getRiskLevel.
  destruct (Qle_bool 0.9 s) eqn:A9; [apply Qle_bool_true in A9 | apply Qle_bool_false in A9];
  destruct (Qle_bool 0.7 s) eqn:A7; [apply Qle_bool_true in A7 | apply Qle_bool_false in A7 | apply Qle_bool_true in A7 | apply Qle_bool_false in A7];
  destruct (Qle_bool 0.4 s) eqn:A4;
  destruct (Qle_bool 0.9 s') eqn:B9;
  destruct (Qle_bool 0.7 s') eqn:B7;
  destruct (Qle_bool 0.4 s') eqn:B4;
  cbn; try lia;
  repeat match goal with
  | E : Qle_bool _ _ = true |- _ => apply Qle_bool_true in E
  | E : Qle_bool _ _ = false |- _ => apply Qle_bool_false in E
  end; lra.
Qed.

Lemma getRiskLevel_monotone_witness :
  (level_rank (getRiskLevel 0.5) <= level_rank (getRiskLevel 0.8))%nat.
Proof. apply (getRiskLevel_monotone 0.5 0.8). unfold Qle. cbn. lia. Defined.

Lemma threshold_decision_fst `{Runtime} (rs : RiskScore) (mr : MerchantRules) :
  fst (threshold_decision rs mr) =
    if Qle_bool (highRiskThreshold mr) (score rs)
    then (if automaticReject mr then Reject else Review)
    else if Qle_bool (riskThreshold mr) (score rs) then Review else Approve.
Proof.
  unfold threshold_decision.
  destruct (Qle_bool (highRiskThreshold mr) (score rs));
    [|destruct (Qle_bool (riskThreshold mr) (score rs))];
    destruct (riskFactors rs); reflexivity.
Qed.

Lemma decide_thresholds `{Runtime} (rs : RiskScore) (mr : MerchantRules)
    (decisionId : string) (w : World) :
  applyCustomRules rs mr = None ->
  exists td,
    decide rs mr decisionId w = (Ok td, w)
    /\ decision td = fst (threshold_decision rs mr)
    /\ reasoning td = snd (threshold_decision rs mr)
    /\ riskScore td = score rs
    /\ td_id td = decisionId
    /\ td_evaluationId td = rs_evaluationId rs.
Proof.
  intros Hnone. unfold decide. rewrite Hnone.
  destruct (threshold_decision rs mr) as [d reasons].
  eexists. split; [reflexivity|]. repeat split.
Qed.

(** X2.  Without a matching custom rule, a higher score never gets a milder
    decision from the same merchant rules (approve < review < reject),
    whatever the order of the two thresholds. *)
Theorem threshold_decision_monotone `{Runtime}
    (rs rs' : RiskScore) (mr : MerchantRules) (id id' : string) (w w' : World)
    (Hnone : applyCustomRules rs mr = None)
    (Hnone' : applyCustomRules rs' mr = None)
    (Hle : score rs <= score rs') :
  exists td td',
    decide rs mr id w = (Ok td, w)
    /\ decide rs' mr id' w' = (Ok td', w')
    /\ (severity (decision td) <= severity (decision td'))%nat.
Proof.
  destruct (decide_thresholds rs mr id w Hnone) as (td & Hrun & Hd & _).
  destruct (decide_thresholds rs' mr id' w' Hnone') as (td' & Hrun' & Hd' & _).
  exists td, td'. split; [exact Hrun|]. split; [exact Hrun'|].
  rewrite Hd, Hd', !threshold_decision_fst.
  destruct (Qle_bool (highRiskThreshold mr) (score rs)) eqn:A;
    [apply Qle_bool_true in A | apply Qle_bool_false in A];
  (destruct (Qle_bool (highRiskThreshold mr) (score rs')) eqn:B;
    [apply Qle_bool_true in B | apply Qle_bool_false in B]);
  (destruct (Qle_bool (riskThreshold mr) (score rs)) eqn:C;
    [apply Qle_bool_true in C | apply Qle_bool_false in C]);
  (destruct (Qle_bool (riskThreshold mr) (score rs')) eqn:D;
    [apply Qle_bool_true in D | apply Qle_bool_false in D]);
  destruct (automaticReject mr); cbn; try lia; lra.
Qed.

Lemma threshold_decision_monotone_witness :
  exists td td',
    decide (H := Samples.sample_runtime)
      (Samples.risk_score 0.75 []) (Samples.merchant_rules 0.7 0.9 true None)
      "decision-1" Samples.decisioner_world = (Ok td, Samples.decisioner_world)
    /\ decide (H := Samples.sample_runtime)
         (Samples.risk_score 0.95 []) (Samples.merchant_rules 0.7 0.9 true None)
         "decision-2" Samples.decisioner_world = (Ok td', Samples.decisioner_world)
    /\ (severity (decision td) <= severity (decision td'))%nat.
Proof.
  apply (threshold_decision_monotone (H := Samples.sample_runtime)
           (Samples.risk_score 0.75 []) (Samples.risk_score 0.95 [])
           (Samples.merchant_rules 0.7 0.9 true None)
           "decision-1" "decision-2"
           Samples.decisioner_world Samples.decisioner_world
           eq_refl eq_refl).
  unfold Qle. cbn. lia.
Defined.

(** *** The order of the rule list *)

(** X3.  When no two enabled matching rules have the same priority, the
    result of the custom-rule step does not depend on the order of the rule
    list: the list order only breaks ties. *)
Theorem applyCustomRules_order_irrelevant `{Runtime}
    (rs : RiskScore) (mr mr' : MerchantRules)
    (Hperm : default [] (customRules mr) ≡ₚ default [] (customRules mr'))
    (Hdistinct :
       forall r r',
         r ∈ default [] (customRules mr) -> r' ∈ default [] (customRules mr) ->
         isEnabled r && matchesRule (RiskScore_object rs) r = true ->
         isEnabled r' && matchesRule (RiskScore_object rs) r' = true ->
         priority r == priority r' -> r = r') :
  applyCustomRules rs mr = applyCustomRules rs mr'.
Proof.
  rewrite !applyCustomRules_winner.
  set (p := fun rule => isEnabled rule && matchesRule (RiskScore_object rs) rule) in *.
  set (l := default [] (customRules mr)) in *.
  set (l' := default [] (customRules mr')) in *.
  destruct (winner priority p l) as [r|] eqn:E; destruct (winner priority p l') as [r'|] eqn:E'.
  - apply winner_Some in E as (i & Hi & Hp & Htop).
    apply winner_Some in E' as (i' & Hi' & Hp' & Htop').
    assert (r ∈ l) as Hin by (eapply list_elem_of_lookup_2; eassumption).
    assert (r' ∈ l') as Hin' by (eapply list_elem_of_lookup_2; eassumption).
    assert (r' ∈ l) as Hr'l by (rewrite Hperm; exact Hin').
    assert (r ∈ l') as Hrl' by (rewrite <- Hperm; exact Hin).
    apply list_elem_of_lookup_1 in Hr'l as Hj. destruct Hj as [j Hj].
    apply list_elem_of_lookup_1 in Hrl' as Hj'. destruct Hj' as [j' Hj'].
    destruct (Htop j r' Hj Hp') as [Hlt|[Heq _]];
      destruct (Htop' j' r Hj' Hp) as [Hlt'|[Heq' _]].
    + lra.
    + rewrite (Hdistinct r r' Hin Hr'l Hp Hp' Heq'). reflexivity.
    + rewrite (Hdistinct r r' Hin Hr'l Hp Hp'); [reflexivity|]. symmetry. exact Heq.
    + rewrite (Hdistinct r r' Hin Hr'l Hp Hp' Heq'). reflexivity.
  - apply winner_Some in E as (i & Hi & Hp & _).
    rewrite winner_None in E'.
    assert (r ∈ l') as Hrl'
      by (rewrite <- Hperm; eapply list_elem_of_lookup_2; eassumption).
    rewrite (E' r Hrl') in Hp. discriminate.
  - apply winner_Some in E' as (i' & Hi' & Hp' & _).
    rewrite winner_None in E.
    assert (r' ∈ l) as Hr'l
      by (rewrite Hperm; eapply list_elem_of_lookup_2; eassumption).
    rewrite (E r' Hr'l) in Hp'. discriminate.
  - reflexivity.
Qed.

Lemma applyCustomRules_order_irrelevant_witness :
  applyCustomRules (H := Samples.sample_runtime)
    (Samples.risk_score 0.5 ["high_risk_country"; "unusual_behavior"])
    (Samples.merchant_rules 0.7 0.9 true
       (Some [Samples.rule_on_factor "a" "high_risk_country" Review 10 true;
              Samples.rule_on_factor "b" "unusual_behavior" Reject 20 true]))
  = applyCustomRules (H := Samples.sample_runtime)
      (Samples.risk_score 0.5 ["high_risk_country"; "unusual_behavior"])
      (Samples.merchant_rules 0.7 0.9 true
         (Some [Samples.rule_on_factor "b" "unusual_behavior" Reject 20 true;
                Samples.rule_on_factor "a" "high_risk_country" Review 10 true])).
Proof.
  apply (applyCustomRules_order_irrelevant (H := Samples.sample_runtime)).
  - cbn. apply Permutation_swap.
  - cbn. intros r r' Hr Hr' _ _ Heq.
    rewrite !elem_of_cons, elem_of_nil in Hr, Hr'.
    destruct Hr as [->|[->|[]]]; destruct Hr' as [->|[->|[]]];
      try reflexivity; vm_compute in Heq; discriminate Heq.
Defined.

(** *** The cache of the Decisioner *)

Section Cache.
Context `{Runtime}.
Variable config : Config.

Local Open Scope Z_scope.

(** A lookup of rules on a reachable cache: it returns what the key holds
    and can only add to the error log. *)
Lemma redisService_getMerchantRules_reads merchantId w db :
  redis_client w = Some db ->
  exists w1,
    redisService_getMerchantRules merchantId w =
      (Ok (rules_of (Redis.GET (seconds w) (rules_key merchantId) db)), w1)
    /\ w1 = set_error_log (error_log w1) w
    /\ exists logged, error_log w1 = (error_log w ++ logged)%list.
Proof.
  intros Hdb. unfold redisService_getMerchantRules, bind, redisService_get.
  rewrite Hdb.
  destruct (Redis.GET (seconds w) (rules_key merchantId) db) as [[r|d|[|c s]]|];
    cbn; eexists; (split; [reflexivity|]);
    (split; [destruct w; reflexivity|]); cbn;
    first [ exists []; rewrite app_nil_r; reflexivity | eexists; reflexivity ].
Qed.

Lemma set_error_log_fields l w :
  redis_client (set_error_log l w) = redis_client w
  /\ producer_connected (set_error_log l w) = producer_connected w
  /\ published (set_error_log l w) = published w
  /\ clock (set_error_log l w) = clock w
  /\ uuid_seed (set_error_log l w) = uuid_seed w
  /\ seconds (set_error_log l w) = seconds w.
Proof. repeat split. Qed.

(** The rules that [getMerchantRules] returns, from what the cache holds
    under the key of the merchant and under the key of ['default']. *)
Lemma getMerchantRules_reads merchantId w db :
  redis_client w = Some db ->
  exists w1,
    getMerchantRules config merchantId w =
      (Ok match rules_of (Redis.GET (seconds w) (rules_key merchantId) db) with
          | Some r => r
          | None =>
              match rules_of (Redis.GET (seconds w) (rules_key "default") db) with
              | Some d =>
                  {| mr_merchantId := merchantId;
                     riskThreshold := riskThreshold d;
                     highRiskThreshold := highRiskThreshold d;
                     automaticReject := automaticReject d;
                     manualReviewThreshold := manualReviewThreshold d;
                     customRules := customRules d;
                     updatedAt := updatedAt d |}
              | None =>
                  {| mr_merchantId := merchantId;
                     riskThreshold := defaultRiskThreshold config;
                     highRiskThreshold := config_highRiskThreshold config;
                     automaticReject := true;
                     manualReviewThreshold := None;
                     customRules := None;
                     updatedAt := clock w |}
              end
          end, w1)
    /\ w1 = set_error_log (error_log w1) w
    /\ exists logged, error_log w1 = (error_log w ++ logged)%list.
Proof.
  intros Hdb. unfold getMerchantRules.
  destruct (redisService_getMerchantRules_reads merchantId w db Hdb)
    as (w1 & Hr1 & Hw1 & l1 & Hl1).
  unfold bind at 1. rewrite Hr1.
  destruct (rules_of (Redis.GET (seconds w) (rules_key merchantId) db)) as [r|].
  { exists w1. split; [reflexivity|]. split; [exact Hw1|]. exists l1. exact Hl1. }
  assert (redis_client w1 = Some db) as Hdb1 by (rewrite Hw1; exact Hdb).
  destruct (redisService_getMerchantRules_reads "default" w1 db Hdb1)
    as (w2 & Hr2 & Hw2 & l2 & Hl2).
  assert (seconds w1 = seconds w) as Hs by (rewrite Hw1; reflexivity).
  rewrite Hs in Hr2.
  unfold bind at 1. rewrite Hr2.
  assert (w2 = set_error_log (error_log w2) w) as Hw2'
    by (rewrite Hw2, Hw1; reflexivity).
  assert (error_log w2 = (error_log w ++ (l1 ++ l2))%list) as Hl
    by (rewrite Hl2, Hl1, app_assoc; reflexivity).
  destruct (rules_of (Redis.GET (seconds w) (rules_key "default") db)) as [d|].
  { exists w2. split; [reflexivity|]. split; [exact Hw2'|]. eexists; exact Hl. }
  exists w2. split; [|split; [exact Hw2'|eexists; exact Hl]].
  unfold bind, Date_now, gets, ret. rewrite Hw2'. reflexivity.
Qed.

End Cache.

(** *** Round trips through the cache *)

Local Open Scope Z_scope.

Lemma append_same_length_inj_l (a b x y : string) :
  String.length a = String.length b -> a +:+ x = b +:+ y -> a = b.
Proof.
  revert b. induction a as [|c a IH]; intros [|d b]; cbn; try discriminate.
  - reflexivity.
  - intros [= Hlen] [= -> Heq]. f_equal. eapply IH; eassumption.
Qed.

Lemma append_inj_l (a b x : string) : a +:+ x = b +:+ x -> a = b.
Proof.
  intros Heq. apply (append_same_length_inj_l a b x x); [|exact Heq].
  apply (f_equal String.length) in Heq.
  rewrite !EvaluatorProperties.length_append in Heq. lia.
Qed.

Lemma rules_key_inj (m m' : string) : rules_key m = rules_key m' -> m = m'.
Proof.
  unfold rules_key. intros Heq.
  apply (inj (String.append "merchant:")) in Heq.
  exact (append_inj_l _ _ _ Heq).
Qed.

Lemma decision_key_inj (i i' : string) : decision_key i = decision_key i' -> i = i'.
Proof. unfold decision_key. apply (inj (String.append "decision:")). Qed.

Lemma decision_key_not_rules_key (i m : string) : decision_key i <> rules_key m.
Proof.
  unfold decision_key, rules_key. intros Heq. vm_compute in Heq. discriminate Heq.
Qed.

(** X4.  A stored decision can be read back by its id at every instant
    whose whole second comes less than 86400 seconds after the whole second
    of the store (so during the first 86399 seconds at least), and is gone
    (404) at every instant that is 86400 seconds or more after the store. *)
Theorem stored_decision_lookup
    (decisionId : string) (d : TransactionDecision) (w : World)
    (db : gmap string (Redis.Entry Doc))
    (Hclient : redis_client w = Some db) :
  exists w1,
    storeDecision decisionId d w = (Ok tt, w1)
    /\ (forall t,
          t / 1000 < clock w / 1000 + 86400 ->
          getDecisionById decisionId (set_clock t w1)
          = (Ok (Reply200 d), set_clock t w1))
    /\ (forall t,
          clock w + 86400 * 1000 <= t ->
          getDecisionById decisionId (set_clock t w1)
          = (Ok (Reply404 ("Decision with ID " +:+ decisionId +:+ " not found")),
             set_clock t w1)).
Proof.
  unfold storeDecision, redisService_set. rewrite Hclient. cbn [Z.eqb].
  eexists. split; [reflexivity|].
  assert (forall t,
            getDecisionById decisionId
              (set_clock t
                 (set_redis
                    (Redis.SETEX (seconds w) (decision_key decisionId) 86400
                       (DocDecision d) db) w))
            = (Ok (if t / 1000 <? clock w / 1000 + 86400
                   then Reply200 d
                   else Reply404 ("Decision with ID " +:+ decisionId +:+ " not found")),
               set_clock t
                 (set_redis
                    (Redis.SETEX (seconds w) (decision_key decisionId) 86400
                       (DocDecision d) db) w))) as Hget.
  { intros t.
    unfold getDecisionById, redisService_getDecision, bind, redisService_get.
    cbn [redis_client set_clock set_redis].
    unfold Redis.GET, Redis.SETEX. rewrite lookup_insert_eq.
    unfold Redis.live. cbn [Redis.expires_at Redis.value].
    change (seconds (set_clock t (set_redis _ w))) with (t / 1000).
    unfold seconds.
    destruct (t / 1000 <? clock w / 1000 + 86400); reflexivity. }
  split; intros t Ht; rewrite Hget.
  - replace (t / 1000 <? clock w / 1000 + 86400) with true
      by (symmetry; apply Z.ltb_lt; exact Ht).
    reflexivity.
  - replace (t / 1000 <? clock w / 1000 + 86400) with false
      by (symmetry; apply Z.ltb_ge; Z.div_mod_to_equations; lia).
    reflexivity.
Qed.

Lemma stored_decision_lookup_witness :
  exists w1,
    storeDecision "decision-1"
      {| td_id := "decision-1"; td_evaluationId := "eval-123";
         td_merchantId := "merchant-123"; td_transactionId := None;
         td_userId := None; decision := Review; riskScore := 0.75%Q;
         riskLevel := High; reasoning := []; createdAt := 0;
         td_metadata := None |}
      Samples.decisioner_world = (Ok tt, w1)
    /\ exists d,
        getDecisionById "decision-1" (set_clock 1700000001000 w1)
        = (Ok (Reply200 d), set_clock 1700000001000 w1).
Proof.
  destruct (stored_decision_lookup "decision-1"
              {| td_id := "decision-1"; td_evaluationId := "eval-123";
                 td_merchantId := "merchant-123"; td_transactionId := None;
                 td_userId := None; decision := Review; riskScore := 0.75%Q;
                 riskLevel := High; reasoning := []; createdAt := 0;
                 td_metadata := None |}
              Samples.decisioner_world ∅ eq_refl) as (w1 & Hstore & Hget & _).
  exists w1. split; [exact Hstore|]. eexists. apply Hget. vm_compute. reflexivity.
Defined.

(** X5.  Rules stored for a merchant are what [getMerchantRules] returns for
    that merchant from then on, at any time: they do not expire and no
    fallback is consulted. *)
Theorem stored_rules_lookup
    (config : Config) (merchantId : string) (rules : MerchantRules) (w : World)
    (db : gmap string (Redis.Entry Doc))
    (Hclient : redis_client w = Some db) :
  exists w1,
    storeMerchantRules merchantId rules w = (Ok tt, w1)
    /\ forall t,
        getMerchantRules config merchantId (set_clock t w1)
        = (Ok rules, set_clock t w1).
Proof.
  unfold storeMerchantRules, redisService_set. rewrite Hclient.
  eexists. split; [reflexivity|]. intros t.
  unfold getMerchantRules, redisService_getMerchantRules, bind, redisService_get.
  cbn [redis_client set_clock set_redis].
  unfold Redis.GET, Redis.SET. rewrite lookup_insert_eq. reflexivity.
Qed.

Lemma stored_rules_lookup_witness :
  exists w1,
    storeMerchantRules "merchant-123"
      (Samples.merchant_rules 0.5%Q 0.8%Q false None) Samples.decisioner_world
    = (Ok tt, w1)
    /\ getMerchantRules Samples.default_decisioner_config "merchant-123"
         (set_clock 1800000000000 w1)
       = (Ok (Samples.merchant_rules 0.5%Q 0.8%Q false None),
          set_clock 1800000000000 w1).
Proof.
  destruct (stored_rules_lookup Samples.default_decisioner_config "merchant-123"
              (Samples.merchant_rules 0.5%Q 0.8%Q false None)
              Samples.decisioner_world ∅ eq_refl) as (w1 & Hstore & Hget).
  exists w1. split; [exact Hstore | apply Hget].
Defined.

(** *** The default tenant *)

(** X6.  After [initialize] on a reachable cache, a merchant without rules
    of its own gets the rules of the ['default'] tenant under its own id:
    the configured thresholds, [automaticReject], and the one custom rule
    that sends a risk score listing [high_risk_country] to review with
    priority 100.  Without a cache client [initialize] logs and rejects. *)
Theorem initialize_default_tenant
    (config : Config) (w : World) (db : gmap string (Redis.Entry Doc))
    (Hclient : redis_client w = Some db) :
  (exists w1,
      initialize config w = (Ok tt, w1)
      /\ forall merchantId t,
          Redis.GET (t / 1000) (rules_key merchantId) db = None ->
          exists rules rule,
            getMerchantRules config merchantId (set_clock t w1)
            = (Ok rules, set_clock t w1)
            /\ mr_merchantId rules = merchantId
            /\ riskThreshold rules = defaultRiskThreshold config
            /\ highRiskThreshold rules = config_highRiskThreshold config
            /\ automaticReject rules = true
            /\ customRules rules = Some [rule]
            /\ conditions rule =
                 [ {| field := "riskFactors"; operator := OpContains;
                      value := JStr "high_risk_country" |} ]
            /\ action rule = Review
            /\ priority rule = 100%Q
            /\ isEnabled rule = true)
  /\ forall w0,
      redis_client w0 = None ->
      initialize config w0
      = (Throw "Redis client not initialized",
         set_error_log
           (error_log w0
            ++ ["Failed to initialize decision service: Redis client not initialized"])%list
           w0).
Proof.
  split.
  - unfold initialize, try_catch, setupDefaultMerchantRules, storeMerchantRules,
      bind, Date_now, gets, redisService_set. cbn. rewrite Hclient.
    eexists. split; [reflexivity|]. intros merchantId t Hmissing.
    unfold getMerchantRules, redisService_getMerchantRules, bind, redisService_get.
    cbn [redis_client set_clock set_redis].
    change (seconds (set_clock t (set_redis _ w))) with (t / 1000).
    destruct (base.decide (rules_key "default" = rules_key merchantId)) as [Heq|Hne].
    + apply rules_key_inj in Heq. subst merchantId.
      unfold Redis.GET, Redis.SET. rewrite lookup_insert_eq. cbn.
      eexists _, _. split; [reflexivity|]. cbn. repeat split.
    + assert (Redis.GET (t / 1000) (rules_key merchantId)
                (Redis.SET (rules_key "default")
                   (DocRules
                      {| mr_merchantId := "default";
                         riskThreshold := defaultRiskThreshold config;
                         highRiskThreshold := config_highRiskThreshold config;
                         automaticReject := true;
                         manualReviewThreshold := Some 0.8%Q;
                         customRules :=
                           Some [ {| rule_id := "high-risk-country";
                                     rule_name := "High Risk Country";
                                     rule_description :=
                                       Some "Transactions from high-risk countries require manual review";
                                     conditions :=
                                       [ {| field := "riskFactors"; operator := OpContains;
                                            value := JStr "high_risk_country" |} ];
                                     action := Review;
                                     priority := 100;
                                     isEnabled := true |} ];
                         updatedAt := clock w |}) db) = None) as ->.
      { unfold Redis.GET, Redis.SET in *. rewrite lookup_insert_ne by exact Hne.
        exact Hmissing. }
      cbn -[Redis.GET Redis.SET rules_key seconds].
      change (seconds (set_clock t (set_redis _ w))) with (t / 1000).
      unfold Redis.GET, Redis.SET. rewrite lookup_insert_eq. cbn.
      eexists _, _. split; [reflexivity|]. cbn. repeat split.
  - intros w0 Hnone.
    unfold initialize, try_catch, setupDefaultMerchantRules, storeMerchantRules,
      bind, Date_now, gets, redisService_set. cbn. rewrite Hnone. reflexivity.
Qed.

Lemma initialize_default_tenant_witness :
  exists w1,
    initialize Samples.default_decisioner_config Samples.decisioner_world = (Ok tt, w1)
    /\ exists rules,
        getMerchantRules Samples.default_decisioner_config "merchant-9"
          (set_clock 1700000000000 w1)
        = (Ok rules, set_clock 1700000000000 w1)
        /\ mr_merchantId rules = "merchant-9"
        /\ automaticReject rules = true.
Proof.
  destruct (initialize_default_tenant Samples.default_decisioner_config
              Samples.decisioner_world ∅ eq_refl) as [(w1 & Hinit & Hget) _].
  exists w1. split; [exact Hinit|].
  destruct (Hget "merchant-9" 1700000000000 eq_refl)
    as (rules & rule & Hrun & Hm & _ & _ & Hrej & _).
  exists rules. repeat split; assumption.
Defined.

(** *** Processing a risk score *)

Section Processing.
Context `{Runtime}.
Variable config : Config.

(** The rules in force for a merchant at the time of the world. *)
Local Abbreviation rules_in_force merchantId w db :=
  (fallback_rules config merchantId (clock w)
     (rules_of (Redis.GET (seconds w) (rules_key merchantId) db))
     (rules_of (Redis.GET (seconds w) (rules_key "default") db))).

Lemma makeDecision_reads (rs : RiskScore) (decisionId : string) (w : World)
    (db : gmap string (Redis.Entry Doc)) :
  redis_client w = Some db ->
  exists w1,
    makeDecision config rs decisionId w =
      (Ok {| td_id := decisionId;
             td_evaluationId := rs_evaluationId rs;
             td_merchantId := rs_merchantId rs;
             td_transactionId := None;
             td_userId := None;
             decision :=
               fst (decision_content rs (rules_in_force (rs_merchantId rs) w db));
             riskScore := score rs;
             riskLevel := getRiskLevel (score rs);
             reasoning :=
               snd (decision_content rs (rules_in_force (rs_merchantId rs) w db));
             createdAt := clock w;
             td_metadata := None |}, w1)
    /\ w1 = set_error_log (error_log w1) w
    /\ exists logged, error_log w1 = (error_log w ++ logged)%list.
Proof.
  intros Hdb. unfold makeDecision.
  destruct (getMerchantRules_reads config (rs_merchantId rs) w db Hdb)
    as (w1 & Hrules & Hw1 & Hlogged).
  unfold bind at 1. rewrite Hrules.
  change (match rules_of (Redis.GET (seconds w) (rules_key (rs_merchantId rs)) db) with
          | Some r => r
          | None => _
          end) with (rules_in_force (rs_merchantId rs) w db).
  exists w1. split; [|split; [exact Hw1|exact Hlogged]].
  unfold decide, decision_content.
  destruct (applyCustomRules rs (rules_in_force (rs_merchantId rs) w db))
    as [[d reason]|];
    [|destruct (threshold_decision rs (rules_in_force (rs_merchantId rs) w db))
        as [d reasons]];
    unfold createDecision, bind, Date_now, gets, ret; cbn [fst snd];
    rewrite Hw1; reflexivity.
Qed.

(** What [processRiskScore] does on a reachable cache: the decision is made
    with a fresh id, stored for 24 hours, and then published if the producer
    is connected; if it is not, the error is logged. *)
Lemma processRiskScore_runs (rs : RiskScore) (w : World)
    (db : gmap string (Redis.Entry Doc)) :
  redis_client w = Some db ->
  let decisionId := "uuid-" +:+ pretty (uuid_seed w) in
  let td :=
    {| td_id := decisionId;
       td_evaluationId := rs_evaluationId rs;
       td_merchantId := rs_merchantId rs;
       td_transactionId := None;
       td_userId := None;
       decision := fst (decision_content rs (rules_in_force (rs_merchantId rs) w db));
       riskScore := score rs;
       riskLevel := getRiskLevel (score rs);
       reasoning := snd (decision_content rs (rules_in_force (rs_merchantId rs) w db));
       createdAt := clock w;
       td_metadata := None |} in
  exists w' earlier,
    processRiskScore config rs w = (Ok tt, w')
    /\ redis_client w' =
         Some (Redis.SETEX (seconds w) (decision_key decisionId) 86400
                 (DocDecision td) db)
    /\ uuid_seed w' = S (uuid_seed w)
    /\ producer_connected w' = producer_connected w
    /\ clock w' = clock w
    /\ polling w' = polling w
    /\ if producer_connected w
       then published w' = (published w ++ [td])%list
            /\ error_log w' = (error_log w ++ earlier)%list
       else published w' = published w
            /\ error_log w' =
                 (error_log w ++ earlier
                  ++ ["Error processing risk score for " +:+ rs_evaluationId rs
                      +:+ ": Kafka producer not connected"])%list.
Proof.
  intros Hdb decisionId td.
  destruct (makeDecision_reads rs decisionId (set_uuid_seed (S (uuid_seed w)) w) db Hdb)
    as (w1 & Hmake & Hw1 & earlier & Hlog).
  change (error_log (set_uuid_seed (S (uuid_seed w)) w)) with (error_log w) in Hlog.
  change (clock (set_uuid_seed (S (uuid_seed w)) w)) with (clock w) in Hmake.
  change (seconds (set_uuid_seed (S (uuid_seed w)) w)) with (seconds w) in Hmake.
  fold td in Hmake.
  set (l1 := error_log w1) in *. clearbody l1. subst w1 l1.
  unfold processRiskScore, try_catch.
  unfold bind at 1. unfold uuidv4 at 1. fold decisionId.
  unfold bind at 1. rewrite Hmake.
  unfold bind at 1. unfold storeDecision, redisService_set.
  cbn [redis_client set_error_log set_uuid_seed]. rewrite Hdb. cbn [Z.eqb].
  change (seconds (set_error_log _ (set_uuid_seed _ w))) with (seconds w).
  unfold bind, publishDecision, ret.
  cbn [producer_connected set_redis set_error_log set_uuid_seed].
  destruct (producer_connected w) eqn:Hp.
  - eexists _, earlier. split; [reflexivity|]. cbn. rewrite Hp. repeat split.
  - eexists _, earlier. split; [reflexivity|]. cbn. rewrite Hp. repeat split.
    rewrite app_assoc. reflexivity.
Qed.

End Processing.

(** *** From a risk score to a decision that can be looked up *)

Section Lookup.
Context `{Runtime}.
Variable config : Config.

Local Abbreviation rules_in_force merchantId w db :=
  (fallback_rules config merchantId (clock w)
     (rules_of (Redis.GET (seconds w) (rules_key merchantId) db))
     (rules_of (Redis.GET (seconds w) (rules_key "default") db))).

(** The reply of the lookup route once a decision is stored under its id. *)
Lemma getDecisionById_stored (decisionId : string) (d : TransactionDecision)
    (now t : Z) (w : World) (db : gmap string (Redis.Entry Doc)) :
  redis_client w =
    Some (Redis.SETEX now (decision_key decisionId) 86400 (DocDecision d) db) ->
  getDecisionById decisionId (set_clock t w) =
    (Ok (if t / 1000 <? now + 86400
         then Reply200 d
         else Reply404 ("Decision with ID " +:+ decisionId +:+ " not found")),
     set_clock t w).
Proof.
  intros Hdb.
  unfold getDecisionById, redisService_getDecision, bind, redisService_get.
  cbn [redis_client set_clock]. rewrite Hdb.
  unfold Redis.GET, Redis.SETEX. rewrite lookup_insert_eq.
  unfold Redis.live. cbn [Redis.expires_at Redis.value].
  change (seconds (set_clock t w)) with (t / 1000).
  destruct (t / 1000 <? now + 86400); reflexivity.
Qed.

(** X7.  With the cache reachable and the producer connected, a processed
    risk score yields exactly one published decision; it carries the
    evaluation, the merchant and the score of the risk score, the level of
    that score, and the outcome of the rules in force; and the lookup route
    returns this very record under its id at every instant whose whole second
    comes less than 86400 seconds after the whole second of the call (so
    during the first 86399 seconds at least), and replies 404 at every
    instant that is 86400 seconds or more after the call. *)
Theorem processed_score_is_published_and_stored
    (rs : RiskScore) (w : World) (db : gmap string (Redis.Entry Doc))
    (Hclient : redis_client w = Some db)
    (Hproducer : producer_connected w = true) :
  exists w' td,
    processRiskScore config rs w = (Ok tt, w')
    /\ published w' = (published w ++ [td])%list
    /\ td_evaluationId td = rs_evaluationId rs
    /\ td_merchantId td = rs_merchantId rs
    /\ riskScore td = score rs
    /\ riskLevel td = getRiskLevel (score rs)
    /\ (decision td, reasoning td)
       = decision_content rs (rules_in_force (rs_merchantId rs) w db)
    /\ (forall t,
          t / 1000 < clock w / 1000 + 86400 ->
          getDecisionById (td_id td) (set_clock t w')
          = (Ok (Reply200 td), set_clock t w'))
    /\ (forall t,
          clock w + 86400 * 1000 <= t ->
          getDecisionById (td_id td) (set_clock t w')
          = (Ok (Reply404 ("Decision with ID " +:+ td_id td +:+ " not found")),
             set_clock t w')).
Proof.
  destruct (processRiskScore_runs config rs w db Hclient)
    as (w' & earlier & Hrun & Hdb' & _ & _ & _ & _ & Hpub).
  rewrite Hproducer in Hpub. destruct Hpub as [Hpub _].
  eexists w', _. split; [exact Hrun|]. split; [exact Hpub|].
  cbn [td_evaluationId td_merchantId riskScore riskLevel decision reasoning td_id].
  split; [reflexivity|]. split; [reflexivity|]. split; [reflexivity|].
  split; [reflexivity|]. split; [symmetry; apply surjective_pairing|].
  split; intros t Ht; rewrite (getDecisionById_stored _ _ _ t w' db Hdb'); unfold seconds.
  - replace (t / 1000 <? clock w / 1000 + 86400) with true
      by (symmetry; apply Z.ltb_lt; exact Ht).
    reflexivity.
  - replace (t / 1000 <? clock w / 1000 + 86400) with false
      by (symmetry; apply Z.ltb_ge; Z.div_mod_to_equations; lia).
    reflexivity.
Qed.

(** X8.  With the producer disconnected the call still resolves: the
    decision is stored (the lookup route returns it) although nothing is
    published, and the failure is the last entry of the error log. *)
Theorem unpublished_decision_is_stored
    (rs : RiskScore) (w : World) (db : gmap string (Redis.Entry Doc))
    (Hclient : redis_client w = Some db)
    (Hproducer : producer_connected w = false) :
  exists w' td,
    processRiskScore config rs w = (Ok tt, w')
    /\ published w' = published w
    /\ td_evaluationId td = rs_evaluationId rs
    /\ getDecisionById (td_id td) w' = (Ok (Reply200 td), w')
    /\ last (error_log w')
       = Some ("Error processing risk score for " +:+ rs_evaluationId rs
               +:+ ": Kafka producer not connected").
Proof.
  destruct (processRiskScore_runs config rs w db Hclient)
    as (w' & earlier & Hrun & Hdb' & _ & _ & Hclock & _ & Hpub).
  rewrite Hproducer in Hpub. destruct Hpub as [Hpub Hlog].
  match type of Hdb' with
  | _ = Some (Redis.SETEX _ _ _ (DocDecision ?d) _) => exists w', d
  end.
  split; [exact Hrun|]. split; [exact Hpub|].
  cbn [td_evaluationId td_id]. split; [reflexivity|]. split.
  - pose proof (getDecisionById_stored _ _ _ (clock w') w' db Hdb') as Hget.
    replace (set_clock (clock w') w') with w' in Hget by (destruct w'; reflexivity).
    rewrite Hget. rewrite Hclock. unfold seconds.
    replace (clock w / 1000 <? clock w / 1000 + 86400) with true
      by (symmetry; apply Z.ltb_lt; lia).
    reflexivity.
  - rewrite Hlog, !app_assoc. apply last_snoc.
Qed.

End Lookup.

Lemma processed_score_is_published_and_stored_witness :
  exists w' td,
    processRiskScore (H := Samples.sample_runtime) Samples.default_decisioner_config
      (Samples.risk_score 0.95%Q ["unusual_behavior"]) Samples.decisioner_world
    = (Ok tt, w')
    /\ published w' = [td]
    /\ riskLevel td = Critical
    /\ decision td = Reject.
Proof.
  destruct (processed_score_is_published_and_stored (H := Samples.sample_runtime)
              Samples.default_decisioner_config
              (Samples.risk_score 0.95%Q ["unusual_behavior"])
              Samples.decisioner_world ∅ eq_refl eq_refl)
    as (w' & td & Hrun & Hpub & _ & _ & _ & Hlevel & Hcontent & _).
  exists w', td. split; [exact Hrun|]. split; [exact Hpub|].
  split; [exact Hlevel|].
  vm_compute in Hcontent. injection Hcontent as Hdecision _. exact Hdecision.
Defined.

Lemma unpublished_decision_is_stored_witness :
  exists w' td,
    processRiskScore (H := Samples.sample_runtime) Samples.default_decisioner_config
      (Samples.risk_score 0.95%Q ["unusual_behavior"])
      {| redis_client := Some ∅; producer_connected := false; published := [];
         clock := 1700000000000; uuid_seed := 0; error_log := [];
         consumer := None; isRunning := false; pollInterval := None |}
    = (Ok tt, w')
    /\ published w' = []
    /\ getDecisionById (td_id td) w' = (Ok (Reply200 td), w').
Proof.
  destruct (unpublished_decision_is_stored (H := Samples.sample_runtime)
              Samples.default_decisioner_config
              (Samples.risk_score 0.95%Q ["unusual_behavior"])
              {| redis_client := Some ∅; producer_connected := false; published := [];
                 clock := 1700000000000; uuid_seed := 0; error_log := [];
                 consumer := None; isRunning := false; pollInterval := None |}
              ∅ eq_refl eq_refl)
    as (w' & td & Hrun & Hpub & _ & Hget & _).
  exists w', td. split; [exact Hrun|]. split; [exact Hpub|exact Hget].
Defined.

(** *** A batch of messages *)

Section Batch.
Context `{Runtime}.
Variable config : Config.

Lemma uuid_inj (n m : nat) : "uuid-" +:+ pretty n = "uuid-" +:+ pretty m -> n = m.
Proof.
  intros Heq. apply (inj (String.append "uuid-")) in Heq.
  exact (inj pretty _ _ Heq).
Qed.

(** [parseMessage] returns what [accepted] says and touches only the error
    log. *)
Lemma parseMessage_accepted (message : KafkaMessage) (w : World) :
  exists w1,
    parseMessage message w = (Ok (accepted message), w1)
    /\ w1 = set_error_log (error_log w1) w.
Proof.
  unfold parseMessage, accepted.
  destruct (msg_value message) as [rs|text].
  - destruct (_ || _); exists w; (split; [reflexivity|destruct w; reflexivity]).
  - eexists. split; [reflexivity|]. reflexivity.
Qed.

(** What a decision takes over from the risk score it is made for. *)
Local Abbreviation made_for td rs :=
  (td_evaluationId td = rs_evaluationId rs
   /\ td_merchantId td = rs_merchantId rs
   /\ riskScore td = score rs
   /\ riskLevel td = getRiskLevel (score rs)).

Lemma processMessages_batch (messages : list KafkaMessage) :
  forall (w : World) (db : gmap string (Redis.Entry Doc)),
    redis_client w = Some db ->
    producer_connected w = true ->
    exists w' db' new,
      processMessages config messages w = (Ok tt, w')
      /\ redis_client w' = Some db'
      /\ producer_connected w' = true
      /\ clock w' = clock w
      /\ polling w' = polling w
      /\ published w' = (published w ++ new)%list
      /\ Forall2 (fun td rs => made_for td rs) new (omap accepted messages)
      /\ uuid_seed w' = (uuid_seed w + length new)%nat
      /\ (forall k,
            (forall m, (uuid_seed w <= m)%nat -> k <> decision_key ("uuid-" +:+ pretty m)) ->
            db' !! k = db !! k)
      /\ map td_id new
         = map (fun m => "uuid-" +:+ pretty m) (seq (uuid_seed w) (length new))
      /\ Forall (fun td =>
                   db' !! decision_key (td_id td)
                   = Some {| Redis.value := DocDecision td;
                             Redis.expires_at := Some (seconds w + 86400) |})
                new.
Proof.
  induction messages as [|message rest IH]; intros w db Hdb Hprod.
  - exists w, db, []. cbn. rewrite app_nil_r.
    repeat split; try assumption; try constructor. lia.
  - cbn [processMessages omap list_omap].
    destruct (parseMessage_accepted message w) as (w0 & Hparse & Hw0).
    unfold bind at 1. unfold try_catch. unfold bind at 1. rewrite Hparse.
    destruct (accepted message) as [rs|].
    + assert (redis_client w0 = Some db) as Hdb0 by (rewrite Hw0; exact Hdb).
      destruct (processRiskScore_runs config rs w0 db Hdb0)
        as (w1 & earlier & Hrun & Hdb1 & Hseed1 & Hprod1 & Hclock1 & Hpoll1 & Hpub1).
      assert (producer_connected w0 = true) as Hprod0 by (rewrite Hw0; exact Hprod).
      rewrite Hprod0 in Hpub1. destruct Hpub1 as [Hpub1 _].
      rewrite Hrun.
      assert (uuid_seed w0 = uuid_seed w) as Hseed0 by (rewrite Hw0; reflexivity).
      assert (clock w0 = clock w) as Hclock0 by (rewrite Hw0; reflexivity).
      assert (published w0 = published w) as Hpub0 by (rewrite Hw0; reflexivity).
      assert (polling w0 = polling w) as Hpoll0 by (rewrite Hw0; reflexivity).
      assert (seconds w0 = seconds w) as Hsec0 by (unfold seconds; congruence).
      rewrite ?Hseed0, ?Hsec0, ?Hclock0 in Hdb1, Hpub1. rewrite Hseed0 in Hseed1.
      destruct (IH w1 _ Hdb1) as
        (w' & db' & new & Hrest & Hdb' & Hprod' & Hclock' & Hpoll' & Hpub' & Hnew
           & Hseed' & Hframe & Hids & Hstored).
      { rewrite Hprod1. exact Hprod0. }
      match type of Hdb1 with
      | _ = Some (Redis.SETEX _ _ _ (DocDecision ?d) _) => set (td := d) in *
      end.
      exists w', db', (td :: new). split; [exact Hrest|]. split; [exact Hdb'|].
      split; [exact Hprod'|]. split; [congruence|]. split; [congruence|].
      split; [rewrite Hpub', Hpub1, Hpub0, <- app_assoc; reflexivity|].
      split; [constructor; [repeat split|exact Hnew]|].
      split; [rewrite Hseed', Hseed1; cbn [length]; lia|].
      split; [|split; [|constructor]].
      * intros k Hk. rewrite Hframe.
        -- unfold Redis.SETEX. apply lookup_insert_ne.
           intros Heq. apply (Hk (uuid_seed w)); [lia|]. symmetry. exact Heq.
        -- intros m Hm. apply Hk. lia.
      * cbn [map length seq]. rewrite Hids, Hseed1. reflexivity.
      * rewrite Hframe.
        -- unfold Redis.SETEX. cbn [td_id td]. apply lookup_insert_eq.
        -- intros m Hm Heq. apply decision_key_inj, uuid_inj in Heq. lia.
      * eapply Forall_impl; [exact Hstored|].
        intros d Hd. rewrite Hd. unfold seconds. rewrite Hclock1, Hclock0. reflexivity.
    + destruct (IH w0 db) as
        (w' & db' & new & Hrest & Hdb' & Hprod' & Hclock' & Hpoll' & Hpub' & Hnew
           & Hseed' & Hframe & Hids & Hstored).
      { rewrite Hw0. exact Hdb. }
      { rewrite Hw0. exact Hprod. }
      assert (uuid_seed w0 = uuid_seed w) as Hseed0 by (rewrite Hw0; reflexivity).
      assert (clock w0 = clock w) as Hclock0 by (rewrite Hw0; reflexivity).
      assert (published w0 = published w) as Hpub0 by (rewrite Hw0; reflexivity).
      assert (polling w0 = polling w) as Hpoll0 by (rewrite Hw0; reflexivity).
      unfold ret. rewrite Hrest.
      exists w', db', new. split; [reflexivity|]. split; [exact Hdb'|].
      split; [exact Hprod'|]. split; [congruence|]. split; [congruence|].
      split; [congruence|]. split; [exact Hnew|]. split; [congruence|].
      split; [|split].
      * intros k Hk. apply Hframe. rewrite Hseed0. exact Hk.
      * rewrite Hids, Hseed0. reflexivity.
      * eapply Forall_impl; [exact Hstored|].
        intros d Hd. rewrite Hd. unfold seconds. rewrite Hclock0. reflexivity.
Qed.


Lemma getDecisionById_live (decisionId : string) (d : TransactionDecision)
    (e : Z) (w : World) (db : gmap string (Redis.Entry Doc)) :
  redis_client w = Some db ->
  db !! decision_key decisionId
    = Some {| Redis.value := DocDecision d; Redis.expires_at := Some e |} ->
  seconds w < e ->
  getDecisionById decisionId w = (Ok (Reply200 d), w).
Proof.
  intros Hdb Hk Hlive.
  unfold getDecisionById, redisService_getDecision, bind, redisService_get.
  rewrite Hdb. unfold Redis.GET. rewrite Hk.
  unfold Redis.live. cbn [Redis.expires_at Redis.value].
  replace (seconds w <? e) with true by (symmetry; apply Z.ltb_lt; exact Hlive).
  reflexivity.
Qed.

(** X9.  With the cache reachable and the producer connected, a batch yields
    one published decision for each message that [parseMessage] accepts, in
    the order of the batch and nothing else: messages that do not parse or
    lack an id are skipped, a message that comes twice is decided twice.
    The decisions have pairwise different ids, and each can be looked up
    under its id when the batch is done. *)
Theorem batch_decides_each_accepted_message
    (messages : list KafkaMessage) (w : World) (db : gmap string (Redis.Entry Doc))
    (Hclient : redis_client w = Some db)
    (Hproducer : producer_connected w = true) :
  exists w' new,
    processMessages config messages w = (Ok tt, w')
    /\ published w' = (published w ++ new)%list
    /\ Forall2 (fun td rs => made_for td rs) new (omap accepted messages)
    /\ NoDup (map td_id new)
    /\ Forall (fun td => getDecisionById (td_id td) w' = (Ok (Reply200 td), w')) new.
Proof.
  destruct (processMessages_batch messages w db Hclient Hproducer)
    as (w' & db' & new & Hrun & Hdb' & _ & Hclock & _ & Hpub & Hnew & _ & _
          & Hids & Hstored).
  exists w', new. split; [exact Hrun|]. split; [exact Hpub|]. split; [exact Hnew|].
  split.
  - rewrite Hids. apply NoDup_fmap_2; [|apply NoDup_seq].
    intros n m. apply uuid_inj.
  - eapply Forall_impl; [exact Hstored|]. intros d Hd.
    apply (getDecisionById_live _ _ _ _ _ Hdb' Hd).
    unfold seconds. rewrite Hclock. lia.
Qed.

(** X10.  A batch in which [parseMessage] accepts no message changes nothing
    but the error log, whatever the state of the cache and of the producer:
    nothing is stored, nothing is published, no id is drawn. *)
Theorem rejected_messages_are_skipped
    (messages : list KafkaMessage) (w : World)
    (Hnone : Forall (fun message => accepted message = None) messages) :
  exists w',
    processMessages config messages w = (Ok tt, w')
    /\ w' = set_error_log (error_log w') w.
Proof.
  revert w. induction Hnone as [|message rest Hmessage _ IH]; intros w.
  - exists w. split; [reflexivity|destruct w; reflexivity].
  - cbn [processMessages].
    destruct (parseMessage_accepted message w) as (w0 & Hparse & Hw0).
    unfold bind at 1. unfold try_catch. unfold bind at 1.
    rewrite Hparse, Hmessage. unfold ret.
    destruct (IH w0) as (w' & Hrest & Hw'). rewrite Hrest.
    exists w'. split; [reflexivity|]. rewrite Hw', Hw0. reflexivity.
Qed.

End Batch.

Lemma batch_decides_each_accepted_message_witness :
  exists w' new,
    processMessages (H := Samples.sample_runtime) Samples.default_decisioner_config
      [ {| msg_offset := 0;
           msg_value := Parsed (Samples.risk_score 0.95%Q ["unusual_behavior"]) |};
        {| msg_offset := 1; msg_value := Malformed "{" |};
        {| msg_offset := 2;
           msg_value := Parsed (Samples.risk_score 0.95%Q ["unusual_behavior"]) |} ]
      Samples.decisioner_world
    = (Ok tt, w')
    /\ published w' = new
    /\ length new = 2%nat
    /\ NoDup (map td_id new).
Proof.
  destruct (batch_decides_each_accepted_message (H := Samples.sample_runtime)
              Samples.default_decisioner_config
              [ {| msg_offset := 0;
                   msg_value := Parsed (Samples.risk_score 0.95%Q ["unusual_behavior"]) |};
                {| msg_offset := 1; msg_value := Malformed "{" |};
                {| msg_offset := 2;
                   msg_value := Parsed (Samples.risk_score 0.95%Q ["unusual_behavior"]) |} ]
              Samples.decisioner_world ∅ eq_refl eq_refl)
    as (w' & new & Hrun & Hpub & Hnew & Hids & _).
  exists w', new. split; [exact Hrun|]. split; [exact Hpub|].
  split; [exact (Forall2_length _ _ _ Hnew)|exact Hids].
Defined.

Lemma rejected_messages_are_skipped_witness :
  exists w',
    processMessages (H := Samples.sample_runtime) Samples.default_decisioner_config
      [ {| msg_offset := 0; msg_value := Malformed "{" |};
        {| msg_offset := 1;
           msg_value :=
             Parsed {| rs_id := "risk-1"; rs_evaluationId := "";
                       rs_sessionId := "session-123"; rs_merchantId := "merchant-123";
                       rs_visitorId := "visitor-123"; score := 0.95%Q;
                       isFraud := true; riskFactors := []; rs_timestamp := 0 |} |} ]
      Samples.decisioner_world
    = (Ok tt, w')
    /\ w' = set_error_log (error_log w') Samples.decisioner_world.
Proof.
  apply (rejected_messages_are_skipped (H := Samples.sample_runtime)).
  repeat constructor.
Defined.

(** *** The polling loop over a partition *)

Section Drain.
Context `{Runtime}.
Variable config : Config.

Local Abbreviation made_for td rs :=
  (td_evaluationId td = rs_evaluationId rs
   /\ td_merchantId td = rs_merchantId rs
   /\ riskScore td = score rs
   /\ riskLevel td = getRiskLevel (score rs)).

(** A poll that is handed the next messages, on a reachable cache and with a
    connected producer. *)
Lemma poll_batch (w : World) (c : KafkaConsumer) (db : gmap string (Redis.Entry Doc)) :
  isRunning w = true ->
  consumer w = Some c ->
  redis_client w = Some db ->
  producer_connected w = true ->
  let batch := take 100 (drop (position c) (partition_log c)) in
  exists w' db' new,
    poll config ConsumeDelivers w = (Ok tt, w')
    /\ consumer w' =
         Some {| partition_log := partition_log c;
                 position := (position c + length batch)%nat;
                 committed := match batch with
                              | [] => committed c
                              | _ => (position c + length batch)%nat
                              end |}
    /\ isRunning w' = true
    /\ pollInterval w' = Some (consumerPollInterval config)
    /\ redis_client w' = Some db'
    /\ producer_connected w' = true
    /\ published w' = (published w ++ new)%list
    /\ Forall2 (fun td rs => made_for td rs) new (omap accepted batch).
Proof.
  intros Hrun Hc Hdb Hprod batch.
  unfold poll. rewrite Hrun, Hc. cbn [negb consume]. fold batch.
  unfold bind at 1. cbn [modify].
  destruct batch as [|message rest] eqn:Ebatch.
  - unfold bind, ret, setTimeout_poll, modify. eexists _, db, [].
    split; [reflexivity|]. cbn. rewrite Hrun, Hdb, Hprod, app_nil_r.
    repeat split. constructor.
  - destruct (processMessages_batch config (message :: rest)
                (set_consumer
                   (Some {| partition_log := partition_log c;
                            position := (position c + length (message :: rest))%nat;
                            committed := committed c |}) w) db Hdb Hprod)
      as (w2 & db2 & new & Hrun2 & Hdb2 & Hprod2 & _ & Hkeep & Hpub2 & Hnew & _).
    unfold bind at 1. unfold try_catch, bind at 1. rewrite Hrun2.
    unfold polling in Hkeep. cbn in Hkeep. injection Hkeep as Hc2 Hr2 Hp2.
    unfold commit, bind, modify, setTimeout_poll. rewrite Hc2. cbn.
    eexists _, db2, new. split; [reflexivity|]. cbn.
    rewrite Hr2, Hrun, Hdb2, Hprod2. repeat split; assumption.
Qed.

Lemma drop_batch {A} (p : nat) (l : list A) :
  drop (p + length (take 100 (drop p l))) l = drop 100 (drop p l).
Proof.
  rewrite drop_drop, length_take, length_drop.
  destruct (base.decide (100 <= length l - p)%nat) as [Hle|Hgt].
  - f_equal. lia.
  - rewrite !drop_ge by lia. reflexivity.
Qed.

(** X11.  A running consumer that is given enough polls drains its
    partition, whatever errors the broker reports in between: broker errors
    consume nothing, and when the loop is through, nothing is left to
    consume, everything consumed is committed, and exactly one decision is
    published for each accepted message from the starting position on, in
    the order of the partition. *)
Theorem loop_drains_partition
    (brokers : list BrokerEvent) (w : World) (c : KafkaConsumer)
    (db : gmap string (Redis.Entry Doc))
    (Hconsumer : consumer w = Some c)
    (Hcommitted : committed c = position c)
    (Hrunning : isRunning w = true)
    (Hscheduled : pollInterval w <> None)
    (Hclient : redis_client w = Some db)
    (Hproducer : producer_connected w = true)
    (Henough : (length (drop (position c) (partition_log c))
                <= 100 * length (List.filter delivers brokers))%nat) :
  exists w' c' new,
    run_loop config brokers w = (Ok tt, w')
    /\ consumer w' = Some c'
    /\ partition_log c' = partition_log c
    /\ drop (position c') (partition_log c) = []
    /\ committed c' = position c'
    /\ published w' = (published w ++ new)%list
    /\ Forall2 (fun td rs => made_for td rs) new
         (omap accepted (drop (position c) (partition_log c))).
Proof.
  revert w c db Hconsumer Hcommitted Hrunning Hscheduled Hclient Hproducer Henough.
  induction brokers as [|broker rest IH];
    intros w c db Hc Hcommitted Hrun Hsched Hdb Hprod Henough.
  - cbn in Henough. apply Nat.le_0_r, nil_length_inv in Henough.
    exists w, c, []. rewrite Henough, app_nil_r. cbn.
    repeat split; try assumption. constructor.
  - cbn [run_loop]. destruct (pollInterval w) as [t|] eqn:Ht; [|congruence].
    unfold bind.
    assert (forall msg,
      poll config broker w
        = (Ok tt, set_pollInterval (Some 5000)
                    (set_error_log (error_log w ++ [msg])%list w)) ->
      length (List.filter delivers (broker :: rest)) = length (List.filter delivers rest) ->
      exists w' c' new,
        (let (r, w1) := poll config broker w in
         match r with
         | Ok _ => run_loop config rest w1
         | Throw e => (Throw e, w1)
         end) = (Ok tt, w')
        /\ consumer w' = Some c'
        /\ partition_log c' = partition_log c
        /\ drop (position c') (partition_log c) = []
        /\ committed c' = position c'
        /\ published w' = (published w ++ new)%list
        /\ Forall2 (fun td rs => made_for td rs) new
             (omap accepted (drop (position c) (partition_log c)))) as Herror.
    { intros msg Hpoll Hcount. rewrite Hpoll.
      destruct (IH (set_pollInterval (Some 5000)
                      (set_error_log (error_log w ++ [msg])%list w)) c db)
        as (w' & c' & new & Hloop & Hc' & Hlog' & Hleft & Hcommitted' & Hpub' & Hnew);
        try assumption; try discriminate.
      - rewrite <- Hcount. exact Henough.
      - exists w', c', new. repeat split; assumption. }
    destruct broker.
    + apply (Herror "Error in poll loop:"); [|reflexivity].
      unfold poll. rewrite Hrun, Hc. reflexivity.
    + apply (Herror "Error consuming messages:"); [|reflexivity].
      unfold poll. rewrite Hrun, Hc. reflexivity.
    + clear Herror.
      destruct (poll_batch w c db Hrun Hc Hdb Hprod)
        as (w1 & db1 & new1 & Hpoll & Hc1 & Hr1 & Hp1 & Hdb1 & Hprod1 & Hpub1 & Hnew1).
      rewrite Hpoll.
      set (batch := take 100 (drop (position c) (partition_log c))) in *.
      set (c1 := {| partition_log := partition_log c;
                    position := (position c + length batch)%nat;
                    committed := match batch with
                                 | [] => committed c
                                 | _ => (position c + length batch)%nat
                                 end |}) in *.
      assert (committed c1 = position c1) as Hcommitted1.
      { unfold c1. cbn. destruct batch; cbn; [lia|reflexivity]. }
      assert (drop (position c1) (partition_log c1)
              = drop 100 (drop (position c) (partition_log c))) as Hrest.
      { unfold c1, batch. cbn [position partition_log]. apply drop_batch. }
      destruct (IH w1 c1 db1 Hc1 Hcommitted1 Hr1) as
        (w' & c' & new & Hloop & Hc' & Hlog' & Hleft & Hcommitted' & Hpub' & Hnew);
        try assumption.
      { rewrite Hp1. discriminate. }
      { rewrite Hrest, length_drop. cbn [List.filter delivers length] in Henough. lia. }
      exists w', c', (new1 ++ new)%list.
      split; [exact Hloop|]. split; [exact Hc'|]. split; [exact Hlog'|].
      split; [exact Hleft|]. split; [exact Hcommitted'|].
      split; [rewrite Hpub', Hpub1, app_assoc; reflexivity|].
      rewrite <- (take_drop 100 (drop (position c) (partition_log c))).
      rewrite omap_app. apply Forall2_app; [exact Hnew1|].
      rewrite <- Hrest. exact Hnew.
Qed.

(** X12.  Once [stopPolling] has run, the loop consumes nothing more: the
    timers that are still to fire find no poll scheduled, and the world stays
    as [stopPolling] left it. *)
Theorem stopped_consumer_stays_idle (brokers : list BrokerEvent) (w : World) :
  exists w0,
    stopPolling w = (Ok tt, w0)
    /\ isRunning w0 = false
    /\ run_loop config brokers w0 = (Ok tt, w0)
    /\ forall broker, poll config broker w0 = (Ok tt, w0).
Proof.
  eexists. split; [reflexivity|]. split; [reflexivity|]. split.
  - destruct brokers; reflexivity.
  - intros broker. reflexivity.
Qed.

End Drain.

Lemma loop_drains_partition_witness :
  exists w' c' new,
    run_loop (H := Samples.sample_runtime) Samples.default_decisioner_config
      [ConsumeError; ConsumeDelivers]
      {| redis_client := Some ∅; producer_connected := true; published := [];
         clock := 1700000000000; uuid_seed := 0; error_log := [];
         consumer :=
           Some {| partition_log :=
                     [ {| msg_offset := 0;
                          msg_value :=
                            Parsed (Samples.risk_score 0.95%Q ["unusual_behavior"]) |} ];
                   position := 0; committed := 0 |};
         isRunning := true; pollInterval := Some 100 |}
    = (Ok tt, w')
    /\ consumer w' = Some c'
    /\ committed c' = position c'
    /\ published w' = new
    /\ length new = 1%nat.
Proof.
  destruct (loop_drains_partition (H := Samples.sample_runtime)
              Samples.default_decisioner_config
              [ConsumeError; ConsumeDelivers]
              {| redis_client := Some ∅; producer_connected := true; published := [];
                 clock := 1700000000000; uuid_seed := 0; error_log := [];
                 consumer :=
                   Some {| partition_log :=
                             [ {| msg_offset := 0;
                                  msg_value :=
                                    Parsed (Samples.risk_score 0.95%Q ["unusual_behavior"]) |} ];
                           position := 0; committed := 0 |};
                 isRunning := true; pollInterval := Some 100 |}
              {| partition_log :=
                   [ {| msg_offset := 0;
                        msg_value :=
                          Parsed (Samples.risk_score 0.95%Q ["unusual_behavior"]) |} ];
                 position := 0; committed := 0 |}
              ∅ eq_refl eq_refl eq_refl ltac:(discriminate) eq_refl eq_refl
              ltac:(cbn; lia))
    as (w' & c' & new & Hrun & Hc' & _ & _ & Hcommitted & Hpub & Hnew).
  exists w', c', new. split; [exact Hrun|]. split; [exact Hc'|].
  split; [exact Hcommitted|]. split; [exact Hpub|].
  exact (Forall2_length _ _ _ Hnew).
Defined.

(** *** Decisions on request *)

Section Request.
Context `{Runtime}.
Variable config : Config.

Local Abbreviation rules_in_force merchantId w db :=
  (fallback_rules config merchantId (clock w)
     (rules_of (Redis.GET (seconds w) (rules_key merchantId) db))
     (rules_of (Redis.GET (seconds w) (rules_key "default") db))).

(** X13.  A decision on request is made on the stand-in risk score of
    [getRiskScoreForEvaluation]: score 0.65 (level [medium]) of merchant
    ['merchant-123'], under the rules in force for that merchant, whatever
    merchant the request names.  The result echoes the evaluation and the
    merchant of the request; the record is stored with the transaction, user
    and metadata of the request and can be looked up under the returned id;
    nothing is published. *)
Theorem request_decision_is_stored_not_published
    (payload : DecisionPayload) (w : World) (db : gmap string (Redis.Entry Doc))
    (Hclient : redis_client w = Some db) :
  let rs :=
    {| rs_id := "uuid-" +:+ pretty (uuid_seed w);
       rs_evaluationId := dp_evaluationId payload;
       rs_sessionId := "session-123";
       rs_merchantId := "merchant-123";
       rs_visitorId := "visitor-123";
       score := 0.65%Q;
       isFraud := false;
       riskFactors := ["multiple_accounts"; "unusual_behavior"];
       rs_timestamp := clock w |} in
  exists w' result stored,
    makeDecisionFromRequest config payload w = (Ok result, w')
    /\ published w' = published w
    /\ dr_evaluationId result = dp_evaluationId payload
    /\ dr_merchantId result = dp_merchantId payload
    /\ dr_riskScore result = 0.65%Q
    /\ dr_riskLevel result = Medium
    /\ (dr_decision result, dr_reasoning result)
       = decision_content rs (rules_in_force "merchant-123" w db)
    /\ getDecisionById (dr_decisionId result) w' = (Ok (Reply200 stored), w')
    /\ td_id stored = dr_decisionId result
    /\ td_merchantId stored = "merchant-123"
    /\ decision stored = dr_decision result
    /\ td_transactionId stored = dp_transactionId payload
    /\ td_userId stored = dp_userId payload
    /\ td_metadata stored = dp_metadata payload.
Proof.
  intros rs.
  set (w2 := set_uuid_seed (S (S (uuid_seed w))) (set_uuid_seed (S (uuid_seed w)) w)).
  assert (redis_client w2 = Some db) as Hdb2 by exact Hclient.
  destruct (makeDecision_reads config rs ("uuid-" +:+ pretty (S (uuid_seed w))) w2 db Hdb2)
    as (w3 & Hmake & Hw3 & logged & Hlog).
  change (clock w2) with (clock w) in Hmake.
  change (seconds w2) with (seconds w) in Hmake.
  set (l3 := error_log w3) in *. clearbody l3. subst w3.
  unfold makeDecisionFromRequest, try_catch.
  unfold bind at 1. unfold getRiskScoreForEvaluation, bind at 1, uuidv4 at 1.
  unfold bind at 1, Date_now at 1, gets at 1, ret at 1.
  cbn [clock set_uuid_seed]. fold rs.
  unfold bind at 1, uuidv4 at 1. cbn [uuid_seed set_uuid_seed]. fold w2.
  unfold bind at 1. rewrite Hmake.
  unfold bind at 1. unfold storeDecision, redisService_set.
  cbn [redis_client set_error_log]. rewrite Hdb2. cbn [Z.eqb].
  unfold ret.
  eexists _, _, _. split; [reflexivity|].
  cbn [published set_redis set_error_log dr_evaluationId dr_merchantId dr_riskScore
       dr_riskLevel dr_decision dr_reasoning dr_decisionId decision reasoning
       riskScore riskLevel score].
  split; [reflexivity|]. split; [reflexivity|]. split; [reflexivity|].
  split; [reflexivity|]. split; [reflexivity|].
  split; [symmetry; apply surjective_pairing|].
  split.
  - eapply getDecisionById_live.
    + reflexivity.
    + unfold Redis.SETEX. apply lookup_insert_eq.
    + change (seconds (set_redis _ (set_error_log l3 w2))) with (seconds w).
      change (seconds (set_error_log l3 w2)) with (seconds w). lia.
  - cbn. repeat split.
Qed.

(** X14.  Without a cache client a decision on request is refused: the call
    rejects with the error of the cache after logging it, and nothing is
    published.  (The same error in [processRiskScore] is logged and
    absorbed.) *)
Theorem request_rejects_without_cache
    (payload : DecisionPayload) (w : World)
    (Hclient : redis_client w = None) :
  exists w',
    makeDecisionFromRequest config payload w
      = (Throw "Redis client not initialized", w')
    /\ published w' = published w
    /\ redis_client w' = None
    /\ error_log w'
       = (error_log w ++ ["Error making decision for evaluation "
                          +:+ dp_evaluationId payload
                          +:+ ": Redis client not initialized"])%list
    /\ forall rs, exists w'', processRiskScore config rs w = (Ok tt, w'').
Proof.
  unfold makeDecisionFromRequest, try_catch, getRiskScoreForEvaluation,
    makeDecision, getMerchantRules, redisService_getMerchantRules, redisService_get,
    uuidv4, Date_now, gets, ret, bind.
  cbn [redis_client set_uuid_seed]. rewrite Hclient.
  unfold logger_error, modify, throw.
  eexists. split; [reflexivity|]. cbn. rewrite Hclient. repeat split.
  intros rs. destruct (resolves_processRiskScore config rs w) as [[] Hok].
  destruct (processRiskScore config rs w) as [r w'']. cbn in Hok. subst r.
  exists w''. reflexivity.
Qed.

End Request.

Lemma request_decision_is_stored_not_published_witness :
  exists w' result stored,
    makeDecisionFromRequest (H := Samples.sample_runtime)
      Samples.default_decisioner_config
      {| dp_evaluationId := "eval-9"; dp_merchantId := "merchant-9";
         dp_transactionId := Some "tx-1"; dp_userId := None; dp_amount := None;
         dp_currency := None; dp_metadata := None |}
      Samples.decisioner_world
    = (Ok result, w')
    /\ published w' = []
    /\ dr_merchantId result = "merchant-9"
    /\ getDecisionById (dr_decisionId result) w' = (Ok (Reply200 stored), w')
    /\ td_merchantId stored = "merchant-123"
    /\ td_transactionId stored = Some "tx-1".
Proof.
  destruct (request_decision_is_stored_not_published (H := Samples.sample_runtime)
              Samples.default_decisioner_config
              {| dp_evaluationId := "eval-9"; dp_merchantId := "merchant-9";
                 dp_transactionId := Some "tx-1"; dp_userId := None; dp_amount := None;
                 dp_currency := None; dp_metadata := None |}
              Samples.decisioner_world ∅ eq_refl)
    as (w' & result & stored & Hrun & Hpub & _ & Hm & _ & _ & _ & Hget & _ & Hsm & _
          & Htx & _).
  exists w', result, stored. repeat split; assumption.
Defined.

Lemma request_rejects_without_cache_witness :
  exists w',
    makeDecisionFromRequest (H := Samples.sample_runtime)
      Samples.default_decisioner_config
      {| dp_evaluationId := "eval-9"; dp_merchantId := "merchant-9";
         dp_transactionId := None; dp_userId := None; dp_amount := None;
         dp_currency := None; dp_metadata := None |}
      Samples.consumer_world_without_cache
    = (Throw "Redis client not initialized", w')
    /\ published w' = [].
Proof.
  destruct (request_rejects_without_cache (H := Samples.sample_runtime)
              Samples.default_decisioner_config
              {| dp_evaluationId := "eval-9"; dp_merchantId := "merchant-9";
                 dp_transactionId := None; dp_userId := None; dp_amount := None;
                 dp_currency := None; dp_metadata := None |}
              Samples.consumer_world_without_cache eq_refl)
    as (w' & Hrun & Hpub & _).
  exists w'. split; [exact Hrun|exact Hpub].
Defined.

(** *** The rule of the default tenant *)

Section DefaultRule.
Context `{Runtime}.
Variable config : Config.

Lemma array_includes_strings (factors : list string) (factor : string) :
  array_includes (JStr <$> factors) (Some (JStr factor))
  = bool_decide (factor ∈ factors).
Proof.
  unfold array_includes. induction factors as [|f rest IH].
  - reflexivity.
  - rewrite fmap_cons. cbn [existsb]. rewrite IH. cbn [strict_equals]. repeat case_bool_decide; subst; try reflexivity;
      rewrite elem_of_cons in *; intuition congruence.
Qed.

Lemma riskFactors_field (rs : RiskScore) :
  getFieldValue (RiskScore_object rs) "riskFactors"
  = Some (JArr (JStr <$> riskFactors rs)).
Proof.
  unfold getFieldValue.
  replace (split_dot "riskFactors") with ["riskFactors"] by reflexivity.
  unfold RiskScore_object.
  cbn [getFieldValue_loop is_nullish typeof_object orb negb get_property list_to_map foldr
       curry fst snd].
  rewrite !lookup_insert_ne by discriminate. apply lookup_insert_eq.
Qed.

(** The rules that [setupDefaultMerchantRules] stores, whatever thresholds
    and merchant id they carry: the listed-country rule decides. *)
Lemma decision_content_default_rule (rs : RiskScore) (rules : MerchantRules) :
  customRules rules =
    Some [ {| rule_id := "high-risk-country";
              rule_name := "High Risk Country";
              rule_description :=
                Some "Transactions from high-risk countries require manual review";
              conditions :=
                [ {| field := "riskFactors"; operator := OpContains;
                     value := JStr "high_risk_country" |} ];
              action := Review;
              priority := 100;
              isEnabled := true |} ] ->
  decision_content rs rules
  = if bool_decide ("high_risk_country" ∈ riskFactors rs)
    then (Review,
          ["Rule 'High Risk Country' applied: Transactions from high-risk countries require manual review"])
    else threshold_decision rs rules.
Proof.
  intros Hrules. unfold decision_content, applyCustomRules. rewrite Hrules.
  cbn [List.filter isEnabled Array_sort sort_insert List.find matchesRule conditions forallb].
  unfold matchesCondition. cbn [field operator value].
  rewrite riskFactors_field, array_includes_strings.
  destruct (bool_decide ("high_risk_country" ∈ riskFactors rs)); reflexivity.
Qed.

(** X15.  After [initialize], a risk score that lists [high_risk_country]
    is sent to review on the word of the default tenant's rule, whatever its
    score: also one that the thresholds alone would reject.  This holds for
    every merchant without rules of its own in the cache. *)
Theorem listed_country_is_reviewed_whatever_the_score
    (rs : RiskScore) (w : World) (db : gmap string (Redis.Entry Doc))
    (Hclient : redis_client w = Some db)
    (Hproducer : producer_connected w = true)
    (Hown : db !! rules_key (rs_merchantId rs) = None)
    (Hlisted : "high_risk_country" ∈ riskFactors rs) :
  exists w1 w2 td,
    initialize config w = (Ok tt, w1)
    /\ processRiskScore config rs w1 = (Ok tt, w2)
    /\ published w2 = (published w ++ [td])%list
    /\ decision td = Review
    /\ reasoning td =
         ["Rule 'High Risk Country' applied: Transactions from high-risk countries require manual review"]
    /\ riskScore td = score rs
    /\ riskLevel td = getRiskLevel (score rs).
Proof.
  set (defaults :=
         {| mr_merchantId := "default";
            riskThreshold := defaultRiskThreshold config;
            highRiskThreshold := config_highRiskThreshold config;
            automaticReject := true;
            manualReviewThreshold := Some 0.8%Q;
            customRules :=
              Some [ {| rule_id := "high-risk-country";
                        rule_name := "High Risk Country";
                        rule_description :=
                          Some "Transactions from high-risk countries require manual review";
                        conditions :=
                          [ {| field := "riskFactors"; operator := OpContains;
                               value := JStr "high_risk_country" |} ];
                        action := Review;
                        priority := 100;
                        isEnabled := true |} ];
            updatedAt := clock w |}).
  set (db1 := Redis.SET (rules_key "default") (DocRules defaults) db).
  assert (initialize config w = (Ok tt, set_redis db1 w)) as Hinit.
  { unfold initialize, try_catch, setupDefaultMerchantRules, storeMerchantRules,
      bind, Date_now, gets, redisService_set. cbn. rewrite Hclient. reflexivity. }
  destruct (processRiskScore_runs config rs (set_redis db1 w) db1 eq_refl)
    as (w2 & earlier & Hrun & _ & _ & _ & _ & _ & Hpub).
  cbn [producer_connected set_redis published] in Hpub.
  rewrite Hproducer in Hpub. destruct Hpub as [Hpub _].
  match type of Hpub with
  | _ = (_ ++ [?d])%list => exists (set_redis db1 w), w2, d
  end.
  split; [exact Hinit|]. split; [exact Hrun|]. split; [exact Hpub|].
  cbn [decision reasoning riskScore riskLevel].
  assert (Redis.GET (seconds (set_redis db1 w)) (rules_key "default") db1
          = Some (DocRules defaults)) as Hdefault.
  { unfold db1, Redis.GET, Redis.SET. rewrite lookup_insert_eq. reflexivity. }
  rewrite Hdefault. cbn [rules_of].
  assert (customRules
            (fallback_rules config (rs_merchantId rs) (clock (set_redis db1 w))
               (rules_of (Redis.GET (seconds (set_redis db1 w))
                            (rules_key (rs_merchantId rs)) db1))
               (Some defaults))
          = customRules defaults) as Hcustom.
  { destruct (base.decide (rules_key (rs_merchantId rs) = rules_key "default"))
      as [Heq|Hne].
    - rewrite Heq, Hdefault. reflexivity.
    - unfold Redis.GET, db1, Redis.SET.
      rewrite lookup_insert_ne by (apply not_eq_sym; exact Hne).
      rewrite Hown. reflexivity. }
  rewrite (decision_content_default_rule rs _ Hcustom).
  rewrite bool_decide_eq_true_2 by exact Hlisted.
  repeat split.
Qed.

End DefaultRule.

Lemma listed_country_is_reviewed_whatever_the_score_witness :
  exists w1 w2 td,
    initialize Samples.default_decisioner_config Samples.decisioner_world = (Ok tt, w1)
    /\ processRiskScore (H := Samples.sample_runtime) Samples.default_decisioner_config
         (Samples.risk_score 0.95%Q ["high_risk_country"]) w1
       = (Ok tt, w2)
    /\ published w2 = [td]
    /\ decision td = Review
    /\ riskLevel td = Critical.
Proof.
  destruct (listed_country_is_reviewed_whatever_the_score (H := Samples.sample_runtime)
              Samples.default_decisioner_config
              (Samples.risk_score 0.95%Q ["high_risk_country"])
              Samples.decisioner_world ∅ eq_refl eq_refl eq_refl
              ltac:(apply list_elem_of_here))
    as (w1 & w2 & td & Hinit & Hrun & Hpub & Hdecision & _ & _ & Hlevel).
  exists w1, w2, td. repeat split; assumption.
Defined.

(** *** Thresholds and risk levels *)

(** X16.  Under the default configuration, for a merchant for which the
    cache holds no rules at all, the decision follows the risk level:
    [critical] is rejected, [high] is reviewed, [medium] and [low] are
    approved. *)
Theorem default_decision_follows_risk_level `{Runtime}
    (rs : RiskScore) (merchantId : string) (now : Z) :
  fst (decision_content rs
         (fallback_rules (config_of empty_env) merchantId now None None))
  = match getRiskLevel (score rs) with
    | Critical => Reject
    | High => Review
    | Medium | Low => Approve
    end.
Proof.
  unfold decision_content, applyCustomRules, threshold_decision, getRiskLevel.
  cbn [fallback_rules customRules highRiskThreshold riskThreshold automaticReject
       config_of defaultRiskThreshold config_highRiskThreshold].
  change (default 0.9%Q (HIGH_RISK_THRESHOLD empty_env)) with 0.9%Q.
  change (default 0.7%Q (DEFAULT_RISK_THRESHOLD empty_env)) with 0.7%Q.
  destruct (Qle_bool 0.9 (score rs)); [destruct (riskFactors rs); reflexivity|].
  destruct (Qle_bool 0.7 (score rs)); [destruct (riskFactors rs); reflexivity|].
  destruct (Qle_bool 0.4 (score rs)); destruct (riskFactors rs); reflexivity.
Qed.

End DecisionerExtras.

(** ** Further properties of the Evaluator *)

Module EvaluatorExtras.
Import Js Condition Evaluator.
Import DecisionerProperties EvaluatorProperties.

Local Open Scope Q_scope.
Local Open Scope Z_scope.

(** *** Anonymised addresses *)

Lemma string_includes_char (ch c : ascii) (s : string) :
  string_includes (String c s) (String ch "")
  = Ascii.eqb c ch || string_includes s (String ch "").
Proof.
  cbn [string_includes String.prefix].
  destruct (ascii_dec ch c) as [->|Hne].
  - rewrite Ascii.eqb_refl. destruct s; reflexivity.
  - destruct (Ascii.eqb_spec c ch) as [->|_]; [congruence|]. reflexivity.
Qed.

Lemma string_includes_app (ch : ascii) (x y : string) :
  string_includes (x +:+ y) (String ch "")
  = string_includes x (String ch "") || string_includes y (String ch "").
Proof.
  induction x as [|c x IH].
  - destruct y; reflexivity.
  - change (String c x +:+ y) with (String c (x +:+ y)).
    rewrite !string_includes_char, IH, orb_assoc. reflexivity.
Qed.

Lemma string_append_assoc (a b c : string) : (a +:+ b) +:+ c = a +:+ (b +:+ c).
Proof.
  induction a as [|x a IH]; [reflexivity|].
  change (String x ((a +:+ b) +:+ c) = String x (a +:+ (b +:+ c))). rewrite IH. reflexivity.
Qed.

(** A part without the separator is split off at the first separator. *)
Lemma split_go_part (sep : ascii) (part rest cur : string) :
  string_includes part (String sep "") = false ->
  split_go sep cur (part +:+ String sep rest) = (cur +:+ part) :: split_go sep "" rest.
Proof.
  revert cur. induction part as [|c part IH]; intros cur Hfree.
  - change ("" +:+ String sep rest) with (String sep rest).
    cbn [split_go]. rewrite Ascii.eqb_refl. f_equal.
    induction cur as [|x cur IHc]; [reflexivity|].
    change (String x cur +:+ "") with (String x (cur +:+ "")). rewrite <- IHc. reflexivity.
  - rewrite string_includes_char in Hfree. apply orb_false_elim in Hfree as [Hc Hfree].
    change (String c part +:+ String sep rest) with (String c (part +:+ String sep rest)).
    cbn [split_go]. rewrite Hc. rewrite IH by exact Hfree.
    f_equal. rewrite string_append_assoc. reflexivity.
Qed.

Lemma split_part (sep : ascii) (part rest : string) :
  string_includes part (String sep "") = false ->
  split sep (part +:+ String sep rest) = part :: split sep rest.
Proof. intros Hfree. unfold split. rewrite split_go_part by exact Hfree. reflexivity. Qed.

Lemma split_nonempty (sep : ascii) (s : string) :
  exists part parts, split sep s = part :: parts.
Proof.
  unfold split. generalize "" as cur. induction s as [|c s IH]; intros cur; cbn [split_go].
  - eexists _, _. reflexivity.
  - destruct (Ascii.eqb c sep); [eexists _, _; reflexivity|apply IH].
Qed.

(** X17.  An IPv4 address keeps its first three octets and gets 0 as the
    fourth, whatever followed the third dot; the result is a fixed point:
    anonymising it again changes nothing. *)
Theorem anonymizeIp_ipv4 (a b c d : string)
    (Ha : string_includes a "." = false /\ string_includes a ":" = false)
    (Hb : string_includes b "." = false /\ string_includes b ":" = false)
    (Hc : string_includes c "." = false /\ string_includes c ":" = false)
    (Hd : string_includes d ":" = false) :
  anonymizeIp (a +:+ "." +:+ b +:+ "." +:+ c +:+ "." +:+ d)
  = a +:+ "." +:+ b +:+ "." +:+ c +:+ ".0"
  /\ anonymizeIp (a +:+ "." +:+ b +:+ "." +:+ c +:+ ".0")
     = a +:+ "." +:+ b +:+ "." +:+ c +:+ ".0".
Proof.
  destruct Ha as [Ha Ha'], Hb as [Hb Hb'], Hc as [Hc Hc'].
  assert (forall d', string_includes d' ":" = false ->
            anonymizeIp (a +:+ "." +:+ b +:+ "." +:+ c +:+ "." +:+ d')
            = a +:+ "." +:+ b +:+ "." +:+ c +:+ ".0") as Hany.
  { intros d' Hd'. unfold anonymizeIp.
    rewrite !string_includes_app.
    change (string_includes "." ":") with false.
    rewrite Ha', Hb', Hc', Hd'. cbn [orb].
    change ("." +:+ b +:+ "." +:+ c +:+ "." +:+ d')
      with (String "." (b +:+ String "." (c +:+ String "." d'))).
    rewrite !split_part by assumption.
    destruct (split_nonempty "." d') as (part & parts & ->).
    reflexivity. }
  split; [apply Hany; exact Hd|].
  change ".0" with ("." +:+ "0"). apply Hany. reflexivity.
Qed.

Lemma anonymizeIp_ipv4_witness :
  anonymizeIp "203.0.113.7" = "203.0.113.0".
Proof.
  apply (anonymizeIp_ipv4 "203" "0" "113" "7");
    (split || idtac); reflexivity.
Defined.

(** X18.  An address with a colon keeps its first three groups, followed by
    five groups [0000], whatever followed the third colon. *)
Theorem anonymizeIp_ipv6 (a b c rest : string)
    (Ha : string_includes a ":" = false)
    (Hb : string_includes b ":" = false)
    (Hc : string_includes c ":" = false) :
  anonymizeIp (a +:+ ":" +:+ b +:+ ":" +:+ c +:+ ":" +:+ rest)
  = a +:+ ":" +:+ b +:+ ":" +:+ c +:+ ":0000:0000:0000:0000:0000".
Proof.
  unfold anonymizeIp.
  rewrite (string_includes_app ":" a).
  change (":" +:+ b +:+ ":" +:+ c +:+ ":" +:+ rest)
    with (String ":" (b +:+ String ":" (c +:+ String ":" rest))).
  rewrite string_includes_char, Ascii.eqb_refl, orb_true_r.
  rewrite !split_part by assumption.
  destruct (split_nonempty ":" rest) as (part & parts & ->).
  reflexivity.
Qed.

Lemma anonymizeIp_ipv6_witness :
  anonymizeIp "2001:db8:85a3:8d3:1319:8a2e:370:7348"
  = "2001:db8:85a3:0000:0000:0000:0000:0000".
Proof.
  apply (anonymizeIp_ipv6 "2001" "db8" "85a3" "8d3:1319:8a2e:370:7348"); reflexivity.
Defined.

(** *** The sample rules *)

Lemma props_lookup_skip (k' : string) (v : option Json)
    (rest : list (string * option Json)) (k : string) :
  k <> k' ->
  (list_to_map (omap (fun p => pair (fst p) <$> snd p) ((k', v) :: rest))
     : gmap string Json) !! k
  = (list_to_map (omap (fun p => pair (fst p) <$> snd p) rest) : gmap string Json) !! k.
Proof.
  intros Hk. cbn [omap list_omap fst snd].
  destruct v as [x|]; cbn [fmap option_fmap option_map]; [|reflexivity].
  cbn [list_to_map foldr curry fst snd]. apply lookup_insert_ne. congruence.
Qed.

Lemma props_lookup_here (k : string) (v : option Json)
    (rest : list (string * option Json)) :
  (list_to_map (omap (fun p => pair (fst p) <$> snd p) ((k, v) :: rest))
     : gmap string Json) !! k
  = match v with
    | Some x => Some x
    | None =>
        (list_to_map (omap (fun p => pair (fst p) <$> snd p) rest) : gmap string Json) !! k
    end.
Proof.
  cbn [omap list_omap fst snd].
  destruct v as [x|]; cbn [fmap option_fmap option_map]; [|reflexivity].
  cbn [list_to_map foldr curry fst snd]. apply lookup_insert_eq.
Qed.

Ltac skip_props := repeat (rewrite props_lookup_skip by discriminate).

Section SampleRules.
Context `{Runtime}.

Lemma event_incognito (event : EnrichedEvent) :
  getNestedValue (EnrichedEvent_object event) "fingerprintData.incognito"
  = Some (JBool (incognito (fingerprintData event))).
Proof.
  unfold getNestedValue.
  replace (split_dot "fingerprintData.incognito")
    with ["fingerprintData"; "incognito"] by reflexivity.
  unfold EnrichedEvent_object, object_of. cbn [getNestedValue_loop get_property].
  skip_props. rewrite props_lookup_here.
  unfold DeviceData_object, object_of. cbn [get_property].
  skip_props. rewrite props_lookup_here. reflexivity.
Qed.

Lemma event_country (event : EnrichedEvent) :
  getNestedValue (EnrichedEvent_object event) "geoData.country"
  = JStr <$> (geoData event ≫= country).
Proof.
  unfold getNestedValue.
  replace (split_dot "geoData.country") with ["geoData"; "country"] by reflexivity.
  unfold EnrichedEvent_object, object_of. cbn [getNestedValue_loop get_property].
  skip_props. rewrite props_lookup_here.
  destruct (geoData event) as [g|]; cbn [fmap option_fmap option_map mbind option_bind].
  - unfold GeoData_object, object_of. cbn [get_property].
    rewrite props_lookup_here. destruct (country g); [reflexivity|].
    cbn [fmap option_fmap option_map]. skip_props. reflexivity.
  - skip_props. reflexivity.
Qed.

(** The first sample rule fires exactly on the built-in country signal, the
    second exactly on the built-in incognito signal. *)
Lemma sample_rules_fire (merchantId : string) (event : EnrichedEvent) :
  List.map (fun rule => isActive rule && evaluateRule rule event) (sample_rules merchantId)
  = [country_is_high_risk event; incognito (fingerprintData event)].
Proof.
  cbn [sample_rules List.map isActive andb evaluateRule conditions forallb].
  unfold evaluateCondition. cbn [field operator value].
  rewrite event_incognito, event_country. f_equal; [|f_equal].
  - unfold country_is_high_risk, highRiskCountries.
    destruct (geoData event ≫= country) as [c|];
      cbn [fmap option_fmap option_map array_includes existsb strict_equals orb];
      [|reflexivity].
    rewrite !orb_false_r.
    repeat case_bool_decide; subst; try reflexivity;
      rewrite ?elem_of_cons, ?elem_of_nil in *; try tauto; try congruence.
    all: exfalso; intuition congruence.
  - cbn [strict_equals]. rewrite andb_true_r.
    destruct (incognito (fingerprintData event)); reflexivity.
Qed.

End SampleRules.

(** *** Settings and rules of a merchant that the cache does not know *)

Section FirstEvaluation.
Context `{Runtime}.
Variable config : Config.

Lemma rules_key_not_settings_key (m : string) : rules_key m <> settings_key m.
Proof.
  unfold rules_key, settings_key. intros Heq.
  apply (inj (String.append "merchant:")), (inj (String.append m)) in Heq.
  discriminate Heq.
Qed.

Lemma getMerchantSettings_fresh (m : string) (w : World)
    (db : gmap string (Redis.Entry Cached)) :
  redisClient w = Some db ->
  Redis.GET (seconds w) (settings_key m) db = None ->
  getMerchantSettings m w
  = (Ok DEFAULT_MERCHANT_SETTINGS,
     set_redis (Redis.SETEX (seconds w) (settings_key m) 300
                  (CSettings DEFAULT_MERCHANT_SETTINGS) db) w).
Proof.
  intros Hdb Hfresh.
  unfold getMerchantSettings, try_catch, getRedisJson, setRedisValue, bind,
    getRedisClient, gets, modify, ret.
  rewrite Hdb, Hfresh. cbn. rewrite Hdb. reflexivity.
Qed.

Lemma getMerchantSettings_cached (m : string) (settings : MerchantSettings) (w : World)
    (db : gmap string (Redis.Entry Cached)) :
  redisClient w = Some db ->
  Redis.GET (seconds w) (settings_key m) db = Some (CSettings settings) ->
  getMerchantSettings m w = (Ok settings, w).
Proof.
  intros Hdb Hcached.
  unfold getMerchantSettings, try_catch, getRedisJson, bind, getRedisClient, gets, ret.
  rewrite Hdb, Hcached. reflexivity.
Qed.

Lemma getMerchantRules_fresh (m : string) (w : World)
    (db : gmap string (Redis.Entry Cached)) :
  redisClient w = Some db ->
  Redis.GET (seconds w) (rules_key m) db = None ->
  getMerchantRules m w
  = (Ok (sample_rules m),
     set_redis (Redis.SETEX (seconds w) (rules_key m) 300
                  (CRules (sample_rules m)) db) w).
Proof.
  intros Hdb Hfresh.
  unfold getMerchantRules, try_catch, getRedisJson, setRedisValue, bind,
    getRedisClient, gets, modify, ret.
  rewrite Hdb, Hfresh. cbn. rewrite Hdb. reflexivity.
Qed.

(** X19.  For a merchant for whom the cache holds no settings,
    [getMerchantSettings] returns the default settings and caches them with
    a life of 300 seconds.  At every later instant whose whole second comes
    less than 300 seconds after the whole second of that call (so during the
    first 299 seconds at least) a call returns them without touching the
    cache; at every instant that is 300 seconds or more after it, a call
    finds the key expired and caches the default settings again. *)
Theorem merchant_settings_cached_for_300_seconds
    (m : string) (w : World) (db : gmap string (Redis.Entry Cached))
    (Hclient : redisClient w = Some db)
    (Hfresh : db !! settings_key m = None) :
  exists w1 db1,
    getMerchantSettings m w = (Ok DEFAULT_MERCHANT_SETTINGS, w1)
    /\ redisClient w1 = Some db1
    /\ (forall t, t / 1000 < clock w / 1000 + 300 ->
          getMerchantSettings m (set_clock t w1)
          = (Ok DEFAULT_MERCHANT_SETTINGS, set_clock t w1))
    /\ (forall t, clock w + 300 * 1000 <= t ->
          getMerchantSettings m (set_clock t w1)
          = (Ok DEFAULT_MERCHANT_SETTINGS,
             set_redis (Redis.SETEX (t / 1000) (settings_key m) 300
                          (CSettings DEFAULT_MERCHANT_SETTINGS) db1)
               (set_clock t w1))).
Proof.
  assert (Redis.GET (seconds w) (settings_key m) db = None) as Hmissing
    by (unfold Redis.GET; rewrite Hfresh; reflexivity).
  rewrite (getMerchantSettings_fresh m w db Hclient Hmissing).
  eexists _, _. split; [reflexivity|]. split; [reflexivity|]. split.
  - intros t Ht. eapply getMerchantSettings_cached; [reflexivity|].
    unfold Redis.GET, Redis.SETEX. rewrite lookup_insert_eq. unfold Redis.live.
    cbn [Redis.expires_at Redis.value].
    change (seconds (set_clock t _)) with (t / 1000). unfold seconds.
    replace (t / 1000 <? clock w / 1000 + 300) with true
      by (symmetry; apply Z.ltb_lt; exact Ht).
    reflexivity.
  - intros t Ht.
    erewrite getMerchantSettings_fresh; [reflexivity|reflexivity|].
    unfold Redis.GET, Redis.SETEX. rewrite lookup_insert_eq. unfold Redis.live.
    cbn [Redis.expires_at Redis.value].
    change (seconds (set_clock t _)) with (t / 1000). unfold seconds.
    replace (t / 1000 <? clock w / 1000 + 300) with false
      by (symmetry; apply Z.ltb_ge; Z.div_mod_to_equations; lia).
    reflexivity.
Qed.

Lemma total_contribution_nonneg (b : bool) (p : Q) (f : string) :
  (0 <= p)%Q -> (0 <= total (contribution b p f))%Q.
Proof. intros Hp. destruct b; unfold total; cbn; lra. Qed.

(** X20.  For a merchant whose rules the cache does not hold, the two sample
    rules apply, and they repeat two built-in signals: rule 1 fires exactly
    when [high_risk_country] does and adds 30 to its 20, rule 2 fires exactly
    when [incognito_mode] does and adds 50 to its 15.  So an incognito
    visitor scores at least 65 and a visitor from a listed country at least
    50. *)
Theorem first_evaluation_counts_signals_twice
    (event : EnrichedEvent) (w : World) (db : gmap string (Redis.Entry Cached))
    (Hclient : redisClient w = Some db)
    (Hfresh : db !! rules_key (merchantId event) = None)
    (Hconnected : producer_connected w = true) :
  let twice :=
    (contribution (country_is_high_risk event) 30 "rule_1"
     ++ contribution (incognito (fingerprintData event)) 50 "rule_2")%list in
  exists riskScore w',
    calculateRiskScore config event w = (Ok riskScore, w')
    /\ riskFactors riskScore = List.map snd (contributions event [] ++ twice)%list
    /\ (score riskScore
        == Math_max 0 (Math_min 100 (total (contributions event [] ++ twice)%list)))%Q
    /\ (incognito (fingerprintData event) = true -> (65 <= score riskScore)%Q)
    /\ (country_is_high_risk event = true -> (50 <= score riskScore)%Q).
Proof.
  intros twice.
  destruct (calculateRiskScore_try_runs config event w)
    as (settings & w1 & rules & w2 & w3 & id & evaluationId & Hs & Hr & _ & Htry).
  cbv zeta in Htry. rewrite Hconnected in Htry.
  destruct (getMerchantSettings_cache (merchantId event) w db Hclient)
    as (settings' & w1' & db1 & Hs' & Hdb1 & Hclock1 & _ & Hframe).
  rewrite Hs in Hs'. injection Hs' as <- <-.
  assert (Redis.GET (seconds w1) (rules_key (merchantId event)) db1 = None) as Hfresh1.
  { unfold Redis.GET. rewrite Hframe by apply rules_key_not_settings_key.
    rewrite Hfresh. reflexivity. }
  rewrite (getMerchantRules_fresh _ w1 db1 Hdb1 Hfresh1) in Hr.
  injection Hr as <- _.
  assert (contributions event (sample_rules (merchantId event))
          = (contributions event [] ++ twice)%list) as Hcontrib.
  { pose proof (sample_rules_fire (merchantId event) event) as Hfire.
    unfold contributions.
    cbn [sample_rules List.map flat_map isActive riskScoreAdjustment rule_id] in Hfire |- *.
    injection Hfire as -> ->.
    rewrite !app_nil_r, <- !app_assoc. reflexivity. }
  destruct (tally_contributions event (sample_rules (merchantId event)))
    as [Hfactors Htotal].
  rewrite Hcontrib in Hfactors, Htotal.
  unfold calculateRiskScore, try_catch. rewrite Htry.
  eexists _, _. split; [reflexivity|]. cbn [riskFactors score].
  split; [exact Hfactors|].
  assert (Math_max 0 (Math_min 100 (fst (tally event (sample_rules (merchantId event)))))
          == Math_max 0 (Math_min 100 (total (contributions event [] ++ twice)%list)))%Q
    as Hscore.
  { unfold Math_max, Math_min.
    destruct (Qle_bool 100 (fst (tally event (sample_rules (merchantId event))))) eqn:E1;
      [apply Qle_bool_true in E1 | apply Qle_bool_false in E1];
      (destruct (Qle_bool 100 (total (contributions event [] ++ twice)%list)) eqn:E2;
         [apply Qle_bool_true in E2 | apply Qle_bool_false in E2]);
      try lra.
    destruct (Qle_bool 0 (fst (tally event (sample_rules (merchantId event))))) eqn:E3;
      [apply Qle_bool_true in E3 | apply Qle_bool_false in E3];
      (destruct (Qle_bool 0 (total (contributions event [] ++ twice)%list)) eqn:E4;
         [apply Qle_bool_true in E4 | apply Qle_bool_false in E4]);
      lra. }
  split; [exact Hscore|].
  assert (forall x bound, (bound <= 100)%Q -> (0 <= bound)%Q -> (bound <= x)%Q ->
            (bound <= Math_max 0 (Math_min 100 x))%Q) as Hclamp.
  { intros x bound H100 H0 Hx.
    destruct (clamp_bounds x) as (_ & Hin & _ & Hhigh).
    destruct (Qlt_le_dec 100 x) as [Hgt|Hle]; [rewrite (Hhigh Hgt); exact H100|].
    rewrite Hin by lra. exact Hx. }
  assert (0 <= total (contribution (confidence_in event None (Some 0.3%Q)) 30
                        "low_device_confidence"))%Q as N1
    by (apply total_contribution_nonneg; lra).
  assert (0 <= total (contribution (confidence_in event (Some 0.3%Q) (Some 0.7%Q)) 10
                        "medium_device_confidence"))%Q as N2
    by (apply total_contribution_nonneg; lra).
  assert (0 <= total (contribution (incognito (fingerprintData event)) 15
                        "incognito_mode"))%Q as N3
    by (apply total_contribution_nonneg; lra).
  assert (0 <= total (contribution (country_is_high_risk event) 20
                        "high_risk_country"))%Q as N4
    by (apply total_contribution_nonneg; lra).
  assert (0 <= total (contribution (session_velocity_above event 10) 25
                        "high_session_velocity"))%Q as N5
    by (apply total_contribution_nonneg; lra).
  assert (0 <= total (contribution (ip_velocity_above event 20) 30
                        "high_ip_velocity"))%Q as N6
    by (apply total_contribution_nonneg; lra).
  assert (0 <= total (contribution (country_is_high_risk event) 30 "rule_1"))%Q as N7
    by (apply total_contribution_nonneg; lra).
  assert (0 <= total (contribution (incognito (fingerprintData event)) 50 "rule_2"))%Q
    as N8 by (apply total_contribution_nonneg; lra).
  assert (total (contributions event [] ++ twice)%list
          == total (contribution (confidence_in event None (Some 0.3%Q)) 30
                      "low_device_confidence")
             + total (contribution (confidence_in event (Some 0.3%Q) (Some 0.7%Q)) 10
                        "medium_device_confidence")
             + total (contribution (incognito (fingerprintData event)) 15 "incognito_mode")
             + total (contribution (country_is_high_risk event) 20 "high_risk_country")
             + total (contribution (session_velocity_above event 10) 25
                        "high_session_velocity")
             + total (contribution (ip_velocity_above event 20) 30 "high_ip_velocity")
             + total (contribution (country_is_high_risk event) 30 "rule_1")
             + total (contribution (incognito (fingerprintData event)) 50 "rule_2"))%Q
    as Hsum.
  { unfold contributions, twice. cbn [flat_map]. rewrite !total_app.
    change (total []) with 0%Q. lra. }
  split.
  - intros Hincognito. rewrite Hscore. apply Hclamp; [lra|lra|].
    rewrite Hsum. rewrite Hincognito in N3, N8 |- *.
    change (total (contribution true 15 "incognito_mode")) with (15 + 0)%Q in *.
    change (total (contribution true 50 "rule_2")) with (50 + 0)%Q in *.
    lra.
  - intros Hcountry. rewrite Hscore. apply Hclamp; [lra|lra|].
    rewrite Hsum. rewrite Hcountry in N4, N7 |- *.
    change (total (contribution true 20 "high_risk_country")) with (20 + 0)%Q in *.
    change (total (contribution true 30 "rule_1")) with (30 + 0)%Q in *.
    lra.
Qed.

End FirstEvaluation.

(** *** Evaluation while the cache is down *)

Section CacheDown.
Context `{Runtime}.
Variable config : Config.

Lemma getMerchantSettings_down (m : string) (w : World) :
  redisClient w = None ->
  getMerchantSettings m w
  = (Ok DEFAULT_MERCHANT_SETTINGS,
     set_error_log
       (error_log w ++ ["Error getting merchant settings: Redis client not initialized"])%list
       w).
Proof.
  intros Hdown.
  unfold getMerchantSettings, try_catch, getRedisJson, bind, getRedisClient.
  rewrite Hdown. reflexivity.
Qed.

Lemma getMerchantRules_down (m : string) (w : World) :
  redisClient w = None ->
  getMerchantRules m w
  = (Ok [],
     set_error_log
       (error_log w ++ ["Error getting merchant rules: Redis client not initialized"])%list
       w).
Proof.
  intros Hdown.
  unfold getMerchantRules, try_catch, getRedisJson, bind, getRedisClient.
  rewrite Hdown. reflexivity.
Qed.

Lemma getVelocityData_down (event : EnrichedEvent) (w : World) :
  redisClient w = None ->
  getVelocityData event w
  = (Ok empty_velocity,
     set_error_log
       (error_log w ++ ["Error calculating velocity data: Redis client not initialized"])%list
       w).
Proof.
  intros Hdown.
  unfold getVelocityData, try_catch, incrRedisValue, bind, getRedisClient.
  rewrite Hdown. reflexivity.
Qed.

(** X21.  With the cache client down an evaluation still goes through: the
    enrichment resolves with an empty velocity record and no anonymised
    address (the default settings do not ask for one), and the risk score is
    computed under the default threshold 70 from the device and country
    signals alone: no rule applies and no velocity signal fires.  The cache
    stays down and four errors are logged. *)
Theorem evaluation_without_cache
    (event : EnrichedEvent) (w : World)
    (Hclient : redisClient w = None)
    (Hconnected : producer_connected w = true) :
  exists event' w1 riskScore w2,
    enrichData event w = (Ok event', w1)
    /\ velocityData event' = Some empty_velocity
    /\ anonymizedIp event' = anonymizedIp event
    /\ calculateRiskScore config event' w1 = (Ok riskScore, w2)
    /\ riskFactors riskScore = List.map snd (contributions event' [])
    /\ session_velocity_above event' 10 = false
    /\ ip_velocity_above event' 20 = false
    /\ isFraud riskScore = Qle_bool 70 (score riskScore)
    /\ redisClient w2 = None
    /\ length (error_log w2) = (length (error_log w) + 4)%nat.
Proof.
  set (w0 := set_error_log
               (error_log w
                ++ ["Error getting merchant settings: Redis client not initialized"])%list w).
  destruct (lookupIp_runs (ipAddress event) w0) as [geo Hgeo].
  set (event2 := with_geoData geo event).
  set (w1 := set_error_log
               (error_log w0
                ++ ["Error calculating velocity data: Redis client not initialized"])%list w0).
  assert (enrichData event w = (Ok (with_velocityData empty_velocity event2), w1)) as Henrich.
  { unfold enrichData, try_catch.
    unfold bind at 1. rewrite (getMerchantSettings_down _ w Hclient). fold w0.
    cbn [ipAnonymization DEFAULT_MERCHANT_SETTINGS].
    unfold bind at 1. rewrite Hgeo. fold event2.
    unfold bind at 1. rewrite (getVelocityData_down event2 w0 Hclient).
    reflexivity. }
  set (event' := with_velocityData empty_velocity event2) in *.
  destruct (tally_contributions event' []) as [Hfactors _].
  assert (exists riskScore w2,
            calculateRiskScore config event' w1 = (Ok riskScore, w2)
            /\ riskFactors riskScore = snd (tally event' [])
            /\ isFraud riskScore = Qle_bool 70 (score riskScore)
            /\ redisClient w2 = None
            /\ length (error_log w2) = (length (error_log w1) + 2)%nat) as Hscore.
  { unfold calculateRiskScore, try_catch, calculateRiskScore_try.
    unfold bind at 1. rewrite (getMerchantSettings_down _ w1 Hclient).
    unfold bind at 1. rewrite getMerchantRules_down by exact Hclient.
    destruct (tally event' []) as [points factors].
    unfold evaluationId_or_fresh.
    destruct (evaluationId event') as [[|c e]|];
      unfold bind, uuidv4, Date_now, gets, produceEvent, ret; unfold w1, w0;
      cbn [producer_connected set_uuid_seed set_error_log]; rewrite Hconnected;
      eexists _, _; (split; [reflexivity|]);
      cbn [riskFactors isFraud score snd riskThreshold DEFAULT_MERCHANT_SETTINGS
           redisClient set_produced set_uuid_seed set_error_log error_log];
      rewrite !length_app; cbn [length]; repeat split; try exact Hclient; lia. }
  destruct Hscore as (riskScore & w2 & Hrun & Hrf & Hfraud & Hdown & Hlog).
  exists event', w1, riskScore, w2.
  split; [exact Henrich|]. split; [reflexivity|]. split; [reflexivity|].
  split; [exact Hrun|]. split; [rewrite Hrf; exact Hfactors|].
  split; [reflexivity|]. split; [reflexivity|]. split; [exact Hfraud|].
  split; [exact Hdown|].
  rewrite Hlog. unfold w1, w0. cbn [error_log set_error_log].
  rewrite !length_app. cbn [length]. lia.
Qed.

End CacheDown.

(** *** The last-seen timestamp of a device *)

Lemma after_increment_value (now : Z) (key : string)
    (db : gmap string (Redis.Entry Cached)) :
  is_counter now key db = true ->
  exists n e,
    after_increment now key db !! key
    = Some {| Redis.value := CInt n; Redis.expires_at := e |}.
Proof.
  unfold is_counter, after_increment, Redis.INCR, Redis.GET, Redis.SETEX.
  intros Hcounter.
  destruct (db !! key) as [[v e]|] eqn:Hkey; cbn in *.
  - destruct (Redis.live now {| Redis.value := v; Redis.expires_at := e |}) eqn:Hlive.
    + destruct v as [n| | |]; try discriminate. cbn.
      destruct (n + 1 =? 1); rewrite lookup_insert_eq; eexists _, _; reflexivity.
    + cbn. rewrite lookup_insert_eq. eexists _, _; reflexivity.
  - cbn. rewrite lookup_insert_eq. eexists _, _; reflexivity.
Qed.

(** A well-formed counter stays one, at any later time and whatever counter
    is incremented. *)
Lemma is_counter_kept (now t : Z) (key k : string)
    (db : gmap string (Redis.Entry Cached)) :
  now <= t ->
  is_counter now k db = true ->
  is_counter t k (after_increment now key db) = true.
Proof.
  intros Ht Hcounter.
  destruct (base.decide (k = key)) as [->|Hne].
  - destruct (after_increment_value now key db Hcounter) as (n & e & Hentry).
    unfold is_counter, Redis.GET. rewrite Hentry. cbn.
    destruct (Redis.live t _); reflexivity.
  - unfold is_counter, Redis.GET in *.
    rewrite after_increment_other by exact Hne.
    destruct (db !! k) as [[v [e|]]|]; [| exact Hcounter | reflexivity].
    unfold Redis.live in *. cbn in *.
    destruct (Z.ltb_spec now e), (Z.ltb_spec t e); try lia; try reflexivity.
    exact Hcounter.
Qed.

Ltac in_list := repeat first [apply list_elem_of_here | apply list_elem_of_further].

Section LastSeen.
Context `{Runtime}.

(** X22.  The last-seen timestamp that an evaluation reports for a device is
    the clock of the previous evaluation of that device, whatever merchant
    and address that one had, at every instant whose whole second comes less
    than 86400 seconds after the whole second of that evaluation (so during
    the first 86399 seconds at least); at every instant that is 86400 seconds
    or more after it the device counts as never seen. *)
Theorem last_seen_is_previous_evaluation
    (event1 event2 : EnrichedEvent) (w : World) (db : gmap string (Redis.Entry Cached))
    (t : Z)
    (Hclient : redisClient w = Some db)
    (Hdevice : visitorId (fingerprintData event2) = visitorId (fingerprintData event1))
    (Hcounters :
       forall k,
         k ∈ [ merchantSessionKey (merchantId event1); ipSessionKey (ipAddress event1);
               deviceKey (visitorId (fingerprintData event1));
               merchantSessionKey (merchantId event2); ipSessionKey (ipAddress event2) ] ->
         is_counter (seconds w) k db = true)
    (Hlater : seconds w <= t / 1000) :
  exists v1 w1 v2 w2,
    getVelocityData event1 w = (Ok v1, w1)
    /\ getVelocityData event2 (set_clock t w1) = (Ok v2, w2)
    /\ (t / 1000 < clock w / 1000 + 86400 -> lastSeenTimestamp v2 = Some (clock w))
    /\ (clock w + 86400 * 1000 <= t -> lastSeenTimestamp v2 = None).
Proof.
  set (now := seconds w).
  set (k1 := merchantSessionKey (merchantId event1)).
  set (k2 := ipSessionKey (ipAddress event1)).
  set (k3 := deviceKey (visitorId (fingerprintData event1))).
  set (seen := lastSeenKey (visitorId (fingerprintData event1))).
  set (m2 := merchantSessionKey (merchantId event2)).
  set (i2 := ipSessionKey (ipAddress event2)).
  fold now k1 k2 k3 m2 i2 in Hcounters.
  assert (forall k, k ∈ [k1; k2; k3; m2; i2] -> k <> seen) as Hseen.
  { intros k Hk.
    destruct (velocity_keys_distinct (merchantId event1) (ipAddress event1)
                (visitorId (fingerprintData event1))) as (_ & _ & _ & S1 & S2 & S3).
    destruct (velocity_keys_distinct (merchantId event2) (ipAddress event2)
                (visitorId (fingerprintData event1))) as (_ & _ & _ & S4 & S5 & _).
    rewrite !elem_of_cons, elem_of_nil in Hk.
    destruct Hk as [->|[->|[->|[->|[->|[]]]]]]; assumption. }
  pose proof (getVelocityData_counts event1 w db) as Hfirst.
  cbv zeta in Hfirst. fold now k1 k2 k3 seen in Hfirst.
  specialize (Hfirst Hclient).
  do 3 (specialize (Hfirst ltac:(apply Hcounters; in_list))).
  set (db3 := after_increment now k3 (after_increment now k2 (after_increment now k1 db)))
    in *.
  set (db1 := Redis.SETEX now seen (24 * 60 * 60) (CInt (clock w)) db3) in *.
  assert (forall k, k ∈ [k1; k2; k3; m2; i2] -> is_counter (t / 1000) k db1 = true)
    as Hcounters1.
  { intros k Hk. unfold is_counter, Redis.GET, db1, Redis.SETEX.
    rewrite lookup_insert_ne by (apply not_eq_sym, Hseen; exact Hk).
    apply (is_counter_kept now (t / 1000) k3 k _ Hlater).
    apply (is_counter_kept now now k2 k _ (Z.le_refl _)).
    apply (is_counter_kept now now k1 k _ (Z.le_refl _)).
    apply Hcounters. exact Hk. }
  pose proof (getVelocityData_counts event2 (set_clock t (set_redis db1 w)) db1) as Hsecond.
  cbv zeta in Hsecond. rewrite Hdevice in Hsecond.
  change (seconds (set_clock t (set_redis db1 w))) with (t / 1000) in Hsecond.
  fold k3 seen m2 i2 in Hsecond.
  specialize (Hsecond eq_refl).
  do 3 (specialize (Hsecond ltac:(apply Hcounters1; in_list))).
  eexists _, _, _, _. split; [exact Hfirst|]. split; [exact Hsecond|].
  cbn [lastSeenTimestamp].
  destruct (GET_other (t / 1000) k3 seen
              (after_increment (t / 1000) i2 (after_increment (t / 1000) m2 db1)))
    as (-> & _); [apply not_eq_sym, Hseen; in_list|].
  destruct (GET_other (t / 1000) i2 seen (after_increment (t / 1000) m2 db1))
    as (-> & _); [apply not_eq_sym, Hseen; in_list|].
  destruct (GET_other (t / 1000) m2 seen db1)
    as (-> & _); [apply not_eq_sym, Hseen; in_list|].
  unfold db1, Redis.GET, Redis.SETEX. rewrite lookup_insert_eq.
  unfold Redis.live. cbn [Redis.expires_at Redis.value].
  change (24 * 60 * 60) with 86400. unfold now, seconds.
  split; intros Ht.
  - replace (t / 1000 <? clock w / 1000 + 86400) with true
      by (symmetry; apply Z.ltb_lt; exact Ht).
    reflexivity.
  - replace (t / 1000 <? clock w / 1000 + 86400) with false
      by (symmetry; apply Z.ltb_ge; Z.div_mod_to_equations; lia).
    reflexivity.
Qed.

End LastSeen.

Lemma merchant_settings_cached_for_300_seconds_witness :
  exists w1,
    getMerchantSettings "merchant-123" (Samples.evaluator_world true)
    = (Ok DEFAULT_MERCHANT_SETTINGS, w1)
    /\ getMerchantSettings "merchant-123" (set_clock 1700000299000 w1)
       = (Ok DEFAULT_MERCHANT_SETTINGS, set_clock 1700000299000 w1).
Proof.
  destruct (merchant_settings_cached_for_300_seconds "merchant-123"
              (Samples.evaluator_world true) ∅ eq_refl eq_refl)
    as (w1 & db1 & Hfirst & _ & Hcached & _).
  exists w1. split; [exact Hfirst|]. apply Hcached. vm_compute. reflexivity.
Defined.

Lemma first_evaluation_counts_signals_twice_witness :
  exists riskScore w',
    calculateRiskScore (H := Samples.sample_runtime) default_config
      (Samples.event "merchant-123" "session-123" "203.0.113.7"
         (Samples.device "visitor-123" (Some 0.9%Q) true)
         (Some (Samples.geo "US")) None)
      (Samples.evaluator_world true)
    = (Ok riskScore, w')
    /\ (65 <= score riskScore)%Q.
Proof.
  destruct (first_evaluation_counts_signals_twice (H := Samples.sample_runtime)
              default_config
              (Samples.event "merchant-123" "session-123" "203.0.113.7"
                 (Samples.device "visitor-123" (Some 0.9%Q) true)
                 (Some (Samples.geo "US")) None)
              (Samples.evaluator_world true) ∅ eq_refl eq_refl eq_refl)
    as (riskScore & w' & Hrun & _ & _ & Hincognito & _).
  exists riskScore, w'. split; [exact Hrun|]. apply Hincognito. reflexivity.
Defined.

Lemma evaluation_without_cache_witness :
  exists event' w1 riskScore w2,
    enrichData
      (Samples.event "merchant-123" "session-123" "203.0.113.7"
         (Samples.device "visitor-123" (Some 0.2%Q) true) None None)
      {| redisClient := None; geoIpReader := None; producer_connected := true;
         produced := []; clock := 1700000000000; uuid_seed := 0; error_log := [] |}
    = (Ok event', w1)
    /\ velocityData event' = Some empty_velocity
    /\ calculateRiskScore (H := Samples.sample_runtime) default_config event' w1
       = (Ok riskScore, w2)
    /\ length (error_log w2) = 4%nat.
Proof.
  destruct (evaluation_without_cache (H := Samples.sample_runtime) default_config
              (Samples.event "merchant-123" "session-123" "203.0.113.7"
                 (Samples.device "visitor-123" (Some 0.2%Q) true) None None)
              {| redisClient := None; geoIpReader := None; producer_connected := true;
                 produced := []; clock := 1700000000000; uuid_seed := 0;
                 error_log := [] |}
              eq_refl eq_refl)
    as (event' & w1 & riskScore & w2 & Henrich & Hvelocity & _ & Hrun & _ & _ & _ & _ & _
          & Hlog).
  exists event', w1, riskScore, w2. repeat split; assumption.
Defined.

Lemma last_seen_is_previous_evaluation_witness :
  exists v1 w1 v2 w2,
    getVelocityData
      (Samples.event "merchant-123" "session-1" "203.0.113.7"
         (Samples.device "visitor-1" (Some 0.9%Q) false) None None)
      (Samples.evaluator_world true)
    = (Ok v1, w1)
    /\ getVelocityData
         (Samples.event "merchant-9" "session-2" "198.51.100.9"
            (Samples.device "visitor-1" (Some 0.9%Q) false) None None)
         (set_clock 1700000060000 w1)
       = (Ok v2, w2)
    /\ lastSeenTimestamp v2 = Some 1700000000000.
Proof.
  destruct (last_seen_is_previous_evaluation
              (Samples.event "merchant-123" "session-1" "203.0.113.7"
                 (Samples.device "visitor-1" (Some 0.9%Q) false) None None)
              (Samples.event "merchant-9" "session-2" "198.51.100.9"
                 (Samples.device "visitor-1" (Some 0.9%Q) false) None None)
              (Samples.evaluator_world true) ∅ 1700000060000 eq_refl eq_refl
              ltac:(intros k _; unfold is_counter, Redis.GET; rewrite lookup_empty;
                    reflexivity)
              ltac:(vm_compute; discriminate))
    as (v1 & w1 & v2 & w2 & Hfirst & Hsecond & Hseen & _).
  exists v1, w1, v2, w2. split; [exact Hfirst|]. split; [exact Hsecond|].
  apply Hseen. vm_compute. reflexivity.
Defined.

(** *** What an evaluation publishes and what it keeps of the address *)

Section Published.
Context `{Runtime}.
Variable config : Config.

Lemma produced_kept_getMerchantSettings (m : string) (w : World) :
  produced (snd (getMerchantSettings m w)) = produced w.
Proof.
  unfold getMerchantSettings, try_catch, getRedisJson, setRedisValue, bind,
    getRedisClient, gets, logger_error, modify, ret.
  destruct (redisClient w) as [db|] eqn:Hdb; [|reflexivity].
  destruct (Redis.GET (seconds w) (settings_key m) db) as [[n|s|rs|[|c t]]|];
    cbn; rewrite ?Hdb; reflexivity.
Qed.

Lemma produced_kept_getMerchantRules (m : string) (w : World) :
  produced (snd (getMerchantRules m w)) = produced w.
Proof.
  unfold getMerchantRules, try_catch, getRedisJson, setRedisValue, bind,
    getRedisClient, gets, logger_error, modify, ret.
  destruct (redisClient w) as [db|] eqn:Hdb; [|reflexivity].
  destruct (Redis.GET (seconds w) (rules_key m) db) as [[n|s|rs|[|c t]]|];
    cbn; rewrite ?Hdb; reflexivity.
Qed.

(** X23.  [calculateRiskScore] publishes the risk score it returns, once,
    on the topic of risk scores, when the producer is connected, and
    publishes nothing when it is not.  Either way the risk score carries the
    session, the merchant and the device of the event, and the evaluation id
    of the event if it has one. *)
Theorem risk_score_is_published_once (event : EnrichedEvent) (w : World) :
  exists riskScore w',
    calculateRiskScore config event w = (Ok riskScore, w')
    /\ produced w'
       = (if producer_connected w
          then produced w ++ [(riskScoresTopic config, riskScore)]
          else produced w)%list
    /\ rs_sessionId riskScore = sessionId event
    /\ rs_merchantId riskScore = merchantId event
    /\ rs_visitorId riskScore = visitorId (fingerprintData event)
    /\ match evaluationId event with
       | Some "" | None => True
       | Some e => rs_evaluationId riskScore = e
       end.
Proof.
  destruct (getMerchantSettings_runs (merchantId event) w)
    as (settings & w1 & Hs & Hp1 & _).
  pose proof (produced_kept_getMerchantSettings (merchantId event) w) as Hk1.
  rewrite Hs in Hk1. cbn [snd] in Hk1.
  destruct (getMerchantRules_runs (merchantId event) w1)
    as (rules & w2 & Hr & Hp2 & _).
  pose proof (produced_kept_getMerchantRules (merchantId event) w1) as Hk2.
  rewrite Hr in Hk2. cbn [snd] in Hk2.
  unfold calculateRiskScore, try_catch, calculateRiskScore_try.
  unfold bind at 1. rewrite Hs. unfold bind at 1. rewrite Hr.
  destruct (tally event rules) as [points factors].
  unfold calculateRiskScore_catch, evaluationId_or_fresh.
  destruct (evaluationId event) as [[|c e]|];
    unfold bind, uuidv4, Date_now, gets, produceEvent, logger_error, modify, ret;
    cbn [producer_connected set_uuid_seed]; rewrite Hp2, Hp1;
    destruct (producer_connected w); eexists _, _; (split; [reflexivity|]);
    cbn; rewrite ?Hk2, ?Hk1; repeat split.
Qed.

(** X24.  With the settings of the merchant in the cache, the enrichment
    records the anonymised address exactly when the settings ask for it, and
    only there: the event keeps the address as it came, and the geo lookup
    uses that address, with or without anonymisation. *)
Theorem anonymisation_keeps_the_address
    (event : EnrichedEvent) (settings : MerchantSettings) (w : World)
    (db : gmap string (Redis.Entry Cached))
    (Hclient : redisClient w = Some db)
    (Hsettings :
       Redis.GET (seconds w) (settings_key (merchantId event)) db
       = Some (CSettings settings)) :
  exists event' w',
    enrichData event w = (Ok event', w')
    /\ anonymizedIp event'
       = (if ipAnonymization settings
          then Some (anonymizeIp (ipAddress event))
          else anonymizedIp event)
    /\ ipAddress event' = ipAddress event
    /\ geoData event'
       = Some match geoIpReader w with
              | Some reader => default no_geo (reader (ipAddress event))
              | None => no_geo
              end.
Proof.
  unfold enrichData, try_catch.
  unfold bind at 1.
  rewrite (getMerchantSettings_cached (merchantId event) settings w db Hclient Hsettings).
  set (event1 := if ipAnonymization settings
                 then with_anonymizedIp (anonymizeIp (ipAddress event)) event
                 else event).
  assert (ipAddress event1 = ipAddress event) as Hip
    by (unfold event1; destruct (ipAnonymization settings); reflexivity).
  assert (anonymizedIp event1
          = if ipAnonymization settings
            then Some (anonymizeIp (ipAddress event))
            else anonymizedIp event) as Hanon
    by (unfold event1; destruct (ipAnonymization settings); reflexivity).
  unfold bind at 1.
  assert (lookupIp (ipAddress event1) w
          = (Ok match geoIpReader w with
                | Some reader => default no_geo (reader (ipAddress event))
                | None => no_geo
                end, w)) as Hgeo.
  { rewrite Hip. unfold lookupIp. destruct (geoIpReader w) as [reader|]; [|reflexivity].
    destruct (reader (ipAddress event)); reflexivity. }
  rewrite Hgeo.
  unfold bind at 1.
  match goal with
  | |- context [getVelocityData ?e w] =>
      assert (exists v wv, getVelocityData e w = (Ok v, wv)) as (v & wv & Hv)
  end.
  { unfold getVelocityData, try_catch.
    match goal with
    | |- context [let (_, _) := ?body w in _] => destruct (body w) as [[v|e] wv]
    end.
    - eexists _, _. reflexivity.
    - unfold bind, logger_error, modify, ret. eexists _, _. reflexivity. }
  rewrite Hv. unfold ret. eexists _, _. split; [reflexivity|].
  cbn [anonymizedIp ipAddress geoData with_velocityData with_geoData].
  repeat split; assumption.
Qed.

End Published.

Lemma anonymisation_keeps_the_address_witness :
  exists event' w',
    enrichData
      (Samples.event "merchant-123" "session-1" "203.0.113.7"
         (Samples.device "visitor-1" (Some 0.9%Q) false) None None)
      (set_redis
         (Redis.SET (settings_key "merchant-123")
            (CSettings {| riskThreshold := 70; enableCaptcha := true;
                          captchaThreshold := 80; ipAnonymization := true;
                          webhookUrl := None; notificationEmail := None |}) ∅)
         (Samples.evaluator_world true))
    = (Ok event', w')
    /\ anonymizedIp event' = Some "203.0.113.0"
    /\ ipAddress event' = "203.0.113.7".
Proof.
  set (settings := {| riskThreshold := 70; enableCaptcha := true;
                      captchaThreshold := 80; ipAnonymization := true;
                      webhookUrl := None; notificationEmail := None |}).
  set (db := Redis.SET (settings_key "merchant-123") (CSettings settings) ∅).
  assert (Redis.GET (seconds (set_redis db (Samples.evaluator_world true)))
            (settings_key "merchant-123") db = Some (CSettings settings)) as Hsettings
    by (vm_compute; reflexivity).
  destruct (anonymisation_keeps_the_address
              (Samples.event "merchant-123" "session-1" "203.0.113.7"
                 (Samples.device "visitor-1" (Some 0.9%Q) false) None None)
              settings (set_redis db (Samples.evaluator_world true)) db
              eq_refl Hsettings)
    as (event' & w' & Hrun & Hanon & Hip & _).
  exists event', w'. split; [exact Hrun|]. split; [exact Hanon|exact Hip].
Defined.

End EvaluatorExtras.

(** ** Properties of the pipeline: from an evaluation to a decision *)

Module PipelineExtras.
Import Js Condition.
Import DecisionerProperties EvaluatorProperties DecisionerExtras.

Local Open Scope Q_scope.

Section EndToEnd.
Context `{Runtime}.

Lemma uuid_not_empty (n : nat) : "uuid-" +:+ pretty n <> "".
Proof. intros Heq. vm_compute in Heq. discriminate Heq. Qed.

(** The ids and the merchant of a computed risk score, on both paths of
    [calculateRiskScore]. *)
Lemma calculateRiskScore_ids (config : Evaluator.Config)
    (event : Evaluator.EnrichedEvent) (w w' : Evaluator.World)
    (riskScore : Evaluator.RiskScore) :
  Evaluator.calculateRiskScore config event w = (Ok riskScore, w') ->
  Evaluator.rs_id riskScore <> ""
  /\ Evaluator.rs_evaluationId riskScore <> ""
  /\ Evaluator.rs_merchantId riskScore = Evaluator.merchantId event.
Proof.
  assert (forall w0 e w1,
            Evaluator.evaluationId_or_fresh event w0 = (Ok e, w1) -> e <> "") as Hfresh.
  { intros w0 e w1. unfold Evaluator.evaluationId_or_fresh.
    destruct (Evaluator.evaluationId event) as [[|c s]|]; intros [= <- _];
      try apply uuid_not_empty. discriminate. }
  destruct (getMerchantSettings_runs (Evaluator.merchantId event) w)
    as (settings & w1 & Hs & _).
  destruct (getMerchantRules_runs (Evaluator.merchantId event) w1)
    as (rules & w2 & Hr & _).
  unfold Evaluator.calculateRiskScore, try_catch, Evaluator.calculateRiskScore_try.
  unfold bind at 1. rewrite Hs. unfold bind at 1. rewrite Hr.
  destruct (Evaluator.tally event rules) as [points factors].
  unfold bind at 1. unfold Evaluator.uuidv4 at 1.
  unfold bind at 1.
  destruct (evaluationId_or_fresh_runs event
              (Evaluator.set_uuid_seed (S (Evaluator.uuid_seed w2)) w2))
    as (e & w3 & He & _).
  rewrite He. apply Hfresh in He.
  unfold bind at 1, Evaluator.Date_now at 1, gets at 1.
  unfold bind at 1, Evaluator.produceEvent at 1.
  destruct (Evaluator.producer_connected w3).
  - unfold ret. intros [= <- _]. cbn. repeat split; [apply uuid_not_empty|exact He].
  - unfold Evaluator.calculateRiskScore_catch.
    unfold bind at 1. cbn [Evaluator.logger_error modify].
    unfold bind at 1, Evaluator.uuidv4 at 1.
    unfold bind at 1.
    match goal with
    | |- context [Evaluator.evaluationId_or_fresh event ?w0] =>
        destruct (evaluationId_or_fresh_runs event w0) as (e' & w4 & He' & _)
    end.
    rewrite He'. apply Hfresh in He'.
    unfold bind, Evaluator.Date_now, gets, ret. intros [= <- _]. cbn.
    repeat split; [apply uuid_not_empty|exact He'].
Qed.

(** X25.  The Evaluator scores from 0 to 100, the Decisioner's default
    thresholds are 0.7 and 0.9: a risk score of 0.9 or more that goes over
    the topic to a Decisioner whose cache holds no rules for the merchant nor
    for the default tenant is classified [critical] and rejected.  So is, for
    example, an evaluation whose only signal is [medium_device_confidence],
    which scores 10. *)
Theorem computed_score_is_rejected_by_default
    (config : Evaluator.Config) (event : Evaluator.EnrichedEvent)
    (we we' : Evaluator.World) (riskScore : Evaluator.RiskScore)
    (wd : Decisioner.World) (db : gmap string (Redis.Entry Decisioner.Doc))
    (offset : nat)
    (Hcomputed : Evaluator.calculateRiskScore config event we = (Ok riskScore, we'))
    (Hmerchant : Evaluator.merchantId event <> "")
    (Hscore : 0.9 <= Evaluator.score riskScore)
    (Hclient : Decisioner.redis_client wd = Some db)
    (Hproducer : Decisioner.producer_connected wd = true)
    (Hown : db !! Decisioner.rules_key (Evaluator.merchantId event) = None)
    (Hdefault : db !! Decisioner.rules_key "default" = None) :
  exists wd' td,
    Decisioner.processMessages (Decisioner.config_of Decisioner.empty_env)
      [Pipeline.risk_score_message offset riskScore] wd
    = (Ok tt, wd')
    /\ Decisioner.published wd' = (Decisioner.published wd ++ [td])%list
    /\ Decisioner.td_evaluationId td = Evaluator.rs_evaluationId riskScore
    /\ Decisioner.riskScore td = Evaluator.score riskScore
    /\ Decisioner.riskLevel td = Decisioner.Critical
    /\ Decisioner.decision td = Decisioner.Reject.
Proof.
  destruct (calculateRiskScore_ids config event we we' riskScore Hcomputed)
    as (Hid & Hevaluation & Hm).
  set (message := Pipeline.risk_score_message offset riskScore).
  assert (exists rs, Decisioner.msg_value message = Decisioner.Parsed rs
                     /\ Decisioner.accepted message = Some rs) as (rs & Hvalue & Haccepted).
  { eexists. split; [reflexivity|].
    unfold Decisioner.accepted, message, Pipeline.risk_score_message.
    cbn [Decisioner.msg_value Decisioner.rs_id Decisioner.rs_evaluationId
         Decisioner.rs_merchantId].
    rewrite !bool_decide_eq_false_2; [reflexivity| | |]; congruence. }
  injection Hvalue as Hrs.
  cbn [Decisioner.processMessages].
  destruct (parseMessage_accepted message wd) as (w0 & Hparse & Hw0).
  unfold bind at 1. unfold try_catch. unfold bind at 1.
  rewrite Hparse, Haccepted.
  assert (Decisioner.redis_client w0 = Some db) as Hdb0 by (rewrite Hw0; exact Hclient).
  destruct (processRiskScore_runs (Decisioner.config_of Decisioner.empty_env) rs w0 db Hdb0)
    as (w1 & earlier & Hrun & _ & _ & _ & _ & _ & Hpub).
  replace (Decisioner.producer_connected w0) with true in Hpub
    by (rewrite Hw0; symmetry; exact Hproducer).
  destruct Hpub as [Hpub _].
  replace (Decisioner.published w0) with (Decisioner.published wd) in Hpub
    by (rewrite Hw0; reflexivity).
  rewrite Hrun. unfold ret.
  match type of Hpub with
  | _ = (_ ++ [?d])%list => exists w1, d
  end.
  split; [reflexivity|]. split; [exact Hpub|].
  cbn [Decisioner.td_evaluationId Decisioner.riskScore Decisioner.riskLevel
       Decisioner.decision].
  subst rs.
  cbn [Decisioner.rs_evaluationId Decisioner.score Decisioner.rs_merchantId
       Decisioner.riskFactors].
  split; [reflexivity|]. split; [reflexivity|].
  apply Qle_bool_true in Hscore.
  split.
  - unfold Decisioner.getRiskLevel. rewrite Hscore. reflexivity.
  - rewrite Hm. unfold Redis.GET. rewrite Hown, Hdefault.
    unfold Decisioner.decision_content, Decisioner.applyCustomRules,
      Decisioner.threshold_decision.
    cbn [Decisioner.rules_of Decisioner.fallback_rules Decisioner.customRules
         Decisioner.highRiskThreshold Decisioner.riskThreshold
         Decisioner.automaticReject Decisioner.config_of
         Decisioner.defaultRiskThreshold Decisioner.config_highRiskThreshold
         Decisioner.score Decisioner.riskFactors].
    change (default 0.9%Q (Decisioner.HIGH_RISK_THRESHOLD Decisioner.empty_env))
      with 0.9%Q.
    rewrite Hscore.
    destruct (Evaluator.riskFactors riskScore); reflexivity.
Qed.

End EndToEnd.

Lemma computed_score_is_rejected_by_default_witness :
  exists riskScore we' wd' td,
    Evaluator.calculateRiskScore (H := Samples.sample_runtime) Evaluator.default_config
      (Samples.event "merchant-123" "session-123" "203.0.113.7"
         (Samples.device "visitor-123" (Some 0.5) false) None None)
      (Samples.evaluator_world true)
    = (Ok riskScore, we')
    /\ Evaluator.score riskScore == 10
    /\ Decisioner.processMessages (H := Samples.sample_runtime)
         (Decisioner.config_of Decisioner.empty_env)
         [Pipeline.risk_score_message 0 riskScore] Samples.decisioner_world
       = (Ok tt, wd')
    /\ Decisioner.published wd' = [td]
    /\ Decisioner.decision td = Decisioner.Reject.
Proof.
  eexists _, _.
  assert (Evaluator.calculateRiskScore (H := Samples.sample_runtime)
            Evaluator.default_config
            (Samples.event "merchant-123" "session-123" "203.0.113.7"
               (Samples.device "visitor-123" (Some 0.5) false) None None)
            (Samples.evaluator_world true)
          = (Ok _, _)) as Hcomputed by (vm_compute; reflexivity).
  destruct (computed_score_is_rejected_by_default (H := Samples.sample_runtime)
              _ _ _ _ _ Samples.decisioner_world ∅ 0%nat Hcomputed
              ltac:(discriminate) ltac:(vm_compute; discriminate)
              eq_refl eq_refl eq_refl eq_refl)
    as (wd' & td & Hrun & Hpub & _ & _ & _ & Hdecision).
  exists wd', td. split; [exact Hcomputed|]. split; [reflexivity|].
  split; [exact Hrun|]. split; [exact Hpub | exact Hdecision].
Defined.

End PipelineExtras.
